(** * Slidev MCP server: deck builder and PDF export driver

    A shallow embedding of the Slidev tool server ([index.js]: the
    [build_complete_presentation] and [export_to_pdf] handlers) and of the
    export wrapper ([export-wrapper.js]: [exportToPDF]), followed by the
    guidance tool of the server ([get_slidev_guidance], with the knowledge
    base of [slidev-knowledge.js]) and the command line of the wrapper.

    - JavaScript strings are sequences of UTF-16 code units ([list N]).
    - Optional object fields ([undefined], [null]) are [option] values.
    - The file system, the working directory, the module-level variable
      [presentationName] and the log of spawned commands live in an explicit
      [World] that every effectful operation threads through.
    - What the program only reads from its host (platform, environment
      variables, Node's [path] module, the outcome of spawned commands) is
      a [Host] instance.
    - A JavaScript exception is the [Thrown] outcome of a computation; the
      world keeps every change made before the throw.
    - [console.error] diagnostics are not modelled. *)

From Stdlib Require Import NArith String Ascii.
From stdpp Require Import base option list gmap.

Local Open Scope N_scope.
Local Open Scope list_scope.

(** ** JavaScript strings *)

Module Js.

Fixpoint lit (s : string) : list N :=
  match s with
  | EmptyString => []
  | String a rest => N_of_ascii a :: lit rest
  end.

(** The newline and double-quote escapes of the source text. *)
Definition nl : list N := [10].
Definition dq : list N := [34].

(** [WhiteSpace] and [LineTerminator] of ECMAScript, the code units that
    [String.prototype.trim] strips. *)
Definition whiteSpaceUnits : list N :=
  [9; 10; 11; 12; 13; 32; 160; 5760; 8192; 8193; 8194; 8195; 8196; 8197;
   8198; 8199; 8200; 8201; 8202; 8232; 8233; 8239; 8287; 12288; 65279].

Definition isWhiteSpace (c : N) : bool := existsb (N.eqb c) whiteSpaceUnits.

Fixpoint trimStart (s : list N) : list N :=
  match s with
  | [] => []
  | c :: rest => if isWhiteSpace c then trimStart rest else s
  end.

Definition trimEnd (s : list N) : list N := rev (trimStart (rev s)).

Definition trim (s : list N) : list N := trimEnd (trimStart s).

(** ToBoolean on a string: only the empty string is falsy. *)
Definition truthy (s : list N) : bool :=
  match s with [] => false | _ :: _ => true end.

(** ToBoolean on an optional string. *)
Definition truthyOpt (o : option (list N)) : bool :=
  match o with Some s => truthy s | None => false end.

Fixpoint startsWith (p s : list N) : bool :=
  match p, s with
  | [], _ => true
  | _ :: _, [] => false
  | a :: p', b :: s' => (a =? b) && startsWith p' s'
  end.

Fixpoint includes (p s : list N) : bool :=
  startsWith p s || match s with [] => false | _ :: s' => includes p s' end.

Definition endsWith (p s : list N) : bool := startsWith (rev p) (rev s).

(** [===] on strings. *)
Definition strictEq (a b : list N) : bool := bool_decide (a = b).

(** The replacement text of [String.prototype.replace] when the pattern is
    a string: [$$] stands for a dollar sign, [$&] for the matched text,
    [$`] for the text before the match and [$'] for the text after it.  A
    dollar sign before anything else stands for itself (a string pattern has
    no capture for [$1] or [$<name>] to name). *)
Fixpoint substitute (matched before after template : list N) : list N :=
  match template with
  | [] => []
  | c :: rest =>
      if c =? 36 then
        match rest with
        | d :: rest' =>
            if d =? 36 then 36 :: substitute matched before after rest'
            else if d =? 38 then matched ++ substitute matched before after rest'
            else if d =? 96 then before ++ substitute matched before after rest'
            else if d =? 39 then after ++ substitute matched before after rest'
            else c :: substitute matched before after rest
        | [] => [c]
        end
      else c :: substitute matched before after rest
  end.

(** [String.prototype.replace] with a string pattern and a string
    replacement, from the text [s] that follows [before]: only the first
    occurrence is replaced. *)
Fixpoint replaceFrom (p r before s : list N) : list N :=
  if startsWith p s
  then substitute p before (drop (length p) s) r ++ drop (length p) s
  else match s with
       | [] => []
       | c :: s' => c :: replaceFrom p r (before ++ [c]) s'
       end.

Definition replaceFirst (p r s : list N) : list N := replaceFrom p r [] s.

(** [Array.prototype.join] on strings. *)
Fixpoint joinWith (sep : list N) (parts : list (list N)) : list N :=
  match parts with
  | [] => []
  | [x] => x
  | x :: rest => x ++ sep ++ joinWith sep rest
  end.

(** [toLowerCase] as far as the comparisons of this program can observe it
    (they test against the ASCII words [none] and [playwright]): ASCII capitals
    are lowered.  The only other code units whose lower case holds an ASCII
    letter are U+212A (to [k]) and U+0130 (to [i] followed by U+0307); neither
    can produce or join an occurrence of those two words. *)
Definition lowerUnit (c : N) : N :=
  if (65 <=? c) && (c <=? 90) then c + 32 else c.

Definition toLowerCase (s : list N) : list N := map lowerUnit s.

(** The matches [String.prototype.match] returns for a global, literal
    pattern: leftmost first, never overlapping.  [skip] counts the code units
    of the current match still to be passed over. *)
Fixpoint countFrom (p : list N) (skip : nat) (s : list N) : nat :=
  match s with
  | [] => 0%nat
  | _ :: rest =>
      match skip with
      | S k => countFrom p k rest
      | O =>
          if startsWith p s
          then S (countFrom p (Nat.pred (length p)) rest)
          else countFrom p 0 rest
      end
  end.

Definition countMatches (p s : list N) : nat := countFrom p 0 s.

Fixpoint digits (d : Decimal.uint) : list N :=
  match d with
  | Decimal.Nil => []
  | Decimal.D0 d => 48 :: digits d
  | Decimal.D1 d => 49 :: digits d
  | Decimal.D2 d => 50 :: digits d
  | Decimal.D3 d => 51 :: digits d
  | Decimal.D4 d => 52 :: digits d
  | Decimal.D5 d => 53 :: digits d
  | Decimal.D6 d => 54 :: digits d
  | Decimal.D7 d => 55 :: digits d
  | Decimal.D8 d => 56 :: digits d
  | Decimal.D9 d => 57 :: digits d
  end.

(** A non-negative integer inside a template literal. *)
Definition decimal (n : nat) : list N := digits (Nat.to_uint n).

(** [s.replace(/\.md$/i, '')]: drop one trailing [.md], in any letter case. *)
Definition stripMdExt (s : list N) : list N :=
  match rev s with
  | d :: m :: dot :: body =>
      if (dot =? 46) && ((m =? 109) || (m =? 77)) && ((d =? 100) || (d =? 68))
      then rev body else s
  | _ => s
  end.

(** [s.replace(/^presentations\//, '')] *)
Definition stripPresentationsDir (s : list N) : list N :=
  let p := lit "presentations/" in
  if startsWith p s then drop (length p) s else s.

(** UTF-8 bytes of a string, as [Buffer.from(s, 'utf8')] encodes it: a
    surrogate pair is one four-byte sequence, a lone surrogate is U+FFFD. *)
Fixpoint utf8 (s : list N) : list N :=
  match s with
  | [] => []
  | c :: rest =>
      if c <? 128 then c :: utf8 rest
      else if c <? 2048 then
        N.lor 192 (N.shiftr c 6) :: N.lor 128 (N.land c 63) :: utf8 rest
      else if (55296 <=? c) && (c <? 56320) then
        match rest with
        | d :: rest' =>
            if (56320 <=? d) && (d <? 57344) then
              let cp := 65536 + N.shiftl (c - 55296) 10 + (d - 56320) in
              N.lor 240 (N.shiftr cp 18)
                :: N.lor 128 (N.land (N.shiftr cp 12) 63)
                :: N.lor 128 (N.land (N.shiftr cp 6) 63)
                :: N.lor 128 (N.land cp 63) :: utf8 rest'
            else 239 :: 191 :: 189 :: utf8 rest
        | [] => [239; 191; 189]
        end
      else if (56320 <=? c) && (c <? 57344) then 239 :: 191 :: 189 :: utf8 rest
      else
        N.lor 224 (N.shiftr c 12)
          :: N.lor 128 (N.land (N.shiftr c 6) 63)
          :: N.lor 128 (N.land c 63) :: utf8 rest
  end.

Definition hexDigit (n : N) : N := if n <? 10 then 48 + n else 87 + n.

(** [digest('hex')]: two lower-case digits per byte. *)
Fixpoint hex (bytes : list N) : list N :=
  match bytes with
  | [] => []
  | b :: rest => hexDigit (N.shiftr b 4) :: hexDigit (N.land b 15) :: hex rest
  end.

End Js.

Import Js.
Arguments Js.lit s%_string : simpl never.

(** ** SHA-1 ([crypto.createHash('sha1')]), FIPS 180-4 on 32-bit words *)

Module Sha1.

Definition mask32 (x : N) : N := N.land x 4294967295.

Definition add32 (x y : N) : N := mask32 (x + y).

Definition rotl (n x : N) : N :=
  mask32 (N.lor (N.shiftl x n) (N.shiftr x (32 - n))).

Definition not32 (x : N) : N := N.lxor x 4294967295.

(** Big-endian bytes of a [width]-byte number. *)
Fixpoint bigEndian (width : nat) (x : N) : list N :=
  match width with
  | O => []
  | S k => N.land (N.shiftr x (8 * N.of_nat k)) 255 :: bigEndian k x
  end.

(** The message, one [0x80] byte, zeros up to 56 modulo 64, the bit length. *)
Definition pad (msg : list N) : list N :=
  let len := length msg in
  let zeros := ((64 - (len + 9) mod 64) mod 64)%nat in
  msg ++ [128] ++ repeat 0 zeros ++ bigEndian 8 (8 * N.of_nat len).

Fixpoint wordsOf (count : nat) (bytes : list N) : list N :=
  match count with
  | O => []
  | S k =>
      match bytes with
      | a :: b :: c :: d :: rest =>
          (N.shiftl a 24 + N.shiftl b 16 + N.shiftl c 8 + d) :: wordsOf k rest
      | _ => []
      end
  end.

(** The next word of the message schedule from the last sixteen. *)
Definition nextWord (window : list N) : N :=
  rotl 1 (N.lxor (N.lxor (nth 13 window 0) (nth 8 window 0))
                 (N.lxor (nth 2 window 0) (nth 0 window 0))).

Definition roundFunction (t : nat) (b c d : N) : N :=
  if (t <? 20)%nat then N.lor (N.land b c) (N.land (not32 b) d)
  else if (t <? 40)%nat then N.lxor (N.lxor b c) d
  else if (t <? 60)%nat then N.lor (N.lor (N.land b c) (N.land b d)) (N.land c d)
  else N.lxor (N.lxor b c) d.

Definition roundConstant (t : nat) : N :=
  if (t <? 20)%nat then 1518500249
  else if (t <? 40)%nat then 1859775393
  else if (t <? 60)%nat then 2400959708
  else 3395469782.

Record state : Type := mkState { h0 : N; h1 : N; h2 : N; h3 : N; h4 : N }.

(** [todo] rounds from round [t] on; [window] holds the schedule words
    [t], ..., [t + 15]. *)
Fixpoint rounds (todo t : nat) (window : list N) (s : state) : state :=
  match todo with
  | O => s
  | S k =>
      let w := nth 0 window 0 in
      let temp :=
        add32 (add32 (add32 (add32 (rotl 5 (h0 s))
                                   (roundFunction t (h1 s) (h2 s) (h3 s)))
                            (h4 s)) (roundConstant t)) w in
      rounds k (S t) (drop 1 window ++ [nextWord window])
        (mkState temp (h0 s) (rotl 30 (h1 s)) (h2 s) (h3 s))
  end.

Definition compress (block : list N) (s : state) : state :=
  let r := rounds 80 0 (wordsOf 16 block) s in
  mkState (add32 (h0 s) (h0 r)) (add32 (h1 s) (h1 r)) (add32 (h2 s) (h2 r))
          (add32 (h3 s) (h3 r)) (add32 (h4 s) (h4 r)).

Fixpoint blocks (count : nat) (bytes : list N) (s : state) : state :=
  match count with
  | O => s
  | S k => blocks k (drop 64 bytes) (compress (take 64 bytes) s)
  end.

Definition initial : state :=
  mkState 1732584193 4023233417 2562383102 271733878 3285377520.

Definition digest (msg : list N) : list N :=
  let padded := pad msg in
  let s := blocks (length padded / 64) padded initial in
  bigEndian 4 (h0 s) ++ bigEndian 4 (h1 s) ++ bigEndian 4 (h2 s)
    ++ bigEndian 4 (h3 s) ++ bigEndian 4 (h4 s).

(** [crypto.createHash('sha1').update(s).digest('hex')] *)
Definition sha1Hex (s : list N) : list N := hex (digest (utf8 s)).

End Sha1.

(** ** The deck: input of [build_complete_presentation] *)

Module Slide.
Record t : Type := mk {
  layout : option (list N);
  title : option (list N);
  content : option (list N);
  code : option (list N);
  codeLanguage : option (list N)
}.
End Slide.

Module BuildInput.
Record t : Type := mk {
  name : list N;
  title : list N;
  slides : list Slide.t;
  theme : option (list N);
  author : option (list N)
}.
End BuildInput.

(** ** Markdown deck builder ([index.js], the [forEach] of the build handler) *)

Module Builder.

(** [slide.layout && slide.layout.trim().length > 0 ? slide.layout : dflt] *)
Definition resolveLayout (layout : option (list N)) (dflt : list N) : list N :=
  match layout with
  | Some l => if truthy l && (0 <? length (trim l))%nat then l else dflt
  | None => dflt
  end.

(** [typeof input.theme === "string" && input.theme.trim().length > 0
     ? input.theme : undefined] *)
Definition themeValue (input : BuildInput.t) : option (list N) :=
  match BuildInput.theme input with
  | Some th => if (0 <? length (trim th))%nat then Some th else None
  | None => None
  end.

Definition firstSlideHeader (input : BuildInput.t) (slide : Slide.t) : list N :=
  let firstSlideHeader := lit "---" ++ nl in
  let firstLayout := resolveLayout (Slide.layout slide) (lit "cover") in
  let firstSlideHeader := firstSlideHeader ++ (lit "layout: " ++ firstLayout ++ nl) in
  let firstSlideHeader :=
    if truthyOpt (themeValue input)
    then firstSlideHeader ++ (lit "theme: " ++ default [] (themeValue input) ++ nl)
    else firstSlideHeader in
  let firstSlideHeader :=
    firstSlideHeader ++ (lit "title: " ++ dq ++ BuildInput.title input ++ dq ++ nl) in
  let firstSlideHeader :=
    if truthyOpt (BuildInput.author input)
    then firstSlideHeader
           ++ (lit "author: " ++ dq ++ default [] (BuildInput.author input) ++ dq ++ nl)
    else firstSlideHeader in
  firstSlideHeader ++ (lit "---" ++ nl).

(** The [if (index === 0) ... else ...] of the callback: the frontmatter
    block that opens a slide. *)
Definition blockHeader (input : BuildInput.t) (index : nat) (slide : Slide.t) : list N :=
  match index with
  | O => firstSlideHeader input slide
  | S _ =>
      let layout := resolveLayout (Slide.layout slide) (lit "default") in
      nl ++ lit "---" ++ nl ++ lit "layout: " ++ layout ++ nl ++ lit "---" ++ nl
  end.

(** One call of the [forEach] callback: the new value of [markdown]. *)
Definition emitSlide (input : BuildInput.t) (markdown : list N)
    (slide : Slide.t) (index : nat) : list N :=
  let markdown := markdown ++ blockHeader input index slide in
  let markdown :=
    if truthyOpt (Slide.title slide)
    then markdown ++ (nl ++ lit "# " ++ default [] (Slide.title slide) ++ nl)
    else markdown in
  let markdown :=
    if truthyOpt (Slide.content slide)
    then markdown ++ (nl ++ default [] (Slide.content slide) ++ nl)
    else markdown in
  if truthyOpt (Slide.code slide) && truthyOpt (Slide.codeLanguage slide)
  then markdown ++ (nl ++ lit "```" ++ default [] (Slide.codeLanguage slide) ++ nl
                       ++ default [] (Slide.code slide) ++ nl ++ lit "```" ++ nl)
  else markdown.

(** [slides.forEach((slide, index) => ...)], from [index] on. *)
Fixpoint forEachSlide (input : BuildInput.t) (slides : list Slide.t)
    (index : nat) (markdown : list N) : list N :=
  match slides with
  | [] => markdown
  | slide :: rest =>
      forEachSlide input rest (S index) (emitSlide input markdown slide index)
  end.

(** [let markdown = ""; input.slides.forEach(...)] *)
Definition buildMarkdown (input : BuildInput.t) : list N :=
  forEachSlide input (BuildInput.slides input) 0 [].

(** The text one slide contributes: the callback run on an empty buffer. *)
Definition slideBlock (input : BuildInput.t) (index : nat) (slide : Slide.t) : list N :=
  emitSlide input [] slide index.

(** The pattern of the export handler's slide count, [/---\nlayout:/g]. *)
Definition slideSeparator : list N := lit "---" ++ nl ++ lit "layout:".

End Builder.

(** ** The host and the world *)

Inductive Platform : Type := win32 | darwin | otherPlatform.

(** An entry of the file system: a regular file with its content, or a
    directory. *)
Inductive Node : Type := File (content : list N) | Dir.

(** What a spawned command did: the file system it left behind and, when it
    exited with a failure or timed out, the message of the error [execSync]
    throws. *)
Record ShellResult : Type := mkShellResult {
  shellFs : gmap (list N) Node;
  shellError : option (list N)
}.

(** What the program reads from its host without changing it.  [resolve]
    takes [process.cwd()] as its first argument; [shell] is given the
    command, its working directory, the commands run before it and the file
    system. *)
Class Host : Type := mkHost {
  platform : Platform;
  homedir : list N;
  getenv : list N -> option (list N);
  wrapperDir : list N;
  resolve : list N -> list (list N) -> list N;
  join : list (list N) -> list N;
  dirname : list N -> list N;
  basename : list N -> list N;
  writable : list N -> bool;
  shell : list N -> list N -> list (list N) -> gmap (list N) Node -> ShellResult
}.

(** The mutable state: file system, [process.cwd()], the module-level
    [presentationName] of [index.js], and every command handed to
    [execSync], latest first. *)
Record World : Type := mkWorld {
  fs : gmap (list N) Node;
  cwd : list N;
  presentationName : list N;
  execLog : list (list N)
}.

Definition setFs (fs' : gmap (list N) Node) (w : World) : World :=
  mkWorld fs' (cwd w) (presentationName w) (execLog w).

Definition setCwd (dir : list N) (w : World) : World :=
  mkWorld (fs w) dir (presentationName w) (execLog w).

Definition setPresentationName (name : list N) (w : World) : World :=
  mkWorld (fs w) (cwd w) name (execLog w).

Definition logExec (command : list N) (w : World) : World :=
  mkWorld (fs w) (cwd w) (presentationName w) (command :: execLog w).

(** ** Computations that may throw *)

Inductive Outcome (A : Type) : Type :=
  | Returned (value : A)
  | Thrown (message : list N).
Arguments Returned {A} value.
Arguments Thrown {A} message.

Definition M (A : Type) : Type := World -> Outcome A * World.

#[export] Instance M_ret : MRet M := fun A a w => (Returned a, w).

#[export] Instance M_bind : MBind M := fun A B f m w =>
  match m w with
  | (Returned a, w') => f a w'
  | (Thrown e, w') => (Thrown e, w')
  end.

(** [throw new Error(message)] *)
Definition throw {A : Type} (message : list N) : M A :=
  fun w => (Thrown message, w).

(** [try { body } catch (error) { handler(error.message) }] *)
Definition tryCatch {A : Type} (body : M A) (handler : list N -> M A) : M A :=
  fun w =>
    match body w with
    | (Returned a, w') => (Returned a, w')
    | (Thrown e, w') => handler e w'
    end.

Definition getWorld : M World := fun w => (Returned w, w).

Definition modifyWorld (f : World -> World) : M unit := fun w => (Returned tt, f w).

(** ** Node's [fs], [process] and [child_process] *)

Module Fs.
Section WithHost.
Context `{Host}.

(** The entry at a path; the empty path names nothing. *)
Definition entry (w : World) (p : list N) : option Node :=
  if truthy p then fs w !! p else None.

(** Whether the process may create or overwrite [p]. *)
Definition mayWrite (p : list N) : bool := truthy p && writable p.

Definition existsSync (p : list N) : M bool :=
  fun w => (Returned (bool_decide (is_Some (entry w p))), w).

(** [mkdirSync(target, { recursive: true })] seen from [p], which is
    [target] or one of its ancestors: a directory that is there is left
    alone, a file in the way is an error, and a missing directory is made
    after its missing ancestors, topmost first; the directories made before a
    failure stay.  A path that is its own parent has no ancestor to make.
    [fuel] bounds the climb: the length of the path is enough on a POSIX
    host (lemma [mkdirSync_fuel]); the empty path names nothing and cannot
    be made. *)
Fixpoint makeDirs (fuel : nat) (target p : list N) : M unit :=
  fun w =>
    match entry w p with
    | Some Dir => (Returned tt, w)
    | Some (File _) =>
        (Thrown ((if bool_decide (p = target) then lit "EEXIST: file already exists"
                  else lit "ENOTDIR: not a directory")
                   ++ lit ", mkdir '" ++ target ++ lit "'"), w)
    | None =>
        let make : M unit :=
          fun w1 =>
            if mayWrite p then (Returned tt, setFs (<[p := Dir]> (fs w1)) w1)
            else (Thrown (lit "EACCES: permission denied, mkdir '" ++ target ++ lit "'"),
                  w1) in
        if bool_decide (dirname p = p) then make w
        else
          match fuel with
          | O =>
              (Thrown (lit "ENOENT: no such file or directory, mkdir '" ++ target
                         ++ lit "'"), w)
          | S fuel' => (makeDirs fuel' target (dirname p);; make) w
          end
    end.

(** [mkdirSync(p, { recursive: true })] *)
Definition mkdirSync (p : list N) : M unit := makeDirs (length p) p p.

(** Why a new entry cannot be put at [p], as far as its parent directory is
    concerned: the parent is missing, or it is a file. *)
Definition parentFault (w : World) (p : list N) : option (list N) :=
  match entry w (dirname p) with
  | Some Dir => None
  | Some (File _) => Some (lit "ENOTDIR: not a directory")
  | None => Some (lit "ENOENT: no such file or directory")
  end.

Definition writeFileSync (p content : list N) : M unit :=
  fun w =>
    match parentFault w p with
    | Some fault => (Thrown (fault ++ lit ", open '" ++ p ++ lit "'"), w)
    | None =>
        match entry w p with
        | Some Dir =>
            (Thrown (lit "EISDIR: illegal operation on a directory, open '" ++ p
                       ++ lit "'"), w)
        | _ =>
            if mayWrite p then (Returned tt, setFs (<[p := File content]> (fs w)) w)
            else (Thrown (lit "EACCES: permission denied, open '" ++ p ++ lit "'"), w)
        end
    end.

Definition readFileSync (p : list N) : M (list N) :=
  fun w =>
    match entry w p with
    | Some (File content) => (Returned content, w)
    | Some Dir => (Thrown (lit "EISDIR: illegal operation on a directory, read"), w)
    | None =>
        (Thrown (lit "ENOENT: no such file or directory, open '" ++ p ++ lit "'"), w)
    end.

Definition copyFileSync (src dst : list N) : M unit :=
  fun w =>
    match entry w src with
    | Some (File content) =>
        match parentFault w dst with
        | Some fault =>
            (Thrown (fault ++ lit ", copyfile '" ++ src ++ lit "' -> '" ++ dst ++ lit "'"),
             w)
        | None =>
            match entry w dst with
            | Some Dir =>
                (Thrown (lit "EISDIR: illegal operation on a directory, copyfile '"
                           ++ src ++ lit "' -> '" ++ dst ++ lit "'"), w)
            | _ =>
                if mayWrite dst
                then (Returned tt, setFs (<[dst := File content]> (fs w)) w)
                else (Thrown (lit "EACCES: permission denied, copyfile '"
                                ++ src ++ lit "' -> '" ++ dst ++ lit "'"), w)
            end
        end
    | Some Dir =>
        (Thrown (lit "ENOTSUP: operation not supported on socket, copyfile '"
                   ++ src ++ lit "' -> '" ++ dst ++ lit "'"), w)
    | None =>
        (Thrown (lit "ENOENT: no such file or directory, copyfile '"
                   ++ src ++ lit "' -> '" ++ dst ++ lit "'"), w)
    end.

(** [fs.promises.stat(p)], awaited; only its failure matters here. *)
Definition stat (p : list N) : M unit :=
  fun w =>
    match entry w p with
    | Some _ => (Returned tt, w)
    | None =>
        (Thrown (lit "ENOENT: no such file or directory, stat '" ++ p ++ lit "'"), w)
    end.

Definition processCwd : M (list N) := fun w => (Returned (cwd w), w).

Definition chdir (dir : list N) : M unit :=
  fun w =>
    match entry w dir with
    | Some Dir => (Returned tt, setCwd dir w)
    | _ =>
        (Thrown (lit "ENOENT: no such file or directory, chdir " ++ cwd w
                   ++ lit " -> '" ++ dir ++ lit "'"), w)
    end.

(** [execSync(command, { cwd: dir, ... })]: the command is logged, the host
    decides what it does to the file system and whether it fails. *)
Definition execSync (command dir : list N) : M unit :=
  fun w =>
    let r := shell command dir (execLog w) (fs w) in
    let w' := setFs (shellFs r) (logExec command w) in
    match shellError r with
    | Some message => (Thrown message, w')
    | None => (Returned tt, w')
    end.

(** [for (const p of paths) if (existsSync(p)) { found = p; break; }] *)
Fixpoint firstExisting (paths : list (list N)) : M (option (list N)) :=
  match paths with
  | [] => mret None
  | p :: rest =>
      found ← existsSync p;
      if found : bool then mret (Some p) else firstExisting rest
  end.

(** [process.env.X && process.env.X.length > 0 ? ... : ...] and [a || b]
    read a variable that is set and not empty. *)
Definition envValue (key : list N) : option (list N) :=
  match getenv key with
  | Some v => if truthy v then Some v else None
  | None => None
  end.

End WithHost.
End Fs.

(** ** The export wrapper ([export-wrapper.js]) *)

Module ExportOptions.
Record t : Type := mk {
  withClicks : bool;
  range : option (list N);
  dark : bool
}.
End ExportOptions.

Module ExportResult.
Record t : Type := mk {
  success : bool;
  pdfPath : list N;
  message : list N
}.
End ExportResult.

Module Wrapper.
Section WithHost.
Context `{Host}.

(** The candidate locations of the input file, in search order. *)
Definition possiblePaths (originalCwd inputFile : list N) : list (list N) :=
  let wrapperRoot := resolve originalCwd [wrapperDir] in
  [ resolve originalCwd [originalCwd; inputFile];
    resolve originalCwd [wrapperRoot; inputFile];
    resolve originalCwd [inputFile];
    resolve originalCwd [originalCwd; lit "presentations"; stripPresentationsDir inputFile];
    resolve originalCwd [wrapperRoot; lit "presentations"; stripPresentationsDir inputFile] ].

(** Locating (lines 31-53): the first candidate that exists, or the error
    of line 52. *)
Definition locate (inputFile : list N) : M (list N) :=
  originalCwd ← Fs.processCwd;
  mdPath ← Fs.firstExisting (possiblePaths originalCwd inputFile);
  if truthyOpt mdPath then mret (default [] mdPath)
  else throw (lit "Input file not found: " ++ inputFile).

Definition getDefaultCanonicalDir : list N :=
  match platform with
  | darwin =>
      join [homedir; lit "Library"; lit "Application Support"; lit "precursor";
            lit "slidev_project"]
  | win32 =>
      let base :=
        match Fs.envValue (lit "LOCALAPPDATA") with
        | Some v => v
        | None =>
            match Fs.envValue (lit "APPDATA") with
            | Some v => v
            | None => join [homedir; lit "AppData"; lit "Local"]
            end
        end in
      join [base; lit "precursor"; lit "slidev_project"]
  | otherPlatform =>
      join [homedir; lit ".local"; lit "share"; lit "precursor"; lit "slidev_project"]
  end.

Definition canonicalRootOf (currentDir : list N) : list N :=
  match Fs.envValue (lit "SLIDEV_DIR") with
  | Some dir => resolve currentDir [dir]
  | None => getDefaultCanonicalDir
  end.

Definition resolveCommand (pkg : list N) : list N :=
  lit "node -e " ++ dq ++ lit "require.resolve('" ++ pkg ++ lit "')" ++ dq.

Definition installCommand (pkg : list N) : list N :=
  lit "npm install -D " ++ pkg ++ lit " --no-audit --no-fund --prefer-offline --silent".

(** [try { resolve } catch { install }]: the install may throw. *)
Definition ensurePackage (canonicalRoot pkg : list N) : M unit :=
  tryCatch (Fs.execSync (resolveCommand pkg) canonicalRoot)
           (fun _ => Fs.execSync (installCommand pkg) canonicalRoot).

(** Preparing (lines 71-111): the project directory, its package
    descriptor, the renderer CLI and the default theme. *)
Definition prepare (canonicalRoot : list N) : M unit :=
  present ← Fs.existsSync canonicalRoot;
  (if present : bool then mret tt else Fs.mkdirSync canonicalRoot);;
  tryCatch
    (hasPackageJson ← Fs.existsSync (join [canonicalRoot; lit "package.json"]);
     (if hasPackageJson : bool then mret tt
      else Fs.execSync (lit "npm init -y") canonicalRoot);;
     ensurePackage canonicalRoot (lit "@slidev/cli");;
     ensurePackage canonicalRoot (lit "@slidev/theme-default"))
    (fun _ => mret tt).

(** [crypto.createHash('sha1').update(mdPath).digest('hex').slice(0, 8)] *)
Definition mdHash (mdPath : list N) : list N := take 8 (Sha1.sha1Hex mdPath).

Definition stagedMdName (mdPath : list N) : list N :=
  let mdBaseName := basename mdPath in
  stripMdExt mdBaseName ++ lit "-" ++ mdHash mdPath ++ lit ".md".

Definition stagedMdRelPath (mdPath : list N) : list N :=
  join [lit "slides"; stagedMdName mdPath].

Definition stagedMdAbsPath (canonicalRoot mdPath : list N) : list N :=
  join [canonicalRoot; stagedMdRelPath mdPath].

(** Staging (lines 113-135): copy the entry into the project, then make the
    project the working directory. *)
Definition stage (canonicalRoot mdPath : list N) : M unit :=
  let slidesDir := join [canonicalRoot; lit "slides"] in
  present ← Fs.existsSync slidesDir;
  (if present : bool then mret tt else Fs.mkdirSync slidesDir);;
  tryCatch (Fs.copyFileSync mdPath (stagedMdAbsPath canonicalRoot mdPath))
           (fun stageErr => throw stageErr);;
  Fs.chdir canonicalRoot.

(** Lines 150-180: the browser-automation package and its browser. *)
Definition ensurePlaywright (canonicalRoot : list N) : M unit :=
  tryCatch (Fs.execSync (resolveCommand (lit "playwright-chromium")) canonicalRoot)
    (fun _ =>
       tryCatch (Fs.execSync (installCommand (lit "playwright-chromium")) canonicalRoot)
                (fun _ => mret tt));;
  tryCatch (Fs.execSync (lit "npx playwright install chromium --with-deps") canonicalRoot)
           (fun _ => mret tt).

Definition derivePkgName (themeName : list N) : list N :=
  if includes (lit "/") themeName || startsWith (lit "@") themeName then themeName
  else if startsWith (lit "theme-") themeName then lit "@slidev/" ++ themeName
  else lit "@slidev/theme-" ++ themeName.

(** The first capture group of the regular expression of line 199 on the
    document, by the backtracking order of the pattern: a delimiter at a line
    start, lazily anything, the word [theme] at a word boundary, white space,
    a colon, white space, an optional quote, the capture (one or more code
    units other than quote and newline), an optional quote, lazily anything,
    a delimiter.  The closing part matches exactly when a delimiter follows;
    the capture is the longest prefix of its run that leaves a delimiter
    behind it. *)
Fixpoint longestCapture (r : nat) (s : list N) : option (list N) :=
  match r with
  | O => None
  | S r' =>
      if includes (lit "---") (drop r s) then Some (take r s) else longestCapture r' s
  end.

Definition isQuoteOrNewline (c : N) : bool := (c =? 34) || (c =? 10).

Fixpoint captureRun (s : list N) : nat :=
  match s with
  | c :: rest => if isQuoteOrNewline c then O else S (captureRun rest)
  | [] => O
  end.

(** From the optional quote before the capture to the end of the pattern. *)
Definition captureAt (s : list N) : option (list N) :=
  let s := match s with 34 :: rest => rest | _ => s end in
  longestCapture (captureRun s) s.

Fixpoint spaceRun (s : list N) : nat :=
  match s with
  | c :: rest => if isWhiteSpace c then S (spaceRun rest) else O
  | [] => O
  end.

(** The greedy white space that follows the colon gives back one code unit
    at a time until the rest matches. *)
Fixpoint afterSpaces (m : nat) (s : list N) : option (list N) :=
  match captureAt (drop m s) with
  | Some captured => Some captured
  | None => match m with O => None | S m' => afterSpaces m' s end
  end.

Definition isWordChar (c : N) : bool :=
  ((48 <=? c) && (c <=? 57)) || ((65 <=? c) && (c <=? 90))
  || ((97 <=? c) && (c <=? 122)) || (c =? 95).

(** From the word boundary on, at [s], the code unit before [s] being
    [prev]. *)
Definition themeAt (prev : N) (s : list N) : option (list N) :=
  if negb (isWordChar prev) && startsWith (lit "theme") s then
    let afterKey := drop 5 s in
    match drop (spaceRun afterKey) afterKey with
    | 58 :: value => afterSpaces (spaceRun value) value
    | _ => None
    end
  else None.

(** The lazy run after the opening delimiter: the earliest position at
    which the rest matches. *)
Fixpoint lazyTheme (prev : N) (s : list N) : option (list N) :=
  match themeAt prev s with
  | Some captured => Some captured
  | None => match s with [] => None | c :: rest => lazyTheme c rest end
  end.

Definition isLineTerminator (c : N) : bool :=
  (c =? 10) || (c =? 13) || (c =? 8232) || (c =? 8233).

(** The leftmost start: a line start (the pattern has the [m] flag) that
    opens with a delimiter and from which the pattern matches. *)
Fixpoint matchFrom (lineStart : bool) (s : list N) : option (list N) :=
  match
    (if lineStart && startsWith (lit "---") s then lazyTheme 45 (drop 3 s) else None)
  with
  | Some captured => Some captured
  | None => match s with [] => None | c :: rest => matchFrom (isLineTerminator c) rest end
  end.

(** [mdText.match(...)?.[1]] *)
Definition matchTheme (mdText : list N) : option (list N) := matchFrom true mdText.

(** [themeMatch?.[1]?.trim()] guarded by
    [frontmatterTheme && frontmatterTheme.toLowerCase() !== 'none']: the
    package to ensure, if any. *)
Definition themePackage (mdText : list N) : option (list N) :=
  match matchTheme mdText with
  | Some captured =>
      let frontmatterTheme := trim captured in
      if truthy frontmatterTheme
         && negb (strictEq (toLowerCase frontmatterTheme) (lit "none"))
      then Some (derivePkgName frontmatterTheme)
      else None
  | None => None
  end.

(** Lines 195-227; a failure to read the document is swallowed. *)
Definition ensureTheme (canonicalRoot mdPath : list N) : M unit :=
  tryCatch
    (mdText ← Fs.readFileSync mdPath;
     match themePackage mdText with
     | Some pkgName =>
         tryCatch (Fs.execSync (resolveCommand pkgName) canonicalRoot)
           (fun _ =>
              tryCatch
                (Fs.execSync
                   (lit "npm install -D " ++ pkgName
                      ++ lit " --no-audit --no-fund --prefer-offline --silent")
                   canonicalRoot)
                (fun _ => mret tt))
     | None => mret tt
     end)
    (fun _ => mret tt).

Definition optionFlags (options : ExportOptions.t) : list (list N) :=
  (if ExportOptions.withClicks options then [lit "--with-clicks"] else [])
  ++ (if truthyOpt (ExportOptions.range options)
      then [lit "--range " ++ dq ++ default [] (ExportOptions.range options) ++ dq]
      else [])
  ++ (if ExportOptions.dark options then [lit "--dark"] else []).

Definition exportCommands (canonicalRoot stagedRel desiredOutputFilename : list N)
    (options : ExportOptions.t) : list (list N) :=
  let base :=
    [ lit "cd " ++ dq ++ canonicalRoot ++ dq ++ lit " && npx slidev export " ++ dq
        ++ stagedRel ++ dq ++ lit " --output " ++ dq ++ desiredOutputFilename ++ dq;
      lit "cd " ++ dq ++ canonicalRoot ++ dq
        ++ lit " && node node_modules/@slidev/cli/bin/slidev.mjs export " ++ dq
        ++ stagedRel ++ dq ++ lit " --output " ++ dq ++ desiredOutputFilename ++ dq ] in
  let flagString := joinWith (lit " ") (optionFlags options) in
  if truthy flagString
  then map (replaceFirst (lit " export " ++ dq)
                         (lit " export " ++ flagString ++ lit " " ++ dq)) base
  else base.

(** The loop of lines 240-287 from command [i] on: [Some lastError] when
    every remaining command failed, [None] at the first success. *)
Fixpoint tryCommands (canonicalRoot : list N) (commands : list (list N)) (i : nat)
    (lastError : option (list N)) : M (option (list N)) :=
  match commands with
  | [] => mret (Some (default (lit "All export methods failed") lastError))
  | command :: rest =>
      failure ← tryCatch (Fs.execSync command canonicalRoot;; mret None)
                         (fun cmdError => mret (Some cmdError));
      match failure with
      | None => mret None
      | Some cmdError =>
          (if includes (lit "playwright") cmdError && bool_decide (i = 0%nat)
           then
             tryCatch
               (Fs.execSync (installCommand (lit "playwright-chromium")) canonicalRoot;;
                Fs.execSync (lit "npx playwright install chromium --with-deps") canonicalRoot)
               (fun _ => mret tt)
           else mret tt);;
          tryCommands canonicalRoot rest (S i) (Some cmdError)
      end
  end.

(** Exporting (lines 236-291). *)
Definition runExport (canonicalRoot : list N) (commands : list (list N)) : M unit :=
  failed ← tryCommands canonicalRoot commands 0 None;
  match failed with
  | None => mret tt
  | Some lastError => throw lastError
  end.

(** The plausible locations of the artifact, in search order (lines 294-309). *)
Definition possibleOutputPaths
    (canonicalRoot currentDir outputPath outputFile mdPath : list N) : list (list N) :=
  let desiredOutputFilename := basename outputPath in
  let stagedDir := dirname (stagedMdAbsPath canonicalRoot mdPath) in
  let mdBase := stripMdExt (basename mdPath) in
  [ outputPath;
    resolve currentDir [canonicalRoot; outputFile];
    join [canonicalRoot; outputFile];
    join [currentDir; outputFile];
    join [canonicalRoot; desiredOutputFilename];
    join [stagedDir; desiredOutputFilename];
    join [canonicalRoot; lit "slides-export.pdf"];
    join [stagedDir; lit "slides-export.pdf"];
    join [canonicalRoot; mdBase ++ lit ".pdf"];
    join [canonicalRoot; mdBase ++ lit "-export.pdf"];
    join [stagedDir; mdBase ++ lit ".pdf"];
    join [stagedDir; mdBase ++ lit "-export.pdf"] ].

(** Verifying (lines 311-345), over the candidate list. *)
Definition verify (candidates : list (list N)) (outputPath : list N) : M ExportResult.t :=
  found ← Fs.firstExisting candidates;
  actualPdfPath ←
    (if truthyOpt found && negb (strictEq (default [] found) outputPath)
     then tryCatch (Fs.copyFileSync (default [] found) outputPath;; mret (Some outputPath))
                   (fun _ => mret found)
     else mret found);
  if truthyOpt actualPdfPath
  then
    Fs.stat (default [] actualPdfPath);;
    mret (ExportResult.mk true (default [] actualPdfPath)
            (lit "PDF exported successfully: " ++ default [] actualPdfPath))
  else throw (lit "PDF file was not created in any expected location").

(** The outer [catch] of [exportToPDF] (lines 347-354). *)
Definition reportFailure (message : list N) : M ExportResult.t :=
  mret (ExportResult.mk false [] (lit "PDF export failed: " ++ message)).

Definition exportToPDF (inputFile outputFile : list N) (options : ExportOptions.t)
    : M ExportResult.t :=
  tryCatch
    (mdPath ← locate inputFile;
     startDir ← Fs.processCwd;
     let canonicalRoot := canonicalRootOf startDir in
     prepare canonicalRoot;;
     stage canonicalRoot mdPath;;
     projectDir ← Fs.processCwd;
     let outputPath := resolve projectDir [canonicalRoot; outputFile] in
     let desiredOutputFilename := basename outputPath in
     let outputDir := dirname outputPath in
     present ← Fs.existsSync outputDir;
     (if present : bool then mret tt else Fs.mkdirSync outputDir);;
     ensurePlaywright canonicalRoot;;
     ensureTheme canonicalRoot mdPath;;
     runExport canonicalRoot
       (exportCommands canonicalRoot (stagedMdRelPath mdPath) desiredOutputFilename options);;
     currentDir ← Fs.processCwd;
     verify (possibleOutputPaths canonicalRoot currentDir outputPath outputFile mdPath)
            outputPath)
    reportFailure.

End WithHost.
End Wrapper.

(** ** The tool server ([index.js]) *)

Module BuildPayload.
Record t : Type := mk {
  message : list N;
  slideCount : nat;
  filePath : list N;
  success : bool
}.
End BuildPayload.

Module ExportInput.
Record t : Type := mk {
  inputPath : option (list N);
  name : option (list N);
  outputPath : option (list N);
  withClicks : option bool;
  range : option (list N);
  dark : option bool
}.
End ExportInput.

Module ExportPayload.
Record t : Type := mk {
  message : list N;
  pdfPath : list N;
  slideCount : nat;
  success : bool
}.
End ExportPayload.

Module Server.
Section WithHost.
Context `{Host}.

Definition getUserDataDir : list N :=
  match platform with
  | win32 =>
      match Fs.envValue (lit "LOCALAPPDATA") with
      | Some v => v
      | None =>
          match Fs.envValue (lit "APPDATA") with
          | Some v => v
          | None => join [homedir; lit "AppData"; lit "Local"]
          end
      end
  | darwin => join [homedir; lit "Library"; lit "Application Support"]
  | otherPlatform => join [homedir; lit ".local"; lit "share"]
  end.

Definition getDefaultSlidevDir : list N :=
  join [getUserDataDir; lit "precursor"; lit "slides"].

(** [process.env.SLIDEV_DIR && process.env.SLIDEV_DIR.length > 0
     ? process.env.SLIDEV_DIR : getDefaultSlidevDir()] *)
Definition presentationsDir : list N :=
  match Fs.envValue (lit "SLIDEV_DIR") with
  | Some dir => dir
  | None => getDefaultSlidevDir
  end.

Definition noSlidesMessage : list N :=
  lit "No slides provided. 'slides' array must contain at least one slide.".

(** The handler of [build_complete_presentation] (lines 263-340); the value
    is the [structuredContent] of the response. *)
Definition build_complete_presentation (input : BuildInput.t) : M BuildPayload.t :=
  modifyWorld (setPresentationName (BuildInput.name input));;
  if bool_decide (length (BuildInput.slides input) = 0%nat)
  then mret (BuildPayload.mk noSlidesMessage 0 [] false)
  else
    let markdown := Builder.buildMarkdown input in
    present ← Fs.existsSync presentationsDir;
    (if present : bool then mret tt else Fs.mkdirSync presentationsDir);;
    w ← getWorld;
    let filePath := join [presentationsDir; presentationName w ++ lit ".md"] in
    Fs.writeFileSync filePath markdown;;
    mret (BuildPayload.mk
            (lit "Complete presentation '" ++ BuildInput.title input ++ lit "' with "
               ++ decimal (length (BuildInput.slides input))
               ++ lit " slides created and saved successfully!")
            (length (BuildInput.slides input)) filePath true).

Definition noNameMessage : list N :=
  lit "No inputPath provided and no presentation name available. Provide 'inputPath' or 'name' (after building a presentation).".

(** Lines 397-421: the markdown file an export request designates. *)
Definition resolveInput (input : ExportInput.t) : M (list N) :=
  if truthyOpt (ExportInput.inputPath input)
     && (0 <? length (trim (default [] (ExportInput.inputPath input))))%nat
  then
    let mdPath := default [] (ExportInput.inputPath input) in
    present ← Fs.existsSync mdPath;
    if present : bool then mret mdPath
    else throw (lit "Input markdown not found: " ++ mdPath)
  else
    w ← getWorld;
    let name :=
      if truthyOpt (ExportInput.name input) then default [] (ExportInput.name input)
      else presentationName w in
    if negb (truthy name) then throw noNameMessage
    else
      let candidate := join [presentationsDir; name ++ lit ".md"] in
      present ← Fs.existsSync candidate;
      if present : bool then mret candidate
      else throw (lit "Presentation file not found: " ++ candidate).

(** Lines 423-438: the output path, and its directory when one was given. *)
Definition resolveOutput (input : ExportInput.t) (mdPath : list N) : M (list N) :=
  if negb (truthyOpt (ExportInput.outputPath input))
     || bool_decide (length (trim (default [] (ExportInput.outputPath input))) = 0%nat)
  then
    let inputDir := dirname mdPath in
    let baseName := stripMdExt (basename mdPath) in
    mret (join [inputDir; baseName ++ lit ".pdf"])
  else
    let outputPath := default [] (ExportInput.outputPath input) in
    let outDir := dirname outputPath in
    present ← Fs.existsSync outDir;
    (if present : bool then mret tt else Fs.mkdirSync outDir);;
    mret outputPath.

Definition exportOptions (input : ExportInput.t) : ExportOptions.t :=
  ExportOptions.mk
    (bool_decide (ExportInput.withClicks input = Some true))
    (match ExportInput.range input with
     | Some r => if (0 <? length (trim r))%nat then Some r else None
     | None => None
     end)
    (bool_decide (ExportInput.dark input = Some true)).

Definition playwrightAdvice : list N :=
  lit "PDF export failed: Playwright dependency issue. Run: npm install -D playwright-chromium".

Definition cliAdvice : list N :=
  lit "PDF export failed: Slidev CLI not found. Run: npm install -g @slidev/cli (or add it to your project devDependencies).".

(** The [catch] block of the export handler (lines 476-517); [String(error)]
    of an error without message is [Error]. *)
Definition classify (errorMessage : list N) : ExportPayload.t :=
  let message := if truthy errorMessage then errorMessage else lit "Error" in
  if includes (lit "playwright") (toLowerCase message)
  then ExportPayload.mk playwrightAdvice [] 0 false
  else if includes (lit "ENOENT") message || includes (lit "command not found") message
  then ExportPayload.mk cliAdvice [] 0 false
  else ExportPayload.mk (lit "PDF export failed: " ++ message) [] 0 false.

(** The handler of [export_to_pdf] (lines 395-518). *)
Definition export_to_pdf (input : ExportInput.t) : M ExportPayload.t :=
  tryCatch
    (mdPath ← resolveInput input;
     outputPath ← resolveOutput input mdPath;
     result ← Wrapper.exportToPDF mdPath outputPath (exportOptions input);
     (if ExportResult.success result then mret tt
      else throw (ExportResult.message result));;
     let pdfPath :=
       if truthy (ExportResult.pdfPath result) then ExportResult.pdfPath result
       else outputPath in
     markdown ← Fs.readFileSync mdPath;
     let slideMatches := countMatches Builder.slideSeparator markdown in
     let slideCount := if bool_decide (slideMatches = 0%nat) then 1%nat else slideMatches in
     mret (ExportPayload.mk (lit "PDF exported successfully! File saved at: " ++ pdfPath)
             pdfPath slideCount true))
    (fun errorMessage => mret (classify errorMessage)).

End WithHost.
End Server.

(** ** The properties, in the specification's words *)

Module Spec.

Definition defaultLayout (index : nat) : list N :=
  match index with O => lit "cover" | S _ => lit "default" end.

(** As stated: the slide's explicit layout, or the default if omitted. *)
Definition statedLayout (index : nat) (slide : Slide.t) : list N :=
  default (defaultLayout index) (Slide.layout slide).

Definition blank (s : list N) : bool := forallb isWhiteSpace s.

(** As amended: an explicit layout counts when it holds a code unit that is
    not white space. *)
Definition effectiveLayout (index : nat) (slide : Slide.t) : list N :=
  match Slide.layout slide with
  | Some l => if blank l then defaultLayout index else l
  | None => defaultLayout index
  end.

(** A block declares [layout]: it opens with the delimiter line and the line
    [layout: <layout>]; after the first block, with a blank line before and
    the closing delimiter right after. *)
Definition declaresLayout (index : nat) (layout block : list N) : bool :=
  match index with
  | O => startsWith (lit "---" ++ nl ++ lit "layout: " ++ layout ++ nl) block
  | S _ =>
      startsWith (nl ++ lit "---" ++ nl ++ lit "layout: " ++ layout ++ nl
                     ++ lit "---" ++ nl) block
  end.

Definition headingLine (title : list N) : list N := nl ++ lit "# " ++ title ++ nl.

Definition rawContent (content : list N) : list N := nl ++ content ++ nl.

Definition codeFence (codeLanguage code : list N) : list N :=
  nl ++ lit "```" ++ codeLanguage ++ nl ++ code ++ nl ++ lit "```" ++ nl.

(** The part of a block after its header, with [given] deciding when an
    optional field counts as present. *)
Definition bodyWhen (given : option (list N) -> bool) (slide : Slide.t) : list N :=
  (if given (Slide.title slide) then headingLine (default [] (Slide.title slide)) else [])
  ++ (if given (Slide.content slide) then rawContent (default [] (Slide.content slide))
      else [])
  ++ (if given (Slide.code slide) && given (Slide.codeLanguage slide)
      then codeFence (default [] (Slide.codeLanguage slide)) (default [] (Slide.code slide))
      else []).

(** As stated: a field is present when the slide object has it. *)
Definition present (o : option (list N)) : bool := bool_decide (is_Some o).

(** As amended: a field is present when it is there and not empty. *)
Definition presentNonEmpty (o : option (list N)) : bool :=
  match o with Some (_ :: _) => true | _ => false end.

Definition documentWhen (given : option (list N) -> bool) (input : BuildInput.t) : list N :=
  concat (imap (fun index slide => Builder.blockHeader input index slide
                                     ++ bodyWhen given slide)
               (BuildInput.slides input)).

(** No frontmatter delimiter inside a caller-supplied string. *)
Definition delimiterFree (s : list N) : bool := negb (includes (lit "---") s).

Definition delimiterFreeOpt (o : option (list N)) : bool :=
  match o with Some s => delimiterFree s | None => true end.

Definition slideDelimiterFree (slide : Slide.t) : bool :=
  delimiterFreeOpt (Slide.layout slide) && delimiterFreeOpt (Slide.title slide)
  && delimiterFreeOpt (Slide.content slide) && delimiterFreeOpt (Slide.code slide)
  && delimiterFreeOpt (Slide.codeLanguage slide).

Definition deckDelimiterFree (input : BuildInput.t) : bool :=
  delimiterFree (BuildInput.title input) && delimiterFreeOpt (BuildInput.theme input)
  && delimiterFreeOpt (BuildInput.author input)
  && forallb slideDelimiterFree (BuildInput.slides input).

(** [p] is the first of [candidates] that exists in [w]. *)
Definition firstExistingIs (w : World) (candidates : list (list N)) (p : list N) : Prop :=
  exists before after,
    candidates = before ++ p :: after
    /\ is_Some (Fs.entry w p)
    /\ forall q, q ∈ before -> Fs.entry w q = None.

(** None of [candidates] exists in [w]. *)
Definition noneExists (w : World) (candidates : list (list N)) : Prop :=
  forall q, q ∈ candidates -> Fs.entry w q = None.

(** The result of a successful export whose artifact is at [p]. *)
Definition exported (p : list N) : ExportResult.t :=
  ExportResult.mk true p (lit "PDF exported successfully: " ++ p).

(** [s] holds [p] somewhere; [s] opens with [p]. *)
Definition contains (p s : list N) : Prop := exists before after, s = before ++ p ++ after.

Definition beginsWith (p s : list N) : Prop := exists rest, s = p ++ rest.

(** An [inputPath] the export handler passes over: absent, empty or blank. *)
Definition unusablePath (inputPath : option (list N)) : Prop :=
  match inputPath with Some p => blank p = true | None => True end.

(** The text is empty or opens with a dash-free code unit; it is empty or
    opens with a newline. *)
Definition dashFreeHead (t : list N) : Prop :=
  match t with [] => True | c :: _ => c <> 45 end.

Definition newlineHead (t : list N) : Prop :=
  t = [] \/ exists r, t = nl ++ r.

(** The export handler resolved its input against [name]: it settled on
    [<presentations directory>/<name>.md], or reported that file missing. *)
Definition resolvesAgainst `{Host} (name : list N) (outcome : Outcome (list N)) : Prop :=
  let candidate := join [Server.presentationsDir; name ++ lit ".md"] in
  outcome = Returned candidate
  \/ outcome = Thrown (lit "Presentation file not found: " ++ candidate).

(** A failure message that tells the caller the input was not found. *)
Definition saysNotFound (message : list N) : bool := includes (lit "not found") message.

End Spec.

(** ** A POSIX host for the worked examples *)

Module Posix.

Definition slash : N := 47.

Definition notSlash (c : N) : bool := negb (c =? slash).

Fixpoint dropSlashes (s : list N) : list N :=
  match s with
  | c :: rest => if c =? slash then dropSlashes rest else s
  | [] => []
  end.

Fixpoint dropSegment (s : list N) : list N :=
  match s with
  | c :: rest => if c =? slash then s else dropSegment rest
  | [] => []
  end.

Fixpoint takeSegment (s : list N) : list N :=
  match s with
  | c :: rest => if c =? slash then [] else c :: takeSegment rest
  | [] => []
  end.

(** [path.basename]: the last segment, trailing separators ignored. *)
Definition basename (p : list N) : list N :=
  rev (takeSegment (dropSlashes (rev p))).

(** [path.dirname] *)
Definition dirname (p : list N) : list N :=
  let parent := dropSlashes (dropSegment (dropSlashes (rev p))) in
  match parent with
  | [] => if startsWith [slash] p then [slash] else lit "."
  | _ => rev parent
  end.

(** [path.join] on segments that need no normalisation (no [.] or [..]
    segment, no doubled or trailing separator). *)
Definition join (parts : list (list N)) : list N :=
  match filter (fun s => truthy s = true) parts with
  | [] => lit "."
  | kept => joinWith [slash] kept
  end.

(** [path.resolve], right to left until an absolute segment, on segments
    that need no normalisation. *)
Fixpoint resolveRev (partsRev : list (list N)) (acc : list N) : list N :=
  match partsRev with
  | [] => acc
  | p :: rest =>
      if truthy p then
        let acc' := if truthy acc then p ++ [slash] ++ acc else p in
        if startsWith [slash] p then acc' else resolveRev rest acc'
      else resolveRev rest acc
  end.

Definition resolve (currentDir : list N) (parts : list (list N)) : list N :=
  resolveRev (rev (currentDir :: parts)) [].

(** A shell in which every command succeeds and changes nothing. *)
Definition quietShell (command dir : list N) (earlier : list (list N))
    (files : gmap (list N) Node) : ShellResult :=
  mkShellResult files None.

(** A shell in which the renderer ignores the requested output name and
    writes [slides-export.pdf] into its working directory; every other
    command succeeds and changes nothing. *)
Definition renderingShell (command dir : list N) (earlier : list (list N))
    (files : gmap (list N) Node) : ShellResult :=
  if includes (lit "slidev export") command
  then mkShellResult (<[join [dir; lit "slides-export.pdf"] := File (lit "%PDF")]> files) None
  else mkShellResult files None.

(** A Linux host with no environment variable set, user [u] and the wrapper
    installed in [/srv/slides]. *)
Definition host (writable : list N -> bool)
    (shell : list N -> list N -> list (list N) -> gmap (list N) Node -> ShellResult)
    : Host :=
  mkHost otherPlatform (lit "/home/u") (fun _ => None) (lit "/srv/slides")
         resolve join dirname basename writable shell.

End Posix.

(** ** Worked inputs *)

Module Examples.

Definition slideOf (layout title content code codeLanguage : option (list N)) : Slide.t :=
  Slide.mk layout title content code codeLanguage.

(** The end-to-end scenario of the specification: deck [t1]. *)
Definition specDeck : BuildInput.t :=
  BuildInput.mk (lit "t1") (lit "Demo")
    [ slideOf (Some (lit "cover")) (Some (lit "Hello")) None None None;
      slideOf None (Some (lit "World")) (Some (lit "- a" ++ nl ++ lit "- b")) None None ]
    None None.

(** The same deck with a theme, and with the theme spelled [None]. *)
Definition themedDeck (theme : list N) : BuildInput.t :=
  BuildInput.mk (lit "t1") (lit "Demo") (BuildInput.slides specDeck) (Some theme) None.

(** A first slide whose layout is one space. *)
Definition blankLayoutSlide : Slide.t :=
  slideOf (Some (lit " ")) (Some (lit "Hello")) None None None.

Definition blankLayoutDeck : BuildInput.t :=
  BuildInput.mk (lit "blank") (lit "Demo") [blankLayoutSlide] None None.

(** One slide whose body quotes a frontmatter block. *)
Definition quotedFrontmatterDeck : BuildInput.t :=
  BuildInput.mk (lit "quoted") (lit "Demo")
    [ slideOf None (Some (lit "Frontmatter"))
        (Some (lit "---" ++ nl ++ lit "layout: cover" ++ nl ++ lit "---")) None None ]
    None None.

(** One slide with code and an empty language tag. *)
Definition emptyLanguageDeck : BuildInput.t :=
  BuildInput.mk (lit "code") (lit "Demo")
    [ slideOf None None None (Some (lit "x = 1")) (Some []) ]
    None None.

(** A deck without slides and without a name. *)
Definition namelessEmptyDeck : BuildInput.t := BuildInput.mk [] (lit "Demo") [] None None.

(** A host on which every path may be written and every command succeeds. *)
Definition openHost : Host := Posix.host (fun _ => true) Posix.quietShell.

(** A host on which no path may be created or written. *)
Definition readOnlyHost : Host := Posix.host (fun _ => false) Posix.quietShell.

(** A host whose renderer writes its default output name. *)
Definition renderingHost : Host := Posix.host (fun _ => true) Posix.renderingShell.

(** The deck of the specification saved as [/tmp/deck.md]. *)
Definition savedWorld : World :=
  mkWorld {[ lit "/tmp" := Dir;
             lit "/tmp/deck.md" := File (Builder.buildMarkdown specDeck) ]}
          (lit "/work") [] [].

(** A fresh process in [/work] on an empty file system. *)
Definition emptyWorld : World := mkWorld ∅ (lit "/work") [] [].

(** An export request that gives only an input path. *)
Definition exportOf (inputPath : list N) : ExportInput.t :=
  ExportInput.mk (Some inputPath) None None None None None.

(** An export request that gives neither an input path nor a name. *)
Definition exportLastBuilt : ExportInput.t :=
  ExportInput.mk None None None None None None.

(** Two decks of the same base name in different directories. *)
Definition talkA : list N := lit "/decks/4497/talk.md".
Definition talkB : list N := lit "/decks/111060/talk.md".

(** The renderer wrote its default name next to the project root; the
    requested output is [/out/deck.pdf]. *)
Definition renderedWorld : World :=
  mkWorld {[ lit "/proj" := Dir; lit "/out" := Dir;
             lit "/proj/slides-export.pdf" := File (lit "%PDF") ]}
          (lit "/proj") [] [].

Definition renderedCandidates : list (list N) :=
  [ lit "/out/deck.pdf"; lit "/proj/deck.pdf"; lit "/proj/slides-export.pdf";
    lit "/proj/slides/slides-export.pdf" ].

End Examples.

(** ** The knowledge base ([slidev-knowledge.js]) *)

Module ExampleSlide.
Record t : Type := mk {
  layout : list N;
  content : list N
}.
End ExampleSlide.

Module Guidance.
Record t : Type := mk {
  recommendedThemes : list (list N);
  structure : option (list ExampleSlide.t);
  tips : list (list N)
}.
End Guidance.

Module Knowledge.

(** [slidevKnowledge.themes] *)
Definition themes : list (list N) :=
  [ lit "default"; lit "apple-basic"; lit "bricks"; lit "brutalist"; lit "academic";
    lit "border"; lit "carbon"; lit "chalkboard"; lit "cover"; lit "dracula"; lit "eloc";
    lit "geist"; lit "glass"; lit "landing"; lit "light-icons"; lit "materia";
    lit "minimal"; lit "none"; lit "orange"; lit "penguin"; lit "purplin"; lit "seriph";
    lit "shibainu"; lit "simple"; lit "sky"; lit "space"; lit "teeth";
    lit "theme-academic"; lit "unicorn"; lit "vitesse"; lit "waves" ].

(** [slidevKnowledge.layouts] *)
Definition layouts : list (list N) :=
  [ lit "center"; lit "cover"; lit "default"; lit "end"; lit "fact"; lit "full";
    lit "image"; lit "image-left"; lit "image-right"; lit "intro"; lit "none";
    lit "quote"; lit "section"; lit "statement"; lit "two-cols"; lit "two-cols-header";
    lit "iframe"; lit "iframe-left"; lit "iframe-right" ].

(** [slidevKnowledge.exampleStructures.technical.slides] *)
Definition technicalSlides : list ExampleSlide.t :=
  [ ExampleSlide.mk (lit "cover") (lit "Title, subtitle, author");
    ExampleSlide.mk (lit "default") (lit "Agenda/Overview");
    ExampleSlide.mk (lit "section") (lit "Main topic sections");
    ExampleSlide.mk (lit "two-cols") (lit "Code examples with explanations");
    ExampleSlide.mk (lit "image") (lit "Diagrams and visuals");
    ExampleSlide.mk (lit "end") (lit "Thank you and Q&A") ].

(** [slidevKnowledge.exampleStructures.business.slides] *)
Definition businessSlides : list ExampleSlide.t :=
  [ ExampleSlide.mk (lit "cover") (lit "Professional title slide");
    ExampleSlide.mk (lit "fact") (lit "Key statistics or problems");
    ExampleSlide.mk (lit "statement") (lit "Solution or value proposition");
    ExampleSlide.mk (lit "image-right") (lit "Features with visuals");
    ExampleSlide.mk (lit "quote") (lit "Testimonials or quotes");
    ExampleSlide.mk (lit "end") (lit "Call to action") ].

(** What a property read on the object literal [exampleStructures] gives:
    one of its own two entries, a member inherited from [Object.prototype],
    or [undefined]. *)
Inductive Member : Type :=
  | OwnStructure (slides : list ExampleSlide.t)
  | Inherited
  | Undefined.

(** The property names of [Object.prototype]; each holds a function or an
    object, so each is truthy and has no [slides]. *)
Definition objectPrototypeKeys : list (list N) :=
  [ lit "constructor"; lit "hasOwnProperty"; lit "isPrototypeOf";
    lit "propertyIsEnumerable"; lit "toLocaleString"; lit "toString"; lit "valueOf";
    lit "__proto__"; lit "__defineGetter__"; lit "__defineSetter__";
    lit "__lookupGetter__"; lit "__lookupSetter__" ].

(** [slidevKnowledge.exampleStructures[key]] *)
Definition exampleStructures (key : list N) : Member :=
  if strictEq key (lit "technical") then OwnStructure technicalSlides
  else if strictEq key (lit "business") then OwnStructure businessSlides
  else if bool_decide (key ∈ objectPrototypeKeys) then Inherited
  else Undefined.

Definition tips : list (list N) :=
  [ lit "Use frontmatter to configure theme and settings";
    lit "Separate slides with '---'";
    lit "Choose layouts that match your content type";
    lit "Include syntax highlighting for code";
    lit "Keep slides visually consistent";
    lit "When using two column structure use the format `Left: [left side content]\nRight: [right side content]` so the parser formats the document correctly" ].

(** [generateSlidevGuidance(presentationType = "technical")]; [structure] is
    [None] when [structure.slides] is [undefined]. *)
Definition generateSlidevGuidance (presentationType : option (list N)) : Guidance.t :=
  let presentationType := default (lit "technical") presentationType in
  let structure :=
    match exampleStructures presentationType with
    | OwnStructure slides => Some slides
    | Inherited => None
    | Undefined => Some technicalSlides
    end in
  Guidance.mk
    (if strictEq presentationType (lit "business")
     then [lit "apple-basic"; lit "minimal"; lit "seriph"; lit "academic"]
     else [lit "default"; lit "vitesse"; lit "carbon"; lit "dracula"])
    structure tips.

End Knowledge.

(** ** The guidance tool ([index.js], [get_slidev_guidance]) *)

Module GuidanceTool.
Section WithLowerCase.

(** [String.prototype.toLowerCase] of the engine.  The keywords tested here
    hold the letter [k], which is also the lower case of U+212A, so the
    lowering of ASCII capitals alone would not do. *)
Variable lowerCase : list N -> list N.

(** Lines 85-116. *)
Definition normalizePresentationType (raw : option (list N)) : list N :=
  let s := trim (lowerCase (default [] raw ++ [])) in
  if negb (truthy s) then lit "technical"
  else if includes (lit "academic") s
          || includes (lit "research") s
          || includes (lit "irb") s
          || includes (lit "study") s
          || includes (lit "thesis") s
          || includes (lit "paper") s
          || includes (lit "ethics") s
  then lit "academic"
  else if includes (lit "business") s
          || includes (lit "exec") s
          || includes (lit "stakeholder") s
          || includes (lit "review") s
          || includes (lit "planning") s
          || includes (lit "roadmap") s
          || includes (lit "sales") s
  then lit "business"
  else if includes (lit "technical") s || includes (lit "engineering") s
          || includes (lit "developer") s
  then lit "technical"
  else lit "technical".

(** Lines 118-119 and the two computed fields of the payload:
    [presentationTypeNormalized] and [guidance]. *)
Definition get_slidev_guidance (presentationType : option (list N)) : list N * Guidance.t :=
  let normalizedType := normalizePresentationType presentationType in
  let guidance := Knowledge.generateSlidevGuidance (Some normalizedType) in
  (normalizedType, guidance).

End WithLowerCase.
End GuidanceTool.

(** ** The command line of the export wrapper ([export-wrapper.js], lines 357-381) *)

Module Cli.

(** [String.prototype.split] with a separator of one code unit. *)
Fixpoint split (separator : N) (s : list N) : list (list N) :=
  match s with
  | [] => [[]]
  | c :: rest =>
      if c =? separator then [] :: split separator rest
      else match split separator rest with
           | first :: more => (c :: first) :: more
           | [] => [[c]]
           end
  end.

(** [optionArgs.find(arg => arg.startsWith('--range'))?.split('=')[1]] *)
Definition rangeOption (optionArgs : list (list N)) : option (list N) :=
  match find (fun arg => startsWith (lit "--range") arg) optionArgs with
  | Some arg => split 61 arg !! 1%nat
  | None => None
  end.

Definition parseOptions (optionArgs : list (list N)) : ExportOptions.t :=
  ExportOptions.mk (bool_decide (lit "--with-clicks" ∈ optionArgs))
                   (rangeOption optionArgs)
                   (bool_decide (lit "--dark" ∈ optionArgs)).

Section WithHost.
Context `{Host}.

(** The script run as a program, [argv] being [process.argv]; the value is
    the exit status. *)
Definition main (argv : list (list N)) : M N :=
  let inputFile := argv !! 2%nat in
  let outputFile := argv !! 3%nat in
  let optionArgs := drop 4 argv in
  if negb (truthyOpt inputFile) || negb (truthyOpt outputFile) then mret 1
  else
    let options := parseOptions optionArgs in
    tryCatch
      (result ← Wrapper.exportToPDF (default [] inputFile) (default [] outputFile) options;
       mret (if ExportResult.success result then 0 else 1))
      (fun _ => mret 1).

End WithHost.
End Cli.

(** ** Observations on computations *)

Module Behaviour.

(** The computation returns from every world: it never throws. *)
Definition neverThrows {A : Type} (m : M A) : Prop :=
  forall w, exists a w', m w = (Returned a, w').

(** Whatever its outcome, the computation leaves [observe] as it was. *)
Definition preserves {A B : Type} (observe : World -> B) (m : M A) : Prop :=
  forall w, observe (m w).2 = observe w.

(** The last command spawned before [w'] was [command], run in [dir], and
    it exited cleanly. *)
Definition cleanRun `{Host} (command dir : list N) (w' : World) : Prop :=
  exists earlier files,
    execLog w' = command :: earlier
    /\ shellError (shell command dir earlier files) = None.

(** [q] is [p] or one of its ancestors. *)
Definition ancestorOrSelf `{Host} (q p : list N) : Prop :=
  exists k : nat, Nat.iter k dirname p = q.

(** The world after [command] was spawned in [dir]. *)
Definition spawned `{Host} (command dir : list N) (w : World) : World :=
  setFs (shellFs (shell command dir (execLog w) (fs w))) (logExec command w).

(** Whether [command], spawned in [dir] from [w], exits cleanly. *)
Definition exitsCleanly `{Host} (command dir : list N) (w : World) : bool :=
  bool_decide (shellError (shell command dir (execLog w) (fs w)) = None).

(** The commands spawned one after another, up to the first that exits
    cleanly. *)
Fixpoint untilClean `{Host} (dir : list N) (commands : list (list N)) (w : World)
    : World :=
  match commands with
  | [] => w
  | command :: rest =>
      if exitsCleanly command dir w then spawned command dir w
      else untilClean dir rest (spawned command dir w)
  end.

(** The Playwright repair: the package install, then the browser download
    unless the install failed. *)
Definition repaired `{Host} (dir : list N) (w : World) : World :=
  let install := Wrapper.installCommand (lit "playwright-chromium") in
  if exitsCleanly install dir w
  then spawned (lit "npx playwright install chromium --with-deps") dir
         (spawned install dir w)
  else spawned install dir w.

(** The export attempts as a plain loop: the first command; when it fails
    with a message that mentions [playwright], the repair; then the other
    commands up to the first that exits cleanly. *)
Definition exportAttempts `{Host} (dir : list N) (commands : list (list N)) (w : World)
    : World :=
  match commands with
  | [] => w
  | first :: rest =>
      match shellError (shell first dir (execLog w) (fs w)) with
      | None => spawned first dir w
      | Some message =>
          untilClean dir rest
            (if includes (lit "playwright") message
             then repaired dir (spawned first dir w)
             else spawned first dir w)
      end
  end.

(** A lower-case hexadecimal digit. *)
Definition isHexDigit (c : N) : bool :=
  ((48 <=? c) && (c <=? 57)) || ((97 <=? c) && (c <=? 102)).

(** The text the export flags are put behind. *)
Definition exportQuote : list N := lit " export " ++ dq.

(** The export command of one runner, with the flags in place. *)
Definition exportCommandOf (canonicalRoot stagedRel desiredOutputFilename flags runner
    : list N) : list N :=
  lit "cd " ++ dq ++ canonicalRoot ++ dq ++ lit " && " ++ runner ++ lit " export "
    ++ (if truthy flags then flags ++ lit " " else [])
    ++ dq ++ stagedRel ++ dq ++ lit " --output " ++ dq ++ desiredOutputFilename ++ dq.

(** What every capture of the theme pattern satisfies: it is not empty and
    holds neither a double quote nor a newline. *)
Definition cleanCapture (captured : list N) : Prop :=
  captured <> [] /\ Forall (fun c => Wrapper.isQuoteOrNewline c = false) captured.

End Behaviour.

(** ** Further worked inputs *)

Module Cases.

Definition plainOptions : ExportOptions.t := ExportOptions.mk false None false.

Definition clickRange : ExportOptions.t := ExportOptions.mk true (Some (lit "1-3")) false.

(** The export commands for the deck of the specification staged in [/proj]. *)
Definition renderedCommands (options : ExportOptions.t) : list (list N) :=
  Wrapper.exportCommands (lit "/proj") (lit "slides/deck-ba22524d.md") (lit "deck.pdf")
    options.

End Cases.

(** ** Proof automation *)

(** Steps the separator count over a fixed piece of text: the goal's
    document is replaced by [rest], the two counts being convertible. *)
Ltac fixed_prefix rest :=
  match goal with
  | |- countFrom Builder.slideSeparator 0 ?doc = _ =>
      change (countFrom Builder.slideSeparator 0 doc)
        with (countFrom Builder.slideSeparator 0 rest)
  end.

(** * Properties *)

(** ** The runtime models on known values *)

Example sha1_abc :
  Sha1.sha1Hex (lit "abc") = lit "a9993e364706816aba3e25717850c26c9cd0d89d".
Proof. vm_compute. reflexivity. Qed.

Example sha1_empty :
  Sha1.sha1Hex [] = lit "da39a3ee5e6b4b0d3255bfef95601890afd80709".
Proof. vm_compute. reflexivity. Qed.

Example sha1_two_blocks :
  Sha1.sha1Hex (lit "abcdbcdecdefdefgefghfghighijhijkijkljklmklmnlmnomnopnopq")
  = lit "84983e441c3bd26ebaae4aa1f95129e5e54670f1".
Proof. vm_compute. reflexivity. Qed.

Example utf8_euro_sign : utf8 [8364] = [226; 130; 172].
Proof. reflexivity. Qed.

Example utf8_surrogate_pair : utf8 [55357; 56832] = [240; 159; 152; 128].
Proof. reflexivity. Qed.

Example trim_both_ends : trim (9 :: lit " a b " ++ nl) = lit "a b".
Proof. vm_compute. reflexivity. Qed.

Example stripMdExt_any_case : stripMdExt (lit "Deck.MD") = lit "Deck".
Proof. vm_compute. reflexivity. Qed.

Example posix_paths :
  Posix.basename (lit "/decks/a/talk.md") = lit "talk.md"
  /\ Posix.dirname (lit "/decks/a/talk.md") = lit "/decks/a"
  /\ Posix.join [lit "/home/u"; lit ".local"; lit "share"] = lit "/home/u/.local/share"
  /\ Posix.resolve (lit "/work") [lit "/proj"; lit "out/deck.pdf"] = lit "/proj/out/deck.pdf"
  /\ Posix.resolve (lit "/work") [lit "deck.md"] = lit "/work/deck.md".
Proof. repeat split; vm_compute; reflexivity. Qed.

(** The end-to-end scenario of the specification. *)
Example specDeck_document :
  Builder.buildMarkdown Examples.specDeck
  = lit "---" ++ nl ++ lit "layout: cover" ++ nl
      ++ lit "title: " ++ dq ++ lit "Demo" ++ dq ++ nl ++ lit "---" ++ nl
      ++ nl ++ lit "# Hello" ++ nl
      ++ nl ++ lit "---" ++ nl ++ lit "layout: default" ++ nl ++ lit "---" ++ nl
      ++ nl ++ lit "# World" ++ nl
      ++ nl ++ lit "- a" ++ nl ++ lit "- b" ++ nl.
Proof. vm_compute. reflexivity. Qed.

(** ** JavaScript string operations *)

Section JsFacts.

Lemma startsWith_app (p r : list N) : startsWith p (p ++ r) = true.
Proof. induction p as [|a p IH]; [done|]. cbn. by rewrite N.eqb_refl. Qed.

Lemma startsWith_true (p s : list N) :
  startsWith p s = true <-> Spec.beginsWith p s.
Proof.
  unfold Spec.beginsWith. split.
  - revert s. induction p as [|a p IH]; intros s Hs; [by exists s|].
    destruct s as [|b s]; [done|]. cbn in Hs.
    apply andb_prop in Hs as [Hab Hs]. apply N.eqb_eq in Hab as ->.
    destruct (IH _ Hs) as [r ->]. by exists r.
  - intros [r ->]. apply startsWith_app.
Qed.

Lemma startsWith_prefix (p q s : list N) :
  startsWith (p ++ q) s = true -> startsWith p s = true.
Proof.
  rewrite !startsWith_true. intros [r ->]. exists (q ++ r). by rewrite app_assoc.
Qed.

Lemma includes_true (p s : list N) :
  includes p s = true <-> Spec.contains p s.
Proof.
  unfold Spec.contains. split.
  - induction s as [|c s IH]; cbn [includes]; intros Hinc.
    + rewrite orb_false_r in Hinc. apply startsWith_true in Hinc as [r Hr].
      by exists [], r.
    + apply orb_prop in Hinc as [Hhere | Hlater].
      * apply startsWith_true in Hhere as [r Hr]. by exists [], r.
      * destruct (IH Hlater) as (before & after & ->). by exists (c :: before), after.
  - intros (before & after & ->). induction before as [|c before IH].
    + cbn [app]. destruct (p ++ after) eqn:Heq; cbn [includes];
        by rewrite <- Heq, startsWith_app.
    + cbn [app includes]. rewrite IH. apply orb_true_r.
Qed.

Lemma trimStart_nil (s : list N) :
  trimStart s = [] <-> forallb isWhiteSpace s = true.
Proof.
  induction s as [|c s IH]; [done|]. cbn [trimStart forallb].
  destruct (isWhiteSpace c); cbn [andb]; [done|]. split; discriminate.
Qed.

Lemma forallb_trimStart (s : list N) :
  forallb isWhiteSpace (trimStart s) = forallb isWhiteSpace s.
Proof.
  induction s as [|c s IH]; [done|]. cbn [trimStart forallb].
  destruct (isWhiteSpace c) eqn:Hc; cbn [forallb andb]; [done|]. by rewrite Hc.
Qed.

Lemma forallb_rev (f : N -> bool) (s : list N) : forallb f (rev s) = forallb f s.
Proof.
  induction s as [|c s IH]; [done|]. cbn.
  rewrite forallb_app, IH. cbn. rewrite andb_true_r. apply andb_comm.
Qed.

Lemma trim_nil (s : list N) : trim s = [] <-> Spec.blank s = true.
Proof.
  unfold trim, trimEnd, Spec.blank.
  rewrite <- (forallb_trimStart s), <- (forallb_rev _ (trimStart s)), <- trimStart_nil.
  split; [|by intros ->].
  intros Hr. apply (f_equal (@rev N)) in Hr. by rewrite rev_involutive in Hr.
Qed.

(** [s.trim().length > 0] holds exactly when [s] is not blank. *)
Lemma trim_length_blank (s : list N) :
  (0 <? length (trim s))%nat = negb (Spec.blank s).
Proof.
  destruct (Spec.blank s) eqn:Hb.
  - apply trim_nil in Hb. by rewrite Hb.
  - destruct (trim s) eqn:Ht; [|done].
    apply trim_nil in Ht. congruence.
Qed.

End JsFacts.

(** ** The deck builder *)

Section BuilderFacts.
Import Builder.

Lemma resolveLayout_effective (index : nat) (slide : Slide.t) :
  resolveLayout (Slide.layout slide) (Spec.defaultLayout index)
  = Spec.effectiveLayout index slide.
Proof.
  unfold resolveLayout, Spec.effectiveLayout.
  destruct (Slide.layout slide) as [l|]; [|done].
  rewrite trim_length_blank. destruct l; [done|]. cbn [truthy andb].
  by destruct (Spec.blank _).
Qed.

(** The callback only ever appends to [markdown]. *)
Lemma emitSlide_append (input : BuildInput.t) (markdown : list N) (slide : Slide.t)
    (index : nat) :
  emitSlide input markdown slide index = markdown ++ slideBlock input index slide.
Proof.
  unfold slideBlock, emitSlide. cbn.
  repeat match goal with |- context [if ?b then _ else _] => destruct b end;
    by rewrite <- ?app_assoc.
Qed.

Lemma slideBlock_parts (input : BuildInput.t) (index : nat) (slide : Slide.t) :
  slideBlock input index slide
  = blockHeader input index slide ++ Spec.bodyWhen Spec.presentNonEmpty slide.
Proof.
  unfold slideBlock, emitSlide, Spec.bodyWhen, Spec.headingLine, Spec.rawContent,
    Spec.codeFence.
  destruct slide as [layout title content code codeLanguage]; cbn.
  destruct title as [[|]|], content as [[|]|], code as [[|]|], codeLanguage as [[|]|];
    cbn; rewrite ?app_nil_r; repeat (rewrite <- app_assoc || rewrite <- app_comm_cons);
    reflexivity.
Qed.

Lemma forEachSlide_blocks (input : BuildInput.t) (slides : list Slide.t) (index : nat)
    (markdown : list N) :
  forEachSlide input slides index markdown
  = markdown ++ concat (imap (fun k slide => slideBlock input (index + k) slide) slides).
Proof.
  revert index markdown. induction slides as [|slide slides IH]; intros index markdown.
  - cbn. by rewrite app_nil_r.
  - cbn. rewrite IH, emitSlide_append, <- app_assoc, Nat.add_0_r.
    do 3 f_equal. apply imap_ext. intros k s _. cbn. f_equal. lia.
Qed.

Lemma buildMarkdown_blocks (input : BuildInput.t) :
  buildMarkdown input = concat (imap (slideBlock input) (BuildInput.slides input)).
Proof. unfold buildMarkdown. by rewrite forEachSlide_blocks. Qed.

Lemma blockHeader_declares (input : BuildInput.t) (index : nat) (slide : Slide.t)
    (rest : list N) :
  Spec.declaresLayout index (Spec.effectiveLayout index slide)
    (blockHeader input index slide ++ rest) = true.
Proof.
  rewrite <- resolveLayout_effective.
  destruct index as [|index]; unfold Spec.declaresLayout, blockHeader, firstSlideHeader;
    cbv zeta; apply startsWith_true;
    repeat match goal with |- context [if ?b then _ else _] => destruct b end;
    eexists; rewrite <- !app_assoc; reflexivity.
Qed.

(** C1 (as amended): the document is the concatenation of one block per
    slide, in order; the first block declares the first slide's layout, or
    [cover] when the layout is omitted, empty or only white space, and every
    later block declares its slide's layout, or [default] in those cases. *)
Theorem C1_block_layouts (input : BuildInput.t) :
  buildMarkdown input = concat (imap (slideBlock input) (BuildInput.slides input))
  /\ forall index slide,
       Spec.declaresLayout index (Spec.effectiveLayout index slide)
         (slideBlock input index slide) = true.
Proof.
  split; [apply buildMarkdown_blocks|].
  intros index slide. rewrite slideBlock_parts. apply blockHeader_declares.
Qed.

(** C1 (as stated) fails on a first slide whose explicit layout is one
    space: the block declares [cover], not the explicit layout. *)
Lemma C1_blank_layout_counterexample :
  Spec.declaresLayout 0 (Spec.statedLayout 0 Examples.blankLayoutSlide)
    (slideBlock Examples.blankLayoutDeck 0 Examples.blankLayoutSlide) = false
  /\ Spec.declaresLayout 0 (lit "cover")
       (slideBlock Examples.blankLayoutDeck 0 Examples.blankLayoutSlide) = true.
Proof. split; vm_compute; reflexivity. Qed.

(** C3 (as amended): every block is its header, then the heading line when
    the title is present and not empty, then the raw content when present
    and not empty, then a code fence tagged with [codeLanguage] exactly when
    [code] and [codeLanguage] are both present and not empty. *)
Theorem C3_block_order_and_code_fence (input : BuildInput.t) :
  buildMarkdown input = Spec.documentWhen Spec.presentNonEmpty input
  /\ forall index slide,
       slideBlock input index slide
       = blockHeader input index slide ++ Spec.bodyWhen Spec.presentNonEmpty slide.
Proof.
  split; [|apply slideBlock_parts].
  rewrite buildMarkdown_blocks. unfold Spec.documentWhen. f_equal.
  apply imap_ext. intros index slide _. apply slideBlock_parts.
Qed.

(** C3 (as stated) fails on a slide that has [code] and an empty
    [codeLanguage]: both fields are present, yet no fence is emitted. *)
Lemma C3_empty_language_counterexample :
  buildMarkdown Examples.emptyLanguageDeck
  <> Spec.documentWhen Spec.present Examples.emptyLanguageDeck.
Proof. vm_compute. discriminate. Qed.

(** *** Counting the slide separator *)

Lemma dashFreeHead_nl (t : list N) : Spec.dashFreeHead (nl ++ t).
Proof. cbn. discriminate. Qed.

Lemma dashFreeHead_dq (t : list N) : Spec.dashFreeHead (dq ++ t).
Proof. cbn. discriminate. Qed.

(** Inside a delimiter-free string followed by a dash-free code unit, the
    separator cannot start. *)
Lemma startsWith_dashes_tail (c : N) (s t : list N) :
  Spec.delimiterFree (c :: s) = true -> Spec.dashFreeHead t ->
  startsWith slideSeparator (c :: s ++ t) = false.
Proof.
  intros Hfree Hhead. apply not_true_is_false. intros Hsep.
  apply (startsWith_prefix (lit "---")) in Hsep.
  unfold Spec.delimiterFree in Hfree. apply negb_true_iff in Hfree.
  cbn [includes] in Hfree. apply orb_false_iff in Hfree as [Hfree _].
  apply startsWith_true in Hsep as [r Hr].
  change (lit "---") with [45; 45; 45] in Hr, Hfree.
  destruct s as [|c2 [|c3 s]].
  - destruct t as [|d [|d2 t]]; cbn in Hr, Hhead; congruence.
  - destruct t as [|d t]; cbn in Hr, Hhead; congruence.
  - cbn in Hr. injection Hr as -> -> -> _. by cbn in Hfree.
Qed.

Lemma delimiterFree_tail (c : N) (s : list N) :
  Spec.delimiterFree (c :: s) = true -> Spec.delimiterFree s = true.
Proof.
  unfold Spec.delimiterFree. rewrite !negb_true_iff. cbn [includes].
  intros Hfree. by apply orb_false_iff in Hfree as [_ Hfree].
Qed.

Lemma countFrom_delimiterFree (s t : list N) (skip : nat) :
  Spec.delimiterFree s = true -> Spec.dashFreeHead t ->
  countFrom slideSeparator skip (s ++ t)
  = countFrom slideSeparator (skip - length s) t.
Proof.
  revert skip. induction s as [|c s IH]; intros skip Hfree Hhead.
  - cbn. by rewrite Nat.sub_0_r.
  - cbn [app countFrom length]. destruct skip as [|skip].
    + rewrite startsWith_dashes_tail by done.
      by rewrite IH by eauto using delimiterFree_tail.
    + by rewrite IH by eauto using delimiterFree_tail.
Qed.

Lemma count_through (s t : list N) :
  Spec.delimiterFree s = true -> Spec.dashFreeHead t ->
  countFrom slideSeparator 0 (s ++ t) = countFrom slideSeparator 0 t.
Proof. intros. by rewrite countFrom_delimiterFree. Qed.

Lemma count_heading (title rest : list N) :
  Spec.delimiterFree title = true ->
  countFrom slideSeparator 0 (Spec.headingLine title ++ rest)
  = countFrom slideSeparator 0 rest.
Proof.
  intros Hfree. unfold Spec.headingLine. rewrite <- !app_assoc.
  fixed_prefix (title ++ nl ++ rest).
  rewrite count_through by auto using dashFreeHead_nl. reflexivity.
Qed.

Lemma count_content (content rest : list N) :
  Spec.delimiterFree content = true ->
  countFrom slideSeparator 0 (Spec.rawContent content ++ rest)
  = countFrom slideSeparator 0 rest.
Proof.
  intros Hfree. unfold Spec.rawContent. rewrite <- !app_assoc.
  fixed_prefix (content ++ nl ++ rest).
  rewrite count_through by auto using dashFreeHead_nl. reflexivity.
Qed.

Lemma count_fence (codeLanguage code rest : list N) :
  Spec.delimiterFree codeLanguage = true -> Spec.delimiterFree code = true ->
  countFrom slideSeparator 0 (Spec.codeFence codeLanguage code ++ rest)
  = countFrom slideSeparator 0 rest.
Proof.
  intros Hlang Hcode. unfold Spec.codeFence. rewrite <- !app_assoc.
  fixed_prefix (codeLanguage ++ nl ++ code ++ nl ++ lit "```" ++ nl ++ rest).
  rewrite count_through by auto using dashFreeHead_nl.
  fixed_prefix (code ++ nl ++ lit "```" ++ nl ++ rest).
  rewrite count_through by auto using dashFreeHead_nl. reflexivity.
Qed.

Lemma count_body (slide : Slide.t) (rest : list N) :
  Spec.slideDelimiterFree slide = true ->
  countFrom slideSeparator 0 (Spec.bodyWhen Spec.presentNonEmpty slide ++ rest)
  = countFrom slideSeparator 0 rest.
Proof.
  unfold Spec.slideDelimiterFree, Spec.bodyWhen.
  destruct slide as [layout title content code codeLanguage].
  cbn [Slide.layout Slide.title Slide.content Slide.code Slide.codeLanguage].
  rewrite !andb_true_iff. intros [[[[_ Htitle] Hcontent] Hcode] Hlang].
  destruct title as [[|]|], content as [[|]|], code as [[|]|], codeLanguage as [[|]|];
    cbn [Spec.presentNonEmpty andb from_option id]; rewrite <- ?app_assoc; cbn [app];
    rewrite ?count_heading, ?count_content, ?count_fence by done; reflexivity.
Qed.

Lemma newlineHead_body (slide : Slide.t) (rest : list N) :
  Spec.newlineHead rest ->
  Spec.newlineHead (Spec.bodyWhen Spec.presentNonEmpty slide ++ rest).
Proof.
  intros Hrest. unfold Spec.bodyWhen, Spec.headingLine, Spec.rawContent, Spec.codeFence.
  destruct slide as [layout title content code codeLanguage]; cbn.
  destruct title as [[|]|], content as [[|]|], code as [[|]|], codeLanguage as [[|]|];
    cbn; first [exact Hrest | right; eexists; reflexivity].
Qed.

(** The delimiter that closes a header is followed by a blank line or by
    the end of the document, never by a layout line. *)
Lemma count_closing (rest : list N) :
  Spec.newlineHead rest ->
  countFrom slideSeparator 0 (lit "---" ++ nl ++ rest) = countFrom slideSeparator 0 rest.
Proof. intros [-> | [r ->]]; reflexivity. Qed.

Lemma resolveLayout_free (layout : option (list N)) (dflt : list N) :
  Spec.delimiterFreeOpt layout = true -> Spec.delimiterFree dflt = true ->
  Spec.delimiterFree (resolveLayout layout dflt) = true.
Proof.
  intros Hlayout Hdflt. unfold resolveLayout.
  destruct layout as [l|]; [|done]. by destruct (_ && _).
Qed.

Lemma count_later_header (input : BuildInput.t) (index : nat) (slide : Slide.t)
    (rest : list N) :
  Spec.slideDelimiterFree slide = true -> Spec.newlineHead rest ->
  countFrom slideSeparator 0 (blockHeader input (S index) slide ++ rest)
  = S (countFrom slideSeparator 0 rest).
Proof.
  intros Hfree Hrest. unfold blockHeader. cbv zeta.
  set (layout := resolveLayout (Slide.layout slide) (lit "default")).
  assert (Spec.delimiterFree layout = true) as Hlayout.
  { apply resolveLayout_free; [|reflexivity].
    unfold Spec.slideDelimiterFree in Hfree. rewrite !andb_true_iff in Hfree. tauto. }
  rewrite <- !app_assoc.
  transitivity (S (countFrom slideSeparator 0 (layout ++ nl ++ lit "---" ++ nl ++ rest)));
    [reflexivity|].
  rewrite count_through by auto using dashFreeHead_nl. f_equal.
  fixed_prefix (lit "---" ++ nl ++ rest). by rewrite count_closing.
Qed.

Lemma count_first_header (input : BuildInput.t) (slide : Slide.t) (rest : list N) :
  Spec.deckDelimiterFree input = true -> Spec.slideDelimiterFree slide = true ->
  Spec.newlineHead rest ->
  countFrom slideSeparator 0 (blockHeader input 0 slide ++ rest)
  = S (countFrom slideSeparator 0 rest).
Proof.
  intros Hdeck Hfree Hrest. unfold blockHeader, firstSlideHeader. cbv zeta.
  set (layout := resolveLayout (Slide.layout slide) (lit "cover")).
  assert (Spec.delimiterFree layout = true) as Hlayout.
  { apply resolveLayout_free; [|reflexivity].
    unfold Spec.slideDelimiterFree in Hfree. rewrite !andb_true_iff in Hfree. tauto. }
  unfold Spec.deckDelimiterFree in Hdeck. rewrite !andb_true_iff in Hdeck.
  destruct Hdeck as [[[Htitle Htheme] Hauthor] _].
  assert (forall t, countFrom slideSeparator 0
                      (lit "title: " ++ dq ++ BuildInput.title input ++ dq ++ nl ++ t)
                    = countFrom slideSeparator 0 t) as Htitle_line.
  { intros t. fixed_prefix (BuildInput.title input ++ dq ++ nl ++ t).
    rewrite count_through by auto using dashFreeHead_dq. reflexivity. }
  assert (forall t, truthyOpt (BuildInput.author input) = true ->
            countFrom slideSeparator 0
              (lit "author: " ++ dq ++ default [] (BuildInput.author input) ++ dq ++ nl ++ t)
            = countFrom slideSeparator 0 t) as Hauthor_line.
  { intros t Hsome. destruct (BuildInput.author input) as [a|]; [|done].
    cbn [from_option id]. fixed_prefix (a ++ dq ++ nl ++ t).
    rewrite count_through by auto using dashFreeHead_dq. reflexivity. }
  assert (forall t, truthyOpt (themeValue input) = true ->
            countFrom slideSeparator 0
              (lit "theme: " ++ default [] (themeValue input) ++ nl ++ t)
            = countFrom slideSeparator 0 t) as Htheme_line.
  { intros t Hsome. unfold themeValue in *.
    destruct (BuildInput.theme input) as [th|]; [|done].
    destruct (0 <? length (trim th))%nat; [|done]. cbn [from_option id].
    fixed_prefix (th ++ nl ++ t).
    rewrite count_through by auto using dashFreeHead_nl. reflexivity. }
  destruct (truthyOpt (themeValue input)) eqn:Hth,
           (truthyOpt (BuildInput.author input)) eqn:Hau;
    rewrite <- !app_assoc;
    match goal with
    | |- countFrom _ 0 (_ ++ _ ++ _ ++ layout ++ ?t) = _ =>
        transitivity (S (countFrom slideSeparator 0 (layout ++ t))); [reflexivity|]
    end;
    rewrite count_through by auto using dashFreeHead_nl; f_equal;
    match goal with
    | |- countFrom _ 0 (nl ++ ?t) = _ => fixed_prefix t
    end;
    rewrite ?Htheme_line, ?Htitle_line, ?Hauthor_line by done;
    by rewrite count_closing.
Qed.

Lemma newlineHead_later_header (input : BuildInput.t) (index : nat) (slide : Slide.t)
    (rest : list N) :
  Spec.newlineHead (blockHeader input (S index) slide ++ rest).
Proof. right. unfold blockHeader. cbv zeta. rewrite <- !app_assoc. by eexists. Qed.

Lemma count_later_blocks (input : BuildInput.t) (slides : list Slide.t) (index : nat) :
  forallb Spec.slideDelimiterFree slides = true ->
  let doc := concat (imap (fun k slide => slideBlock input (S index + k) slide) slides) in
  countFrom slideSeparator 0 doc = length slides /\ Spec.newlineHead doc.
Proof.
  revert index. induction slides as [|slide slides IH]; intros index Hfree.
  - split; [reflexivity|by left].
  - cbn [forallb] in Hfree. apply andb_prop in Hfree as [Hslide Hslides].
    destruct (IH (S index) Hslides) as [Hcount Hhead].
    cbn zeta. rewrite imap_cons. cbn [concat]. rewrite Nat.add_0_r, slideBlock_parts.
    rewrite (imap_ext _ (fun k slide => slideBlock input (S (S index) + k) slide))
      by (intros k s _; cbn; f_equal; lia).
    rewrite <- app_assoc. split.
    + rewrite count_later_header by auto using newlineHead_body.
      rewrite count_body by done. cbn [length]. by f_equal.
    + apply newlineHead_later_header.
Qed.

(** C2 (as amended): when no caller-supplied string of the deck contains
    the frontmatter delimiter [---], the built document holds exactly as
    many occurrences of the separator pattern as the deck has slides. *)
Theorem C2_separator_count (input : BuildInput.t) :
  Spec.deckDelimiterFree input = true ->
  countMatches slideSeparator (buildMarkdown input) = length (BuildInput.slides input).
Proof.
  intros Hdeck. unfold countMatches. rewrite buildMarkdown_blocks.
  assert (forallb Spec.slideDelimiterFree (BuildInput.slides input) = true) as Hslides.
  { unfold Spec.deckDelimiterFree in Hdeck. rewrite !andb_true_iff in Hdeck. tauto. }
  destruct (BuildInput.slides input) as [|slide slides]; [reflexivity|].
  cbn [forallb] in Hslides. apply andb_prop in Hslides as [Hslide Hslides].
  destruct (count_later_blocks input slides 0 Hslides) as [Hcount Hhead].
  rewrite imap_cons. cbn [concat]. rewrite slideBlock_parts, <- app_assoc.
  rewrite count_first_header by auto using newlineHead_body.
  rewrite count_body by done. cbn [length]. f_equal. exact Hcount.
Qed.

(** The deck of the specification's end-to-end scenario has two slides and
    its document two separators. *)
Lemma C2_separator_count_witness :
  Spec.deckDelimiterFree Examples.specDeck = true
  /\ countMatches slideSeparator (buildMarkdown Examples.specDeck)
     = length (BuildInput.slides Examples.specDeck).
Proof.
  split; [vm_compute; reflexivity|].
  apply (C2_separator_count Examples.specDeck). vm_compute. reflexivity.
Defined.

(** C2 (as stated) fails on a one-slide deck whose body quotes a
    frontmatter block: the document holds two separators. *)
Lemma C2_quoted_frontmatter_counterexample :
  countMatches slideSeparator (buildMarkdown Examples.quotedFrontmatterDeck) = 2%nat
  /\ length (BuildInput.slides Examples.quotedFrontmatterDeck) = 1%nat.
Proof. split; vm_compute; reflexivity. Qed.

End BuilderFacts.

(** ** Computations, the file system *)

Section MonadFacts.
Context {A B : Type}.

Lemma bind_returned (m : M A) (f : A -> M B) (w w' : World) (a : A) :
  m w = (Returned a, w') -> (m ≫= f) w = f a w'.
Proof. unfold mbind, M_bind. by intros ->. Qed.

Lemma bind_thrown (m : M A) (f : A -> M B) (w w' : World) (e : list N) :
  m w = (Thrown e, w') -> (m ≫= f) w = (Thrown e, w').
Proof. unfold mbind, M_bind. by intros ->. Qed.

Lemma tryCatch_returned (m : M A) (h : list N -> M A) (w w' : World) (a : A) :
  m w = (Returned a, w') -> tryCatch m h w = (Returned a, w').
Proof. unfold tryCatch. by intros ->. Qed.

Lemma tryCatch_thrown (m : M A) (h : list N -> M A) (w w' : World) (e : list N) :
  m w = (Thrown e, w') -> tryCatch m h w = h e w'.
Proof. unfold tryCatch. by intros ->. Qed.

End MonadFacts.

Section FsFacts.
Context `{Host}.

Lemma entry_truthy (w : World) (p : list N) : is_Some (Fs.entry w p) -> truthy p = true.
Proof. unfold Fs.entry. destruct (truthy p); [done|]. by intros [? ?]. Qed.

Lemma entry_insert_eq (w : World) (p : list N) (node : Node) :
  truthy p = true -> Fs.entry (setFs (<[p := node]> (fs w)) w) p = Some node.
Proof. intros Hp. unfold Fs.entry. rewrite Hp. cbn. apply lookup_insert_eq. Qed.

Lemma entry_insert_ne (w : World) (p q : list N) (node : Node) :
  p <> q -> Fs.entry (setFs (<[p := node]> (fs w)) w) q = Fs.entry w q.
Proof.
  intros Hne. unfold Fs.entry. destruct (truthy q); [|done]. cbn.
  by apply lookup_insert_ne.
Qed.

Lemma existsSync_absent (p : list N) (w : World) :
  Fs.entry w p = None -> Fs.existsSync p w = (Returned false, w).
Proof.
  intros Hnone. unfold Fs.existsSync. rewrite Hnone.
  by rewrite bool_decide_eq_false_2 by (by intros [? ?]).
Qed.

Lemma existsSync_present (p : list N) (w : World) :
  is_Some (Fs.entry w p) -> Fs.existsSync p w = (Returned true, w).
Proof. intros Hsome. unfold Fs.existsSync. by rewrite bool_decide_eq_true_2. Qed.

Lemma firstExisting_none (w : World) (candidates : list (list N)) :
  Spec.noneExists w candidates -> Fs.firstExisting candidates w = (Returned None, w).
Proof.
  induction candidates as [|p candidates IH]; intros Hnone; [reflexivity|].
  cbn [Fs.firstExisting].
  rewrite (bind_returned _ _ w w false) by (apply existsSync_absent, Hnone; left).
  apply IH. intros q Hq. apply Hnone. by right.
Qed.

Lemma firstExisting_first (w : World) (candidates : list (list N)) (p : list N) :
  Spec.firstExistingIs w candidates p ->
  Fs.firstExisting candidates w = (Returned (Some p), w).
Proof.
  intros (before & after & -> & Hsome & Hbefore).
  induction before as [|q before IH]; cbn [app Fs.firstExisting].
  - by rewrite (bind_returned _ _ w w true) by by apply existsSync_present.
  - rewrite (bind_returned _ _ w w false) by (apply existsSync_absent, Hbefore; left).
    apply IH. intros q' Hq'. apply Hbefore. by right.
Qed.

Lemma stat_present (p : list N) (w : World) :
  is_Some (Fs.entry w p) -> Fs.stat p w = (Returned tt, w).
Proof. intros [node Hnode]. unfold Fs.stat. by rewrite Hnode. Qed.

(** Making directories changes the file system and nothing else. *)
Lemma makeDirs_frame (fuel : nat) (target p : list N) (w : World) :
  let w' := (Fs.makeDirs fuel target p w).2 in
  cwd w' = cwd w /\ presentationName w' = presentationName w /\ execLog w' = execLog w.
Proof.
  revert p w. induction fuel as [|fuel IH]; intros p w; cbn [Fs.makeDirs];
    destruct (Fs.entry w p) as [[|]|]; try done.
  - case_bool_decide; [by destruct (Fs.mayWrite p) | done].
  - case_bool_decide; [by destruct (Fs.mayWrite p)|].
    unfold mbind, M_bind. specialize (IH (dirname p) w). cbv zeta in IH.
    destruct (Fs.makeDirs fuel target (dirname p) w) as [[[]|e] w1]; [|done].
    by destruct (Fs.mayWrite p).
Qed.

Lemma ancestorOrSelf_refl (p : list N) : Behaviour.ancestorOrSelf p p.
Proof. by exists 0%nat. Qed.

Lemma ancestorOrSelf_parent (q p : list N) :
  Behaviour.ancestorOrSelf q (dirname p) -> Behaviour.ancestorOrSelf q p.
Proof. intros [k Hk]. exists (S k). rewrite <- Hk. symmetry. apply Nat.iter_swap. Qed.

(** One directory made at the missing [p], after changes [w1] to [w] that
    made directories at [p] and above only. *)
Lemma makeDir_entries (p other message : list N) (w w1 : World) :
  Fs.entry w p = None ->
  (Fs.entry w1 other = Fs.entry w other
   \/ (Fs.entry w other = None /\ Fs.entry w1 other = Some Dir
       /\ Behaviour.ancestorOrSelf other p)) ->
  let w' := (if Fs.mayWrite p then (Returned tt, setFs (<[p := Dir]> (fs w1)) w1)
             else (Thrown message, w1) : Outcome unit * World).2 in
  Fs.entry w' other = Fs.entry w other
  \/ (Fs.entry w other = None /\ Fs.entry w' other = Some Dir
      /\ Behaviour.ancestorOrSelf other p).
Proof.
  intros Hnone Hbefore. cbv zeta. destruct (Fs.mayWrite p) eqn:Hwrite; [|done].
  cbn [snd]. destruct (decide (p = other)) as [<-|Hne].
  - right. split; [done|]. split; [|apply ancestorOrSelf_refl].
    apply entry_insert_eq. unfold Fs.mayWrite in Hwrite.
    by apply andb_true_iff in Hwrite as [? _].
  - by rewrite entry_insert_ne.
Qed.

(** Making directories leaves every entry as it was, but for the missing
    directories it makes: the target and ancestors of it. *)
Lemma makeDirs_entries (fuel : nat) (target p other : list N) (w : World) :
  let w' := (Fs.makeDirs fuel target p w).2 in
  Fs.entry w' other = Fs.entry w other
  \/ (Fs.entry w other = None /\ Fs.entry w' other = Some Dir
      /\ Behaviour.ancestorOrSelf other p).
Proof.
  cbv zeta. revert p w. induction fuel as [|fuel IH]; intros p w; cbn [Fs.makeDirs];
    destruct (Fs.entry w p) as [[|]|] eqn:Hentry; try by left.
  - case_bool_decide; [|by left]. apply makeDir_entries; [done | by left].
  - case_bool_decide; [apply makeDir_entries; [done | by left]|].
    unfold mbind, M_bind. specialize (IH (dirname p) w).
    assert (Habove : Fs.entry (Fs.makeDirs fuel target (dirname p) w).2 other
                     = Fs.entry w other
                     \/ (Fs.entry w other = None
                         /\ Fs.entry (Fs.makeDirs fuel target (dirname p) w).2 other
                            = Some Dir
                         /\ Behaviour.ancestorOrSelf other p)).
    { destruct IH as [?|(? & ? & ?)]; [by left|].
      right. eauto using ancestorOrSelf_parent. }
    destruct (Fs.makeDirs fuel target (dirname p) w) as [[[]|e] w1]; [|done].
    by apply makeDir_entries.
Qed.

(** The directory is there when making it returns. *)
Lemma makeDirs_returned (fuel : nat) (target p : list N) (w w' : World) :
  Fs.makeDirs fuel target p w = (Returned tt, w') -> Fs.entry w' p = Some Dir.
Proof.
  assert (Hmake : forall w1 : World,
    (if Fs.mayWrite p then (Returned tt, setFs (<[p := Dir]> (fs w1)) w1)
     else (Thrown (lit "EACCES: permission denied, mkdir '" ++ target ++ lit "'"), w1))
    = (Returned tt, w') -> Fs.entry w' p = Some Dir).
  { intros w1. destruct (Fs.mayWrite p) eqn:Hwrite; [|done]. intros [= <-].
    apply entry_insert_eq. unfold Fs.mayWrite in Hwrite.
    by apply andb_true_iff in Hwrite as [? _]. }
  destruct fuel as [|fuel]; cbn [Fs.makeDirs];
    destruct (Fs.entry w p) as [[|]|] eqn:Hentry; try done; try congruence.
  - case_bool_decide; [apply Hmake | done].
  - case_bool_decide; [apply Hmake|]. unfold mbind, M_bind.
    destruct (Fs.makeDirs fuel target (dirname p) w) as [[[]|e] w1]; [apply Hmake | done].
Qed.

(** A missing directory that may not be written is not made. *)
Lemma makeDirs_denied (fuel : nat) (target p : list N) (w : World) :
  Fs.entry w p = None -> Fs.mayWrite p = false ->
  exists e w', Fs.makeDirs fuel target p w = (Thrown e, w').
Proof.
  intros Hnone Hdenied.
  destruct fuel as [|fuel]; cbn [Fs.makeDirs]; rewrite Hnone, Hdenied.
  - case_bool_decide; eauto.
  - case_bool_decide; [eauto|]. unfold mbind, M_bind.
    destruct (Fs.makeDirs fuel target (dirname p) w) as [[[]|e] w1]; eauto.
Qed.

Lemma mkdirSync_entries (p other : list N) (w : World) :
  let w' := (Fs.mkdirSync p w).2 in
  Fs.entry w' other = Fs.entry w other
  \/ (Fs.entry w other = None /\ Fs.entry w' other = Some Dir
      /\ Behaviour.ancestorOrSelf other p).
Proof. apply makeDirs_entries. Qed.

Lemma mkdirSync_returned (p : list N) (w w' : World) :
  Fs.mkdirSync p w = (Returned tt, w') -> Fs.entry w' p = Some Dir.
Proof. apply makeDirs_returned. Qed.

Lemma mkdirSync_denied (p : list N) (w : World) :
  Fs.entry w p = None -> Fs.mayWrite p = false ->
  exists e w', Fs.mkdirSync p w = (Thrown e, w').
Proof. apply makeDirs_denied. Qed.

Lemma mkdirSync_name (p : list N) (w : World) :
  presentationName (Fs.mkdirSync p w).2 = presentationName w.
Proof. apply makeDirs_frame. Qed.

(** Entries that are there stay as they are when a directory is made. *)
Lemma mkdirSync_present (p other : list N) (w : World) :
  is_Some (Fs.entry w other) -> Fs.entry (Fs.mkdirSync p w).2 other = Fs.entry w other.
Proof.
  intros [node Hnode].
  destruct (mkdirSync_entries p other w) as [?|(? & _)]; [done | congruence].
Qed.

(** A file is there after a directory is made only if it was there before. *)
Lemma mkdirSync_file (p other content : list N) (w : World) :
  Fs.entry (Fs.mkdirSync p w).2 other = Some (File content) ->
  Fs.entry w other = Some (File content).
Proof.
  destruct (mkdirSync_entries p other w) as [<-|(_ & Hdir & _)]; [done | congruence].
Qed.

Lemma writeFileSync_name (p content : list N) (w : World) :
  presentationName (Fs.writeFileSync p content w).2 = presentationName w.
Proof.
  unfold Fs.writeFileSync. destruct (Fs.parentFault w p); [done|].
  destruct (Fs.entry w p) as [[|]|]; [|done|]; by destruct (Fs.mayWrite p).
Qed.

(** A failed copy leaves the world as it was. *)
Lemma copyFileSync_thrown (src dst e : list N) (w w' : World) :
  Fs.copyFileSync src dst w = (Thrown e, w') -> w' = w.
Proof.
  unfold Fs.copyFileSync.
  destruct (Fs.entry w src) as [[|]|]; [|congruence..].
  destruct (Fs.parentFault w dst); [congruence|].
  destruct (Fs.entry w dst) as [[|]|]; [|congruence|]; destruct (Fs.mayWrite dst);
    congruence.
Qed.

(** A copy that returns put the source's entry at the destination. *)
Lemma copyFileSync_returned (src dst : list N) (w w' : World) :
  Fs.copyFileSync src dst w = (Returned tt, w') ->
  Fs.entry w' dst = Fs.entry w src /\ is_Some (Fs.entry w' dst).
Proof.
  unfold Fs.copyFileSync.
  destruct (Fs.entry w src) as [[content|]|]; [|congruence..].
  destruct (Fs.parentFault w dst); [congruence|].
  destruct (Fs.entry w dst) as [[|]|]; [|congruence|];
    (destruct (Fs.mayWrite dst) eqn:Hmay; [|congruence]);
    apply andb_prop in Hmay as [Hdst _];
    intros [= <-]; rewrite entry_insert_eq by done; eauto.
Qed.

End FsFacts.

(** ** The climb of [mkdirSync] *)

Section ClimbFacts.
Context `{Host}.

(** A host on which climbing from a path ends: the parent of a path is never
    the empty path, and it is the path itself, a path that is its own parent,
    or shorter than the path. *)
Hypothesis dirname_climbs : forall p : list N,
  p <> [] ->
  dirname p <> []
  /\ (dirname p = p \/ dirname (dirname p) = dirname p
      \/ (length (dirname p) < length p)%nat).

Lemma makeDirs_top (fuel fuel' : nat) (target p : list N) (w : World) :
  dirname p = p -> Fs.makeDirs fuel target p w = Fs.makeDirs fuel' target p w.
Proof.
  intros Htop. destruct fuel, fuel'; cbn [Fs.makeDirs]; try done;
    destruct (Fs.entry w p) as [[|]|]; try done; by rewrite !bool_decide_eq_true_2.
Qed.

(** On such a host the length of the path is fuel enough: more changes
    nothing. *)
Lemma makeDirs_fuel (fuel fuel' : nat) (target p : list N) (w : World) :
  p <> [] -> (length p <= fuel)%nat -> (length p <= fuel')%nat ->
  Fs.makeDirs fuel target p w = Fs.makeDirs fuel' target p w.
Proof.
  revert fuel' p w. induction fuel as [|fuel IH]; intros fuel' p w Hp Hlen Hlen'.
  { destruct p; [done | cbn in Hlen; lia]. }
  destruct fuel' as [|fuel']; [destruct p; [done | cbn in Hlen'; lia]|].
  destruct (dirname_climbs p Hp) as (Hparent & Hclimb).
  cbn [Fs.makeDirs]. destruct (Fs.entry w p) as [[|]|]; try done.
  case_bool_decide as Htop; [done|].
  assert (Habove : Fs.makeDirs fuel target (dirname p) w
                   = Fs.makeDirs fuel' target (dirname p) w).
  { destruct Hclimb as [?|[Hfixed|Hshorter]]; [done | by apply makeDirs_top |].
    apply IH; [done | lia | lia]. }
  unfold mbind, M_bind. by rewrite Habove.
Qed.

End ClimbFacts.

Section PosixFacts.

Lemma dropSlashes_length (s : list N) : (length (Posix.dropSlashes s) <= length s)%nat.
Proof.
  induction s as [|c s IH]; [done|]. cbn [Posix.dropSlashes].
  destruct (c =? Posix.slash); cbn [length]; lia.
Qed.

Lemma dropSlashes_head (s : list N) (c : N) (rest : list N) :
  Posix.dropSlashes s = c :: rest -> (c =? Posix.slash) = false.
Proof.
  induction s as [|d s IH]; [done|]. cbn [Posix.dropSlashes].
  destruct (d =? Posix.slash) eqn:Hd; [done|]. by intros [= <- _].
Qed.

Lemma dropSegment_length (s : list N) : (length (Posix.dropSegment s) <= length s)%nat.
Proof.
  induction s as [|c s IH]; [done|]. cbn [Posix.dropSegment].
  destruct (c =? Posix.slash); cbn [length]; lia.
Qed.

Lemma posix_dirname_climbs (p : list N) :
  p <> [] ->
  Posix.dirname p <> []
  /\ (Posix.dirname p = p \/ Posix.dirname (Posix.dirname p) = Posix.dirname p
      \/ (length (Posix.dirname p) < length p)%nat).
Proof.
  intros Hp. remember (Posix.dirname p) as q eqn:Hq.
  unfold Posix.dirname in Hq. cbv zeta in Hq.
  destruct (Posix.dropSlashes (Posix.dropSegment (Posix.dropSlashes (rev p))))
    as [|c parent] eqn:Hparent.
  - destruct (startsWith [Posix.slash] p) eqn:Hroot; subst q.
    + split; [done|]. destruct p as [|d [|e p]]; [done | | right; right; cbn; lia].
      left. cbn [startsWith] in Hroot. rewrite andb_true_r in Hroot.
      by apply N.eqb_eq in Hroot as <-.
    + change (lit ".") with [46]. split; [done|].
      destruct p as [|d [|e p]]; [done | | right; right; cbn; lia].
      right. left. reflexivity.
  - subst q. split.
    { intros Hnil. apply (f_equal length) in Hnil. rewrite length_rev in Hnil.
      discriminate. }
    right. right. rewrite length_rev.
    pose proof (dropSlashes_length (Posix.dropSegment (Posix.dropSlashes (rev p)))) as H1.
    rewrite Hparent in H1.
    destruct (Posix.dropSlashes (rev p)) as [|d r] eqn:Hr; [done|].
    pose proof (dropSlashes_head _ _ _ Hr) as Hd.
    pose proof (dropSlashes_length (rev p)) as H2. rewrite Hr, length_rev in H2.
    cbn [Posix.dropSegment] in H1. rewrite Hd in H1.
    pose proof (dropSegment_length r) as H3. cbn [length] in *. lia.
Qed.

(** So it is on a POSIX host. *)
Lemma mkdirSync_fuel (writable : list N -> bool)
    (shell : list N -> list N -> list (list N) -> gmap (list N) Node -> ShellResult)
    (fuel : nat) (p : list N) (w : World) :
  p <> [] -> (length p <= fuel)%nat ->
  Fs.makeDirs (H := Posix.host writable shell) fuel p p w
  = Fs.mkdirSync (H := Posix.host writable shell) p w.
Proof.
  intros Hp Hlen. unfold Fs.mkdirSync.
  by apply (makeDirs_fuel (H := Posix.host writable shell) posix_dirname_climbs).
Qed.

End PosixFacts.

(** ** The build handler *)

Section BuildFacts.
Context `{Host}.

(** C5: a build request with an empty slide array returns the structured
    failure ([success] false, the no-slides message) and touches neither the
    file system nor any external process; only the last-built name changes. *)
Theorem C5_empty_deck_rejected (name title : list N) (theme author : option (list N))
    (w : World) :
  let outcome :=
    Server.build_complete_presentation (BuildInput.mk name title [] theme author) w in
  outcome = (Returned (BuildPayload.mk Server.noSlidesMessage 0 [] false),
             setPresentationName name w)
  /\ fs outcome.2 = fs w /\ execLog outcome.2 = execLog w.
Proof. by cbv zeta. Qed.

(** The handler records the name first, whatever happens next. *)
Lemma build_sets_name (input : BuildInput.t) (w : World) :
  presentationName (Server.build_complete_presentation input w).2 = BuildInput.name input.
Proof.
  unfold Server.build_complete_presentation.
  rewrite (bind_returned _ _ w (setPresentationName (BuildInput.name input) w) tt) by done.
  case_bool_decide; [done|].
  set (w1 := setPresentationName _ w).
  unfold mbind at 1, M_bind at 1. unfold Fs.existsSync at 1.
  unfold mbind at 1, M_bind at 1.
  assert (forall w2, presentationName w2 = BuildInput.name input ->
            forall k : BuildPayload.t,
              presentationName
                ((w' ← getWorld;
                  Fs.writeFileSync
                    (join [Server.presentationsDir; presentationName w' ++ lit ".md"])
                    (Builder.buildMarkdown input);; mret k) w2).2
              = BuildInput.name input) as Hrest.
  { intros w2 Hname k. unfold mbind, M_bind, getWorld.
    pose proof (writeFileSync_name
                  (join [Server.presentationsDir; presentationName w2 ++ lit ".md"])
                  (Builder.buildMarkdown input) w2) as Hwrite.
    destruct (Fs.writeFileSync _ _ w2) as [[[]|e] w3]; cbn in *; congruence. }
  destruct (bool_decide _).
  - exact (Hrest w1 eq_refl _).
  - pose proof (mkdirSync_name Server.presentationsDir w1) as Hmk.
    destruct (Fs.mkdirSync _ w1) as [[[]|e] w2]; cbn in Hmk.
    + apply Hrest. by rewrite Hmk.
    + cbn. by rewrite Hmk.
Qed.

(** A build that returns has saved the document under the request's name
    and reports that path, the slide count and success. *)
Lemma build_writes_markdown (input : BuildInput.t) (w w' : World)
    (payload : BuildPayload.t) :
  BuildInput.slides input <> [] ->
  Server.build_complete_presentation input w = (Returned payload, w') ->
  let filePath := join [Server.presentationsDir; BuildInput.name input ++ lit ".md"] in
  BuildPayload.success payload = true
  /\ BuildPayload.slideCount payload = length (BuildInput.slides input)
  /\ BuildPayload.filePath payload = filePath
  /\ Fs.entry w' filePath = Some (File (Builder.buildMarkdown input)).
Proof.
  intros Hslides. cbv zeta. unfold Server.build_complete_presentation.
  rewrite (bind_returned _ _ w (setPresentationName (BuildInput.name input) w) tt) by done.
  rewrite bool_decide_eq_false_2 by (by destruct (BuildInput.slides input)).
  set (w1 := setPresentationName _ w).
  unfold mbind at 1, M_bind at 1. unfold Fs.existsSync at 1.
  unfold mbind at 1, M_bind at 1.
  assert (forall w2, presentationName w2 = BuildInput.name input ->
            forall message : list N,
              (w0 ← getWorld;
               Fs.writeFileSync
                 (join [Server.presentationsDir; presentationName w0 ++ lit ".md"])
                 (Builder.buildMarkdown input);;
               mret (BuildPayload.mk message (length (BuildInput.slides input))
                       (join [Server.presentationsDir; presentationName w0 ++ lit ".md"])
                       true)) w2 = (Returned payload, w') ->
            BuildPayload.success payload = true
            /\ BuildPayload.slideCount payload = length (BuildInput.slides input)
            /\ BuildPayload.filePath payload
               = join [Server.presentationsDir; BuildInput.name input ++ lit ".md"]
            /\ Fs.entry w' (join [Server.presentationsDir; BuildInput.name input ++ lit ".md"])
               = Some (File (Builder.buildMarkdown input))) as Hrest.
  { intros w2 Hname message. unfold mbind, M_bind, getWorld. rewrite Hname.
    unfold Fs.writeFileSync.
    set (filePath := join [Server.presentationsDir; BuildInput.name input ++ lit ".md"]).
    destruct (Fs.parentFault w2 filePath); [done|].
    destruct (Fs.entry w2 filePath) as [[|]|]; [|done|];
      (destruct (Fs.mayWrite filePath) eqn:Hmay; [|done]);
      apply andb_prop in Hmay as [Hpath _];
      intros [= <- <-]; by rewrite entry_insert_eq. }
  destruct (bool_decide _); [by apply Hrest|].
  pose proof (mkdirSync_name Server.presentationsDir w1) as Hmk.
  destruct (Fs.mkdirSync _ w1) as [[[]|e] w2]; [|done].
  apply Hrest. exact Hmk.
Qed.

(** With slides to write, a presentations directory that is missing and
    cannot be created makes the handler throw: nothing catches [mkdirSync]. *)
Lemma build_throws_when_directory_denied (input : BuildInput.t) (w : World) :
  BuildInput.slides input <> [] ->
  Fs.entry w Server.presentationsDir = None ->
  Fs.mayWrite Server.presentationsDir = false ->
  exists e w', Server.build_complete_presentation input w = (Thrown e, w').
Proof.
  intros Hslides Hnone Hdenied. unfold Server.build_complete_presentation.
  rewrite (bind_returned _ _ w (setPresentationName (BuildInput.name input) w) tt) by done.
  rewrite bool_decide_eq_false_2 by (by destruct (BuildInput.slides input)).
  set (w1 := setPresentationName _ w).
  rewrite (bind_returned _ _ w1 w1 false) by by apply existsSync_absent.
  destruct (mkdirSync_denied Server.presentationsDir w1 Hnone Hdenied)
    as (e & w' & Hthrown).
  exists e, w'. erewrite bind_thrown; [reflexivity | exact Hthrown].
Qed.

(** The export handler, by contrast, always returns a payload. *)
Lemma export_to_pdf_returns (input : ExportInput.t) (w : World) :
  exists payload w', Server.export_to_pdf input w = (Returned payload, w').
Proof.
  unfold Server.export_to_pdf, tryCatch.
  match goal with
  | |- context [match ?body with _ => _ end] => destruct body as [[payload|e] w']
  end; by eauto.
Qed.

Lemma classify_fails (message : list N) :
  ExportPayload.success (Server.classify message) = false.
Proof.
  unfold Server.classify. by repeat destruct (includes _ _ || _) || destruct (includes _ _).
Qed.

End BuildFacts.

(** C4 (the code departs from it): on a host where the presentations
    directory is missing and may not be created, a well-formed build request
    ends in an exception, not in a structured failure. *)
Theorem C4_build_throws_on_write_failure :
  Server.build_complete_presentation (H := Examples.readOnlyHost)
    Examples.specDeck Examples.emptyWorld
  = (Thrown (lit "EACCES: permission denied, mkdir '/home/u/.local/share/precursor/slides'"),
     setPresentationName (lit "t1") Examples.emptyWorld).
Proof. vm_compute. reflexivity. Qed.

(** ** Locating the input *)

Section LocateFacts.
Context `{Host}.

Lemma locate_missing (inputFile : list N) (w : World) :
  Spec.noneExists w (Wrapper.possiblePaths (cwd w) inputFile) ->
  Wrapper.locate inputFile w = (Thrown (lit "Input file not found: " ++ inputFile), w).
Proof.
  intros Hnone. unfold Wrapper.locate.
  rewrite (bind_returned _ _ w w (cwd w)) by done.
  by rewrite (bind_returned _ _ w w None) by by apply firstExisting_none.
Qed.

(** The wrapper alone: when no candidate exists it reports the input as not
    found, and the world (the log of spawned commands included) is as before. *)
Lemma exportToPDF_missing_input (inputFile outputFile : list N) (options : ExportOptions.t)
    (w : World) :
  Spec.noneExists w (Wrapper.possiblePaths (cwd w) inputFile) ->
  Wrapper.exportToPDF inputFile outputFile options w
  = (Returned (ExportResult.mk false []
                 (lit "PDF export failed: Input file not found: " ++ inputFile)), w).
Proof.
  intros Hnone. unfold Wrapper.exportToPDF.
  erewrite tryCatch_thrown; [reflexivity|].
  erewrite bind_thrown; [reflexivity|]. by apply locate_missing.
Qed.

Lemma resolveInput_missing_path (input : ExportInput.t) (mdPath : list N) (w : World) :
  ExportInput.inputPath input = Some mdPath -> Spec.blank mdPath = false ->
  Fs.entry w mdPath = None ->
  Server.resolveInput input w = (Thrown (lit "Input markdown not found: " ++ mdPath), w).
Proof.
  intros Hpath Hblank Hnone. unfold Server.resolveInput. rewrite Hpath.
  cbn [truthyOpt from_option id]. rewrite trim_length_blank, Hblank.
  destruct mdPath as [|c mdPath]; [done|]. cbn [truthy negb andb].
  by rewrite (bind_returned _ _ w w false) by by apply existsSync_absent.
Qed.

(** The handler: a given input path that does not exist ends the request
    with the classified message and an unchanged world, so no command ran. *)
Lemma export_missing_path (input : ExportInput.t) (mdPath : list N) (w : World) :
  ExportInput.inputPath input = Some mdPath -> Spec.blank mdPath = false ->
  Fs.entry w mdPath = None ->
  Server.export_to_pdf input w
  = (Returned (Server.classify (lit "Input markdown not found: " ++ mdPath)), w).
Proof.
  intros Hpath Hblank Hnone. unfold Server.export_to_pdf.
  erewrite tryCatch_thrown; [reflexivity|].
  erewrite bind_thrown; [reflexivity|]. by apply resolveInput_missing_path.
Qed.

(** A message that trips none of the classifier's substring tests passes
    through behind the fixed prefix. *)
Lemma classify_plain (message : list N) :
  message <> [] ->
  includes (lit "playwright") (toLowerCase message) = false ->
  includes (lit "ENOENT") message = false ->
  includes (lit "command not found") message = false ->
  Server.classify message = ExportPayload.mk (lit "PDF export failed: " ++ message) [] 0 false.
Proof.
  intros Hne Hpw Hen Hcmd. unfold Server.classify.
  destruct message; [done|]. cbn [truthy]. by rewrite Hpw, Hen, Hcmd.
Qed.

(** For a missing input path that trips none of those tests, the request
    fails with a message that says the input was not found, and the world,
    the log of spawned commands included, is as before. *)
Lemma export_missing_path_says_not_found (input : ExportInput.t) (mdPath : list N)
    (w : World) :
  ExportInput.inputPath input = Some mdPath -> Spec.blank mdPath = false ->
  Fs.entry w mdPath = None ->
  includes (lit "playwright") (toLowerCase (lit "Input markdown not found: " ++ mdPath))
  = false ->
  includes (lit "ENOENT") (lit "Input markdown not found: " ++ mdPath) = false ->
  includes (lit "command not found") (lit "Input markdown not found: " ++ mdPath) = false ->
  exists payload,
    Server.export_to_pdf input w = (Returned payload, w)
    /\ ExportPayload.success payload = false
    /\ ExportPayload.message payload
       = lit "PDF export failed: Input markdown not found: " ++ mdPath
    /\ Spec.saysNotFound (ExportPayload.message payload) = true.
Proof.
  intros Hpath Hblank Hnone Hpw Hen Hcmd.
  rewrite (export_missing_path input mdPath w) by done.
  rewrite classify_plain by done. eexists. split; [reflexivity|].
  split; [reflexivity|]. split; [reflexivity|].
  apply includes_true.
  exists (lit "PDF export failed: Input markdown "), (lit ": " ++ mdPath).
  reflexivity.
Qed.

Lemma resolveInput_by_name (input : ExportInput.t) (w : World) :
  Spec.unusablePath (ExportInput.inputPath input) ->
  truthyOpt (ExportInput.name input) = false ->
  let name := presentationName w in
  let candidate := join [Server.presentationsDir; name ++ lit ".md"] in
  Server.resolveInput input w
  = (if truthy name
     then if bool_decide (is_Some (Fs.entry w candidate))
          then Returned candidate
          else Thrown (lit "Presentation file not found: " ++ candidate)
     else Thrown Server.noNameMessage, w).
Proof.
  intros Hpath Hname. cbv zeta. unfold Server.resolveInput.
  assert (truthyOpt (ExportInput.inputPath input)
          && (0 <? length (trim (default [] (ExportInput.inputPath input))))%nat = false) as ->.
  { destruct (ExportInput.inputPath input) as [p|]; [|done].
    cbn [from_option id]. cbn in Hpath. rewrite trim_length_blank, Hpath.
    apply andb_false_r. }
  rewrite Hname. rewrite (bind_returned _ _ w w w) by done.
  destruct (truthy (presentationName w)); [|done]. cbn [negb].
  rewrite (bind_returned _ _ w w (bool_decide (is_Some (Fs.entry w _)))) by done.
  by destruct (bool_decide _).
Qed.

(** C10 (as amended): every build call leaves the request's name as the
    last-built name, also when it is rejected for an empty slide array and
    writes nothing; an export request with neither [inputPath] nor [name]
    then leaves the world alone and resolves its input against that name
    when the name is not empty, and reports that no name is available when
    it is empty. *)
Theorem C10_last_built_name (input : BuildInput.t) (w : World)
    (outputPath : option (list N)) (withClicks : option bool) (range : option (list N))
    (dark : option bool) :
  let afterBuild := (Server.build_complete_presentation input w).2 in
  let request := ExportInput.mk None None outputPath withClicks range dark in
  presentationName afterBuild = BuildInput.name input
  /\ (BuildInput.slides input = [] -> fs afterBuild = fs w)
  /\ (Server.resolveInput request afterBuild).2 = afterBuild
  /\ (BuildInput.name input <> [] ->
      Spec.resolvesAgainst (BuildInput.name input) (Server.resolveInput request afterBuild).1)
  /\ (BuildInput.name input = [] ->
      (Server.resolveInput request afterBuild).1 = Thrown Server.noNameMessage).
Proof.
  cbv zeta. pose proof (build_sets_name input w) as Hname.
  set (afterBuild := (Server.build_complete_presentation input w).2) in *.
  split; [done|]. split.
  { intros Hslides. subst afterBuild. unfold Server.build_complete_presentation.
    rewrite (bind_returned _ _ w (setPresentationName (BuildInput.name input) w) tt) by done.
    by rewrite Hslides. }
  rewrite resolveInput_by_name by done. rewrite Hname. cbn [fst snd].
  split; [done|]. split.
  - intros Hne. destruct (BuildInput.name input) as [|c name]; [done|]. cbn [truthy].
    unfold Spec.resolvesAgainst. cbv zeta. destruct (bool_decide _); [by left | by right].
  - by intros ->.
Qed.

End LocateFacts.

(** After the specification's deck [t1] is built on a fresh Linux host, an
    export request without input path and name settles on [t1.md] in the
    presentations directory. *)
Lemma C10_last_built_name_witness :
  BuildInput.name Examples.specDeck <> []
  /\ Spec.resolvesAgainst (H := Examples.openHost) (lit "t1")
       (Server.resolveInput (H := Examples.openHost) Examples.exportLastBuilt
          (Server.build_complete_presentation (H := Examples.openHost)
             Examples.specDeck Examples.emptyWorld).2).1.
Proof.
  split; [discriminate|].
  apply (C10_last_built_name (H := Examples.openHost) Examples.specDeck Examples.emptyWorld
           None None None None).
  discriminate.
Defined.

(** C10 (as stated) fails for a request whose name is the empty string:
    the name is recorded, but the later export does not resolve against it. *)
Lemma C10_empty_name_counterexample :
  let afterBuild :=
    (Server.build_complete_presentation (H := Examples.openHost)
       Examples.namelessEmptyDeck Examples.emptyWorld).2 in
  presentationName afterBuild = BuildInput.name Examples.namelessEmptyDeck
  /\ ~ Spec.resolvesAgainst (H := Examples.openHost)
        (BuildInput.name Examples.namelessEmptyDeck)
        (Server.resolveInput (H := Examples.openHost) Examples.exportLastBuilt afterBuild).1.
Proof.
  cbv zeta. split; [reflexivity|].
  intros [Hfound | Hmissing]; vm_compute in Hfound || vm_compute in Hmissing; discriminate.
Qed.

(** C6 (the code departs from it): the input path does not exist and no
    command is spawned, but because the path holds the word [playwright] the
    handler answers with its Playwright advice, which does not say that the
    input was not found. *)
Theorem C6_missing_input_reported_as_playwright :
  let outcome :=
    Server.export_to_pdf (H := Examples.openHost)
      (Examples.exportOf (lit "/tmp/playwright/deck.md")) Examples.emptyWorld in
  outcome = (Returned (ExportPayload.mk Server.playwrightAdvice [] 0 false),
             Examples.emptyWorld)
  /\ Spec.saysNotFound Server.playwrightAdvice = false.
Proof. cbv zeta. split; vm_compute; reflexivity. Qed.

(** ** Theme packages *)

(** The derivation as the code tests it: the name itself when it contains
    a slash or begins with [@]; otherwise [@slidev/] followed by the name
    when it begins with [theme-]; otherwise [@slidev/theme-] followed by the
    name. *)
Lemma derivePkgName_rules (themeName : list N) :
  (Spec.contains (lit "/") themeName \/ Spec.beginsWith (lit "@") themeName ->
     Wrapper.derivePkgName themeName = themeName)
  /\ (~ Spec.contains (lit "/") themeName -> ~ Spec.beginsWith (lit "@") themeName ->
      Spec.beginsWith (lit "theme-") themeName ->
      Wrapper.derivePkgName themeName = lit "@slidev/" ++ themeName)
  /\ (~ Spec.contains (lit "/") themeName -> ~ Spec.beginsWith (lit "@") themeName ->
      ~ Spec.beginsWith (lit "theme-") themeName ->
      Wrapper.derivePkgName themeName = lit "@slidev/theme-" ++ themeName).
Proof.
  unfold Wrapper.derivePkgName.
  rewrite <- !includes_true, <- !startsWith_true.
  destruct (includes _ _), (startsWith (lit "@") _), (startsWith (lit "theme-") _);
    cbn [orb]; repeat split; intros; try done; try tauto; intuition congruence.
Qed.

(** The guard in front of the derivation: a package is ensured exactly for
    a captured theme that, trimmed, is neither empty nor [none] in any
    letter case. *)
Lemma themePackage_some (mdText pkgName : list N) :
  Wrapper.themePackage mdText = Some pkgName
  <-> exists captured,
        Wrapper.matchTheme mdText = Some captured
        /\ trim captured <> []
        /\ toLowerCase (trim captured) <> lit "none"
        /\ pkgName = Wrapper.derivePkgName (trim captured).
Proof.
  unfold Wrapper.themePackage, strictEq. split.
  - destruct (Wrapper.matchTheme mdText) as [captured|]; [|done].
    destruct (trim captured) as [|c rest] eqn:Htrim; [done|]. cbn [truthy andb].
    case_bool_decide as Hnone; [done|]. intros [= <-].
    exists captured. by rewrite Htrim.
  - intros (captured & -> & Hne & Hnone & ->).
    destruct (trim captured) as [|c rest]; [done|]. cbn [truthy andb].
    by rewrite bool_decide_eq_false_2.
Qed.




(** The exporter reads back the theme the builder wrote. *)
Example themePackage_of_built_deck :
  Wrapper.themePackage (Builder.buildMarkdown (Examples.themedDeck (lit "seriph")))
  = Some (lit "@slidev/theme-seriph")
  /\ Wrapper.themePackage (Builder.buildMarkdown (Examples.themedDeck (lit "None"))) = None
  /\ Wrapper.themePackage (Builder.buildMarkdown Examples.specDeck) = None.
Proof. repeat split; vm_compute; reflexivity. Qed.

(** The capture gives characters back until a delimiter follows it. *)
Example matchTheme_backtracks :
  Wrapper.matchTheme (lit "---" ++ nl ++ lit "theme: foo---") = Some (lit "foo")
  /\ Wrapper.matchTheme (lit "---" ++ nl ++ lit "theme: " ++ dq ++ lit "a b" ++ dq ++ nl
                            ++ lit "---") = Some (lit "a b")
  /\ Wrapper.matchTheme (lit "x---" ++ nl ++ lit "theme: a" ++ nl ++ lit "---") = None.
Proof. repeat split; vm_compute; reflexivity. Qed.

(** ** Staging and verifying *)

(** A whole export on the rendering host: six commands are spawned, the
    artifact is found under the renderer's default name, copied to the
    requested path and reported there with the slide count of the document. *)
Example export_end_to_end :
  let outcome :=
    Server.export_to_pdf (H := Examples.renderingHost)
      (Examples.exportOf (lit "/tmp/deck.md")) Examples.savedWorld in
  outcome.1
  = Returned (ExportPayload.mk (lit "PDF exported successfully! File saved at: /tmp/deck.pdf")
                (lit "/tmp/deck.pdf") 2 true)
  /\ length (execLog outcome.2) = 6%nat
  /\ fs outcome.2 !! lit "/tmp/deck.pdf" = Some (File (lit "%PDF"))
  /\ fs outcome.2
       !! lit "/home/u/.local/share/precursor/slidev_project/slides/deck-ba22524d.md"
     = Some (File (Builder.buildMarkdown Examples.specDeck)).
Proof. cbv zeta. repeat split; vm_compute; reflexivity. Qed.

Section StagingFacts.
Context `{Host}.

Lemma stagedMdName_same_base (p1 p2 : list N) :
  basename p1 = basename p2 ->
  Wrapper.stagedMdName p1 = Wrapper.stagedMdName p2 <-> Wrapper.mdHash p1 = Wrapper.mdHash p2.
Proof.
  intros Hbase. unfold Wrapper.stagedMdName. cbv zeta. rewrite Hbase. split.
  - intros Heq. apply app_inv_head in Heq. apply app_inv_head in Heq.
    by apply app_inv_tail in Heq.
  - by intros ->.
Qed.

(** A staging step that returns has copied the input, whatever its content,
    to the staged path. *)
Lemma stage_copies (canonicalRoot mdPath content : list N) (w w' : World) :
  Fs.entry w mdPath = Some (File content) ->
  Wrapper.stage canonicalRoot mdPath w = (Returned tt, w') ->
  Fs.entry w' (Wrapper.stagedMdAbsPath canonicalRoot mdPath) = Some (File content).
Proof.
  intros Hfile. unfold Wrapper.stage. cbv zeta.
  set (slidesDir := join [canonicalRoot; lit "slides"]).
  set (dst := Wrapper.stagedMdAbsPath canonicalRoot mdPath).
  unfold mbind at 1, M_bind at 1. unfold Fs.existsSync at 1.
  unfold mbind at 1, M_bind at 1.
  assert (forall w1, Fs.entry w1 mdPath = Some (File content) ->
            (tryCatch (Fs.copyFileSync mdPath dst) (fun stageErr => throw stageErr);;
             Fs.chdir canonicalRoot) w1 = (Returned tt, w') ->
            Fs.entry w' dst = Some (File content)) as Hrest.
  { intros w1 Hfile1. unfold mbind, M_bind, tryCatch.
    destruct (Fs.copyFileSync mdPath dst w1) as [[[]|e] w2] eqn:Hcopy; [|done].
    apply copyFileSync_returned in Hcopy as [Hdst _]. rewrite Hfile1 in Hdst.
    unfold Fs.chdir. destruct (Fs.entry w2 canonicalRoot) as [[|]|]; [done| |done].
    by intros [= <-]. }
  destruct (bool_decide _); [apply Hrest, Hfile|].
  pose proof (mkdirSync_present slidesDir mdPath w) as Hkept.
  destruct (Fs.mkdirSync slidesDir w) as [[[]|e] w1]; [|done].
  apply Hrest. cbn [snd] in Hkept. rewrite Hkept; [done | by rewrite Hfile].
Qed.

(** C9 (as amended): the staged name is the base name without [.md], a
    dash, the first eight hexadecimal digits of the SHA-1 of the resolved
    path, and [.md]; staging copies the input to that name whatever its
    content; and two paths of the same base name receive distinct staged
    names exactly when those eight digits differ. *)
Theorem C9_staged_name :
  (forall mdPath,
      Wrapper.stagedMdName mdPath
      = stripMdExt (basename mdPath) ++ lit "-" ++ take 8 (Sha1.sha1Hex mdPath) ++ lit ".md")
  /\ (forall canonicalRoot mdPath content w w',
        Fs.entry w mdPath = Some (File content) ->
        Wrapper.stage canonicalRoot mdPath w = (Returned tt, w') ->
        Fs.entry w' (join [canonicalRoot; join [lit "slides"; Wrapper.stagedMdName mdPath]])
        = Some (File content))
  /\ (forall p1 p2,
        basename p1 = basename p2 ->
        Wrapper.stagedMdName p1 <> Wrapper.stagedMdName p2
        <-> take 8 (Sha1.sha1Hex p1) <> take 8 (Sha1.sha1Hex p2)).
Proof.
  split; [done|]. split; [apply stage_copies|].
  intros p1 p2 Hbase. by rewrite stagedMdName_same_base.
Qed.

Lemma firstExistingIs_present (w : World) (candidates : list (list N)) (p : list N) :
  Spec.firstExistingIs w candidates p -> is_Some (Fs.entry w p).
Proof. by intros (? & ? & _ & ? & _). Qed.

(** A directory that is the first candidate to exist is reported as the
    artifact: at the requested path as it is, elsewhere after the attempt to
    copy it has failed. *)
Lemma verify_reports_directory (w : World) (candidates : list (list N))
    (outputPath actual : list N) :
  Spec.firstExistingIs w candidates actual -> Fs.entry w actual = Some Dir ->
  Wrapper.verify candidates outputPath w = (Returned (Spec.exported actual), w).
Proof.
  intros Hfirst Hdir.
  pose proof (firstExistingIs_present _ _ _ Hfirst) as Hsome.
  pose proof (entry_truthy _ _ Hsome) as Htruthy.
  unfold Wrapper.verify.
  rewrite (bind_returned _ _ w w (Some actual)) by by apply firstExisting_first.
  cbn [truthyOpt from_option id]. rewrite Htruthy. cbn [andb].
  destruct (negb (strictEq actual outputPath)).
  - erewrite bind_returned; last first.
    { erewrite tryCatch_thrown; [reflexivity|].
      erewrite bind_thrown; [reflexivity|]. unfold Fs.copyFileSync. by rewrite Hdir. }
    cbn [truthyOpt from_option id]. rewrite Htruthy.
    by rewrite (bind_returned _ _ w w tt) by by apply stat_present.
  - rewrite (bind_returned _ _ w w (Some actual)) by done.
    cbn [truthyOpt from_option id]. rewrite Htruthy.
    by rewrite (bind_returned _ _ w w tt) by by apply stat_present.
Qed.

End StagingFacts.

(** C7: the search of the Verifying step takes a directory for the
    artifact.  The deck [/tmp/deck.md] is exported to [/out/slides], and the
    renderer writes its default [slides-export.pdf] into the project.  The
    wrapper reports success with the staging directory [slides] of the
    project as the PDF: it is the first candidate that exists, the attempt to
    copy it fails silently, the file the renderer wrote is not reached, and
    nothing is at the requested path. *)
Theorem C7_directory_reported_as_artifact :
  let project := lit "/home/u/.local/share/precursor/slidev_project" in
  let outcome :=
    Wrapper.exportToPDF (H := Examples.renderingHost) (lit "/tmp/deck.md")
      (lit "/out/slides") Cases.plainOptions Examples.savedWorld in
  outcome.1 = Returned (Spec.exported (project ++ lit "/slides"))
  /\ Fs.entry outcome.2 (project ++ lit "/slides") = Some Dir
  /\ Fs.entry outcome.2 (project ++ lit "/slides-export.pdf") = Some (File (lit "%PDF"))
  /\ Fs.entry outcome.2 (lit "/out/slides") = None.
Proof. cbv zeta. repeat split; vm_compute; reflexivity. Qed.

(** Two decks of the same base name in sibling directories are staged
    under different names, their hash prefixes being different. *)
Lemma C9_staged_name_witness :
  Posix.basename (lit "/decks/a/talk.md") = Posix.basename (lit "/decks/b/talk.md")
  /\ take 8 (Sha1.sha1Hex (lit "/decks/a/talk.md"))
     <> take 8 (Sha1.sha1Hex (lit "/decks/b/talk.md"))
  /\ Wrapper.stagedMdName (H := Examples.openHost) (lit "/decks/a/talk.md")
     <> Wrapper.stagedMdName (H := Examples.openHost) (lit "/decks/b/talk.md").
Proof.
  assert (take 8 (Sha1.sha1Hex (lit "/decks/a/talk.md"))
          <> take 8 (Sha1.sha1Hex (lit "/decks/b/talk.md"))) as Hhash.
  { vm_compute. discriminate. }
  split; [vm_compute; reflexivity|]. split; [exact Hhash|].
  apply (proj2 (proj2 (C9_staged_name (H := Examples.openHost))));
    [vm_compute; reflexivity | exact Hhash].
Defined.

(** C9 (as stated) fails: these two paths differ, share the base name
    [talk.md], and are both staged as [talk-5dc7a1d6.md]. *)
Lemma C9_staged_name_collision :
  Examples.talkA <> Examples.talkB
  /\ Posix.basename Examples.talkA = Posix.basename Examples.talkB
  /\ Wrapper.stagedMdName (H := Examples.openHost) Examples.talkA = lit "talk-5dc7a1d6.md"
  /\ Wrapper.stagedMdName (H := Examples.openHost) Examples.talkB = lit "talk-5dc7a1d6.md".
Proof.
  split; [vm_compute; discriminate|]. repeat split; vm_compute; reflexivity.
Qed.

(** * Further properties of the code *)

(** ** Outcomes and frames of computations *)

Section OutcomeFacts.
Context {A B : Type}.

Lemma bind_inv (m : M A) (f : A -> M B) (w w' : World) (b : B) :
  (m ≫= f) w = (Returned b, w') ->
  exists a w1, m w = (Returned a, w1) /\ f a w1 = (Returned b, w').
Proof.
  unfold mbind, M_bind. destruct (m w) as [[a|e] w1]; [eauto | discriminate].
Qed.

Lemma tryCatch_inv (m : M A) (h : list N -> M A) (w w' : World) (o : Outcome A) :
  tryCatch m h w = (o, w') ->
  (exists a, o = Returned a /\ m w = (Returned a, w'))
  \/ exists e w1, m w = (Thrown e, w1) /\ h e w1 = (o, w').
Proof.
  unfold tryCatch. destruct (m w) as [[a|e] w1]; intros Heq.
  - left. exists a. by inversion Heq.
  - right. eauto.
Qed.

Lemma neverThrows_ret (a : A) : Behaviour.neverThrows (mret a : M A).
Proof. intros w. by exists a, w. Qed.

Lemma neverThrows_bind (m : M A) (f : A -> M B) :
  Behaviour.neverThrows m -> (forall a, Behaviour.neverThrows (f a)) ->
  Behaviour.neverThrows (m ≫= f).
Proof.
  intros Hm Hf w. destruct (Hm w) as (a & w1 & Hmw).
  destruct (Hf a w1) as (b & w2 & Hfw). exists b, w2.
  by rewrite (bind_returned _ _ _ _ _ Hmw).
Qed.

Lemma neverThrows_tryCatch (m : M A) (h : list N -> M A) :
  (forall e, Behaviour.neverThrows (h e)) -> Behaviour.neverThrows (tryCatch m h).
Proof.
  intros Hh w. unfold tryCatch. destruct (m w) as [[a|e] w1]; [by exists a, w1 | apply Hh].
Qed.

Lemma preserves_ret {C : Type} (observe : World -> C) (a : A) :
  Behaviour.preserves observe (mret a : M A).
Proof. by intros w. Qed.

Lemma preserves_throw {C : Type} (observe : World -> C) (e : list N) :
  Behaviour.preserves observe (throw e : M A).
Proof. by intros w. Qed.

Lemma preserves_bind {C : Type} (observe : World -> C) (m : M A) (f : A -> M B) :
  Behaviour.preserves observe m -> (forall a, Behaviour.preserves observe (f a)) ->
  Behaviour.preserves observe (m ≫= f).
Proof.
  intros Hm Hf w. unfold mbind, M_bind. specialize (Hm w).
  destruct (m w) as [[a|e] w1]; cbn in *; [by rewrite Hf | done].
Qed.

Lemma preserves_tryCatch {C : Type} (observe : World -> C) (m : M A)
    (h : list N -> M A) :
  Behaviour.preserves observe m -> (forall e, Behaviour.preserves observe (h e)) ->
  Behaviour.preserves observe (tryCatch m h).
Proof.
  intros Hm Hh w. unfold tryCatch. specialize (Hm w).
  destruct (m w) as [[a|e] w1]; cbn in *; [done | by rewrite Hh].
Qed.

End OutcomeFacts.

Section FrameFacts.
Context `{Host}.

Lemma existsSync_spec (p : list N) (w : World) :
  Fs.existsSync p w = (Returned (bool_decide (is_Some (Fs.entry w p))), w).
Proof. done. Qed.

Lemma preserves_existsSync {C : Type} (observe : World -> C) (p : list N) :
  Behaviour.preserves observe (Fs.existsSync p).
Proof. by intros w. Qed.

Lemma preserves_processCwd {C : Type} (observe : World -> C) :
  Behaviour.preserves observe Fs.processCwd.
Proof. by intros w. Qed.

Lemma preserves_readFileSync {C : Type} (observe : World -> C) (p : list N) :
  Behaviour.preserves observe (Fs.readFileSync p).
Proof. intros w. unfold Fs.readFileSync. by destruct (Fs.entry w p) as [[]|]. Qed.

Lemma preserves_stat {C : Type} (observe : World -> C) (p : list N) :
  Behaviour.preserves observe (Fs.stat p).
Proof. intros w. unfold Fs.stat. by destruct (Fs.entry w p). Qed.

Lemma preserves_firstExisting {C : Type} (observe : World -> C)
    (paths : list (list N)) :
  Behaviour.preserves observe (Fs.firstExisting paths).
Proof.
  induction paths as [|p rest IH]; cbn [Fs.firstExisting].
  - apply preserves_ret.
  - apply preserves_bind; [apply preserves_existsSync|].
    intros []; [apply preserves_ret | done].
Qed.

(** Operations that change the file system only. *)
Lemma mkdirSync_frame (p : list N) (w : World) :
  cwd (Fs.mkdirSync p w).2 = cwd w
  /\ presentationName (Fs.mkdirSync p w).2 = presentationName w
  /\ execLog (Fs.mkdirSync p w).2 = execLog w.
Proof. apply makeDirs_frame. Qed.

Lemma copyFileSync_frame (src dst : list N) (w : World) :
  cwd (Fs.copyFileSync src dst w).2 = cwd w
  /\ presentationName (Fs.copyFileSync src dst w).2 = presentationName w
  /\ execLog (Fs.copyFileSync src dst w).2 = execLog w.
Proof.
  unfold Fs.copyFileSync. destruct (Fs.entry w src) as [[]|]; [| done | done].
  destruct (Fs.parentFault w dst); [done|].
  destruct (Fs.entry w dst) as [[]|]; [| done |]; by destruct (Fs.mayWrite dst).
Qed.

Lemma execSync_frame (command dir : list N) (w : World) :
  cwd (Fs.execSync command dir w).2 = cwd w
  /\ presentationName (Fs.execSync command dir w).2 = presentationName w
  /\ execLog (Fs.execSync command dir w).2 = command :: execLog w.
Proof.
  unfold Fs.execSync. cbv zeta.
  by destruct (shellError (shell command dir (execLog w) (fs w))).
Qed.

Lemma preserves_cwd_mkdirSync (p : list N) : Behaviour.preserves cwd (Fs.mkdirSync p).
Proof. intros w. apply mkdirSync_frame. Qed.

Lemma preserves_cwd_copyFileSync (src dst : list N) :
  Behaviour.preserves cwd (Fs.copyFileSync src dst).
Proof. intros w. apply copyFileSync_frame. Qed.

Lemma preserves_cwd_execSync (command dir : list N) :
  Behaviour.preserves cwd (Fs.execSync command dir).
Proof. intros w. apply execSync_frame. Qed.

Lemma preserves_log_mkdirSync (p : list N) : Behaviour.preserves execLog (Fs.mkdirSync p).
Proof. intros w. apply mkdirSync_frame. Qed.

Lemma preserves_log_copyFileSync (src dst : list N) :
  Behaviour.preserves execLog (Fs.copyFileSync src dst).
Proof. intros w. apply copyFileSync_frame. Qed.

Lemma neverThrows_existsSync (p : list N) : Behaviour.neverThrows (Fs.existsSync p).
Proof. intros w. eauto. Qed.

Lemma neverThrows_processCwd : Behaviour.neverThrows Fs.processCwd.
Proof. intros w. by exists (cwd w), w. Qed.

End FrameFacts.

Create HintDb effects.

#[export] Hint Resolve preserves_ret preserves_throw preserves_existsSync
  preserves_processCwd preserves_readFileSync preserves_stat preserves_firstExisting
  preserves_cwd_mkdirSync preserves_cwd_copyFileSync preserves_cwd_execSync
  preserves_log_mkdirSync preserves_log_copyFileSync
  neverThrows_ret neverThrows_existsSync neverThrows_processCwd : effects.

(** Splits a goal on a composed computation into goals on its steps. *)
Ltac effects :=
  repeat first
    [ apply preserves_bind; [| intros ?]
    | apply preserves_tryCatch; [| intros ?]
    | apply neverThrows_bind; [| intros ?]
    | apply neverThrows_tryCatch; intros ?
    | match goal with
      | |- Behaviour.preserves _ (if ?b then _ else _) => destruct b
      | |- Behaviour.neverThrows (if ?b then _ else _) => destruct b
      | |- Behaviour.preserves _ (match ?o with Some _ => _ | None => _ end) => destruct o
      | |- Behaviour.neverThrows (match ?o with Some _ => _ | None => _ end) => destruct o
      end
    | solve [auto with effects] ].

(** ** The steps of the export wrapper *)

Section WrapperFacts.
Context `{Host}.

Lemma firstExisting_outcome (candidates : list (list N)) (w : World) :
  exists found,
    Fs.firstExisting candidates w = (Returned found, w)
    /\ match found with
       | Some p => Spec.firstExistingIs w candidates p
       | None => Spec.noneExists w candidates
       end.
Proof.
  induction candidates as [|q rest IH]; cbn [Fs.firstExisting].
  - exists None. split; [done|]. intros q Hq. by apply elem_of_nil in Hq.
  - destruct (Fs.entry w q) as [node|] eqn:Hq.
    + exists (Some q). split.
      * erewrite bind_returned by (apply existsSync_present; by rewrite Hq). done.
      * exists [], rest. split_and!; [done | by rewrite Hq |].
        intros x Hx. by apply elem_of_nil in Hx.
    + destruct IH as (found & Hrun & Hfound). exists found. split.
      * erewrite bind_returned by (by apply existsSync_absent). done.
      * destruct found as [p|].
        -- destruct Hfound as (before & after & -> & Hp & Hbefore).
           exists (q :: before), after. split_and!; [done | done |].
           intros x [->|Hx]%elem_of_cons; [done | by apply Hbefore].
        -- intros x [->|Hx]%elem_of_cons; [done | by apply Hfound].
Qed.

(** X1: locating the input never changes the world; it returns the first
    candidate that exists, and throws, naming the input as it was given,
    exactly when none does. *)
Theorem locate_first_candidate (inputFile : list N) (w : World) :
  let candidates := Wrapper.possiblePaths (cwd w) inputFile in
  let outcome := Wrapper.locate inputFile w in
  outcome.2 = w
  /\ match outcome.1 with
     | Returned mdPath => Spec.firstExistingIs w candidates mdPath
     | Thrown message =>
         message = lit "Input file not found: " ++ inputFile
         /\ Spec.noneExists w candidates
     end.
Proof.
  cbv zeta. unfold Wrapper.locate.
  destruct (firstExisting_outcome (Wrapper.possiblePaths (cwd w) inputFile) w)
    as (found & Hrun & Hfound).
  erewrite bind_returned by reflexivity.
  erewrite bind_returned by exact Hrun.
  destruct found as [p|]; cbn [truthyOpt].
  - assert (Hp : truthy p = true).
    { destruct Hfound as (? & ? & _ & Hp & _). by apply entry_truthy in Hp. }
    rewrite Hp. by split.
  - by split.
Qed.

Lemma execSync_outcome (command dir : list N) (w : World) :
  let r := shell command dir (execLog w) (fs w) in
  Fs.execSync command dir w
  = (match shellError r with Some e => Thrown e | None => Returned tt end,
     setFs (shellFs r) (logExec command w)).
Proof. cbv zeta. unfold Fs.execSync. cbv zeta. by destruct (shellError _). Qed.

Lemma neverThrows_swallow {A : Type} (m : M A) (a : A) :
  Behaviour.neverThrows (tryCatch m (fun _ => mret a)).
Proof. apply neverThrows_tryCatch. intros e. apply neverThrows_ret. Qed.

Lemma preserves_cwd_ensurePackage (root pkg : list N) :
  Behaviour.preserves cwd (Wrapper.ensurePackage root pkg).
Proof. unfold Wrapper.ensurePackage. effects. Qed.

Lemma preserves_cwd_prepare (root : list N) : Behaviour.preserves cwd (Wrapper.prepare root).
Proof. unfold Wrapper.prepare. effects. all: apply preserves_cwd_ensurePackage. Qed.

Lemma preserves_cwd_ensurePlaywright (root : list N) :
  Behaviour.preserves cwd (Wrapper.ensurePlaywright root).
Proof. unfold Wrapper.ensurePlaywright. effects. Qed.

Lemma preserves_cwd_ensureTheme (root mdPath : list N) :
  Behaviour.preserves cwd (Wrapper.ensureTheme root mdPath).
Proof. unfold Wrapper.ensureTheme. effects. Qed.

Lemma neverThrows_ensurePlaywright (root : list N) :
  Behaviour.neverThrows (Wrapper.ensurePlaywright root).
Proof.
  unfold Wrapper.ensurePlaywright. apply neverThrows_bind.
  - apply neverThrows_tryCatch. intros _. apply neverThrows_swallow.
  - intros _. apply neverThrows_swallow.
Qed.

Lemma neverThrows_ensureTheme (root mdPath : list N) :
  Behaviour.neverThrows (Wrapper.ensureTheme root mdPath).
Proof. unfold Wrapper.ensureTheme. apply neverThrows_swallow. Qed.

Lemma preserves_cwd_tryCommands (root : list N) (commands : list (list N)) (i : nat)
    (lastError : option (list N)) :
  Behaviour.preserves cwd (Wrapper.tryCommands root commands i lastError).
Proof.
  revert i lastError. induction commands as [|command rest IH]; intros i lastError;
    cbn [Wrapper.tryCommands]; [apply preserves_ret|].
  apply preserves_bind; [effects|]. intros [cmdError|]; [|apply preserves_ret].
  apply preserves_bind; [effects | intros _; apply IH].
Qed.

Lemma preserves_cwd_runExport (root : list N) (commands : list (list N)) :
  Behaviour.preserves cwd (Wrapper.runExport root commands).
Proof.
  unfold Wrapper.runExport. apply preserves_bind; [apply preserves_cwd_tryCommands|].
  intros [e|]; [apply preserves_throw | apply preserves_ret].
Qed.

Lemma preserves_cwd_verify (candidates : list (list N)) (outputPath : list N) :
  Behaviour.preserves cwd (Wrapper.verify candidates outputPath).
Proof. unfold Wrapper.verify. effects. Qed.

End WrapperFacts.

Section PrepareFacts.
Context `{Host}.

(** [if (!existsSync(p)) mkdirSync(p, { recursive: true })], then [rest]. *)
Lemma ensureDir_then {A : Type} (p : list N) (rest : M A) (w : World) :
  (present ← Fs.existsSync p;
   (if present : bool then mret tt else Fs.mkdirSync p);; rest) w
  = match Fs.entry w p with
    | Some _ => rest w
    | None => (Fs.mkdirSync p;; rest) w
    end.
Proof.
  destruct (Fs.entry w p) as [node|] eqn:Hp.
  - erewrite bind_returned by (apply existsSync_present; by rewrite Hp).
    by erewrite bind_returned by reflexivity.
  - by erewrite bind_returned by (by apply existsSync_absent).
Qed.

(** X2: preparing fails only when the project directory is missing and
    making it, with its missing ancestors, fails: then the failure is the
    one of [mkdirSync], and nothing was spawned.  A missing directory is made
    only if it may be written.  Whatever the spawned installers do, the step
    returns once the directory is there, and the working directory is as it
    was. *)
Theorem prepare_survives_installers (canonicalRoot : list N) (w : World) :
  match Fs.entry w canonicalRoot with
  | Some _ =>
      exists w', Wrapper.prepare canonicalRoot w = (Returned tt, w') /\ cwd w' = cwd w
  | None =>
      match Fs.mkdirSync canonicalRoot w with
      | (Returned _, _) =>
          Fs.mayWrite canonicalRoot = true
          /\ exists w',
               Wrapper.prepare canonicalRoot w = (Returned tt, w') /\ cwd w' = cwd w
      | (Thrown message, w1) =>
          Wrapper.prepare canonicalRoot w = (Thrown message, w1)
          /\ execLog w1 = execLog w
      end
  end.
Proof.
  pose proof (preserves_cwd_prepare canonicalRoot w) as Hcwd.
  unfold Wrapper.prepare in *. rewrite ensureDir_then in *.
  assert (Hrest : forall w1, exists w',
            tryCatch
              (hasPackageJson ← Fs.existsSync (join [canonicalRoot; lit "package.json"]);
               (if hasPackageJson : bool then mret tt
                else Fs.execSync (lit "npm init -y") canonicalRoot);;
               Wrapper.ensurePackage canonicalRoot (lit "@slidev/cli");;
               Wrapper.ensurePackage canonicalRoot (lit "@slidev/theme-default"))
              (fun _ => mret tt) w1 = (Returned tt, w')).
  { intros w1. destruct (neverThrows_swallow
      (hasPackageJson ← Fs.existsSync (join [canonicalRoot; lit "package.json"]);
               (if hasPackageJson : bool then mret tt
                else Fs.execSync (lit "npm init -y") canonicalRoot);;
               Wrapper.ensurePackage canonicalRoot (lit "@slidev/cli");;
               Wrapper.ensurePackage canonicalRoot (lit "@slidev/theme-default")) tt w1)
      as ([] & w' & Hrun). by exists w'. }
  destruct (Fs.entry w canonicalRoot) as [node|] eqn:Hentry.
  - destruct (Hrest w) as (w' & Hrun). rewrite Hrun in *. by exists w'.
  - destruct (Fs.mkdirSync canonicalRoot w) as [[[]|message] w1] eqn:Hmk.
    + split.
      { destruct (Fs.mayWrite canonicalRoot) eqn:Hwrite; [done|].
        destruct (mkdirSync_denied canonicalRoot w Hentry Hwrite) as (e & w2 & Hthrown).
        congruence. }
      destruct (Hrest w1) as (w' & Hrun). exists w'.
      erewrite bind_returned in Hcwd by exact Hmk.
      erewrite bind_returned by exact Hmk. rewrite Hrun in *. done.
    + split; [by erewrite bind_thrown by exact Hmk|].
      pose proof (mkdirSync_frame canonicalRoot w) as (_ & _ & Hlog).
      by rewrite Hmk in Hlog.
Qed.

(** X3: the browser step and the theme step return from every world, whatever
    the commands they spawn do, and leave the working directory as it was. *)
Theorem dependency_steps_never_throw (canonicalRoot mdPath : list N) :
  Behaviour.neverThrows (Wrapper.ensurePlaywright canonicalRoot)
  /\ Behaviour.neverThrows (Wrapper.ensureTheme canonicalRoot mdPath)
  /\ Behaviour.preserves cwd (Wrapper.ensurePlaywright canonicalRoot)
  /\ Behaviour.preserves cwd (Wrapper.ensureTheme canonicalRoot mdPath).
Proof.
  split_and!;
    [ apply neverThrows_ensurePlaywright | apply neverThrows_ensureTheme
    | apply preserves_cwd_ensurePlaywright | apply preserves_cwd_ensureTheme ].
Qed.

(** X4: the theme step spawns a process only for a readable document that names
    a theme package: it probes the package first and installs it only when
    the probe fails. *)
Theorem ensureTheme_probes_before_installing (canonicalRoot mdPath : list N) (w : World) :
  let w' := (Wrapper.ensureTheme canonicalRoot mdPath w).2 in
  match Fs.entry w mdPath with
  | Some (File mdText) =>
      match Wrapper.themePackage mdText with
      | Some pkgName =>
          let probe := shell (Wrapper.resolveCommand pkgName) canonicalRoot
                             (execLog w) (fs w) in
          execLog w'
          = match shellError probe with
            | Some _ =>
                [Wrapper.installCommand pkgName; Wrapper.resolveCommand pkgName] ++ execLog w
            | None => [Wrapper.resolveCommand pkgName] ++ execLog w
            end
      | None => w' = w
      end
  | _ => w' = w
  end.
Proof.
  cbv zeta.
  destruct (Fs.entry w mdPath) as [[mdText|]|] eqn:Hentry.
  - assert (Hread : Fs.readFileSync mdPath w = (Returned mdText, w))
      by (unfold Fs.readFileSync; by rewrite Hentry).
    destruct (Wrapper.themePackage mdText) as [pkgName|] eqn:Hpkg;
      unfold Wrapper.ensureTheme, tryCatch at 1;
      erewrite bind_returned by exact Hread; rewrite Hpkg; [| done].
    unfold tryCatch. rewrite execSync_outcome. cbv zeta.
    destruct (shellError (shell (Wrapper.resolveCommand pkgName) canonicalRoot _ _))
      as [e|]; [| done].
    fold (Wrapper.installCommand pkgName).
    rewrite execSync_outcome. cbv zeta.
    by destruct (shellError (shell (Wrapper.installCommand pkgName) canonicalRoot _ _)).
  - unfold Wrapper.ensureTheme, tryCatch at 1.
    by erewrite bind_thrown by (unfold Fs.readFileSync; by rewrite Hentry).
  - unfold Wrapper.ensureTheme, tryCatch at 1.
    by erewrite bind_thrown by (unfold Fs.readFileSync; by rewrite Hentry).
Qed.

End PrepareFacts.

Section StageFacts.
Context `{Host}.

Lemma entry_setCwd (dir p : list N) (w : World) : Fs.entry (setCwd dir w) p = Fs.entry w p.
Proof. done. Qed.

Lemma entry_insert (w : World) (p q : list N) (node : Node) :
  Fs.entry (setFs (<[p := node]> (fs w)) w) q
  = if decide (p = q) then (if truthy q then Some node else None) else Fs.entry w q.
Proof.
  destruct (decide (p = q)) as [->|Hne].
  - unfold Fs.entry. cbn. destruct (truthy q); [by rewrite lookup_insert_eq | done].
  - by apply entry_insert_ne.
Qed.

Lemma chdir_outcome (dir : list N) (w : World) :
  Fs.chdir dir w
  = match Fs.entry w dir with
    | Some Dir => (Returned tt, setCwd dir w)
    | _ => (Thrown (lit "ENOENT: no such file or directory, chdir " ++ cwd w
                      ++ lit " -> '" ++ dir ++ lit "'"), w)
    end.
Proof. done. Qed.

(** The copy and the change of directory that end the staging step. *)
Lemma stage_copy_outcome (canonicalRoot mdPath : list N) (w : World) :
  let outcome :=
    (tryCatch (Fs.copyFileSync mdPath (Wrapper.stagedMdAbsPath canonicalRoot mdPath))
              (fun stageErr => throw stageErr);;
     Fs.chdir canonicalRoot) w in
  execLog outcome.2 = execLog w
  /\ match outcome.1 with
     | Returned _ =>
         cwd outcome.2 = canonicalRoot
         /\ Fs.entry outcome.2 canonicalRoot = Some Dir
         /\ exists content,
              Fs.entry w mdPath = Some (File content)
              /\ Fs.entry outcome.2 mdPath = Some (File content)
              /\ Fs.entry outcome.2 (Wrapper.stagedMdAbsPath canonicalRoot mdPath)
                 = Some (File content)
     | Thrown _ => cwd outcome.2 = cwd w
     end.
Proof.
  cbv zeta. set (staged := Wrapper.stagedMdAbsPath canonicalRoot mdPath).
  unfold mbind, M_bind, tryCatch, throw, Fs.copyFileSync.
  destruct (Fs.entry w mdPath) as [[content|]|] eqn:Hsrc; [| done | done].
  assert (Hcopied : forall w1, w1 = setFs (<[staged := File content]> (fs w)) w ->
            Fs.mayWrite staged = true ->
            execLog (Fs.chdir canonicalRoot w1).2 = execLog w
            /\ match (Fs.chdir canonicalRoot w1).1 with
               | Returned _ =>
                   cwd (Fs.chdir canonicalRoot w1).2 = canonicalRoot
                   /\ Fs.entry (Fs.chdir canonicalRoot w1).2 canonicalRoot = Some Dir
                   /\ exists content0,
                        Some (File content) = Some (File content0)
                        /\ Fs.entry (Fs.chdir canonicalRoot w1).2 mdPath
                           = Some (File content0)
                        /\ Fs.entry (Fs.chdir canonicalRoot w1).2 staged
                           = Some (File content0)
               | Thrown _ => cwd (Fs.chdir canonicalRoot w1).2 = cwd w
               end).
  { intros w1 -> Hwrite. rewrite chdir_outcome.
    destruct (Fs.entry _ canonicalRoot) as [[]|] eqn:Hroot; [done | | done].
    cbn [fst snd]. split; [done|]. split; [done|]. split; [by rewrite entry_setCwd|].
    exists content. split; [done|]. rewrite !entry_setCwd, !entry_insert.
    apply andb_prop in Hwrite as [Htruthy _].
    split.
    - destruct (decide (staged = mdPath)) as [Heq|]; [|done].
      rewrite <- Heq at 1. by rewrite Htruthy.
    - rewrite decide_True by done. by rewrite Htruthy. }
  destruct (Fs.parentFault w staged); [done|].
  destruct (Fs.entry w staged) as [[]|]; [| done |];
    (destruct (Fs.mayWrite staged) eqn:Hwrite; [by apply Hcopied | done]).
Qed.

(** X5: staging copies the document, never moves it, spawns nothing, and makes
    the project the working directory only when it succeeds. *)
Theorem stage_copies_and_enters_project (canonicalRoot mdPath : list N) (w : World) :
  let outcome := Wrapper.stage canonicalRoot mdPath w in
  execLog outcome.2 = execLog w
  /\ match outcome.1 with
     | Returned _ =>
         cwd outcome.2 = canonicalRoot
         /\ Fs.entry outcome.2 canonicalRoot = Some Dir
         /\ exists content,
              Fs.entry w mdPath = Some (File content)
              /\ Fs.entry outcome.2 mdPath = Some (File content)
              /\ Fs.entry outcome.2 (Wrapper.stagedMdAbsPath canonicalRoot mdPath)
                 = Some (File content)
     | Thrown _ => cwd outcome.2 = cwd w
     end.
Proof.
  cbv zeta. unfold Wrapper.stage. cbv zeta. rewrite ensureDir_then.
  set (slidesDir := join [canonicalRoot; lit "slides"]).
  destruct (Fs.entry w slidesDir) as [node|] eqn:Hdir.
  - apply stage_copy_outcome.
  - pose proof (mkdirSync_frame slidesDir w) as (Hcwd0 & _ & Hlog0).
    pose proof (fun content => mkdirSync_file slidesDir mdPath content w) as Hfile.
    destruct (Fs.mkdirSync slidesDir w) as [[[]|e] w1] eqn:Hmk; cbn [fst snd] in *;
      [|by erewrite bind_thrown by exact Hmk].
    erewrite (bind_returned _ _ w w1 tt) by exact Hmk.
    pose proof (stage_copy_outcome canonicalRoot mdPath w1) as Hcopy.
    cbv zeta in Hcopy. destruct Hcopy as [Hlog Hcopy]. split; [congruence|].
    match goal with |- match ?o.1 with _ => _ end => destruct o as [[[]|e] w'] end;
      cbn [fst snd] in *; [|congruence].
    destruct Hcopy as (Hcwd & Hroot & content & Hsrc & Hkept & Hstaged).
    split; [done|]. split; [done|]. exists content. split; [by apply Hfile | done].
Qed.

(** A staging step that returned left the process in the project. *)
Lemma stage_returned_cwd (canonicalRoot mdPath : list N) (w w' : World) :
  Wrapper.stage canonicalRoot mdPath w = (Returned tt, w') -> cwd w' = canonicalRoot.
Proof.
  unfold Wrapper.stage. cbv zeta. intros Hrun.
  apply bind_inv in Hrun as (present & w1 & _ & Hrun).
  apply bind_inv in Hrun as ([] & w2 & _ & Hrun).
  apply bind_inv in Hrun as ([] & w3 & _ & Hrun).
  rewrite chdir_outcome in Hrun.
  destruct (Fs.entry w3 canonicalRoot) as [[]|]; [discriminate | | discriminate].
  by injection Hrun as <-.
Qed.

End StageFacts.

Section RunExportFacts.
Context `{Host}.

(** One pass of the loop body: the command is run and its failure kept. *)
Lemma attempt_outcome (command root : list N) (w : World) :
  let r := shell command root (execLog w) (fs w) in
  tryCatch (Fs.execSync command root;; mret None) (fun cmdError => mret (Some cmdError)) w
  = (Returned (shellError r), setFs (shellFs r) (logExec command w)).
Proof.
  cbv zeta. unfold tryCatch, mbind, M_bind. rewrite execSync_outcome. cbv zeta.
  by destruct (shellError _).
Qed.

Lemma tryCommands_outcome (root : list N) (commands : list (list N)) (i : nat)
    (lastError : option (list N)) (w : World) :
  exists failed w',
    Wrapper.tryCommands root commands i lastError w = (Returned failed, w')
    /\ match failed with
       | None => exists command, command ∈ commands /\ Behaviour.cleanRun command root w'
       | Some message =>
           match last commands with
           | None => message = default (lit "All export methods failed") lastError /\ w' = w
           | Some command =>
               exists earlier files,
                 shellError (shell command root earlier files) = Some message
           end
       end.
Proof.
  revert i lastError w. induction commands as [|command rest IH]; intros i lastError w.
  - cbn [Wrapper.tryCommands last]. eexists _, w. split; [reflexivity|]. done.
  - cbn [Wrapper.tryCommands].
    erewrite bind_returned by apply attempt_outcome.
    set (r := shell command root (execLog w) (fs w)).
    destruct (shellError r) as [cmdError|] eqn:Herr.
    + match goal with
      | |- context [(?heal ≫= ?k) ?w1] =>
          assert (Hheal : exists w2, heal w1 = (Returned tt, w2))
      end.
      { destruct (_ && _).
        - match goal with |- context [tryCatch ?m ?h ?w1] =>
            destruct (neverThrows_swallow m tt w1) as ([] & w2 & Hrun) end.
          by exists w2.
        - by eexists. }
      destruct Hheal as (w2 & Hheal). erewrite bind_returned by exact Hheal.
      destruct (IH (S i) (Some cmdError) w2) as (failed & w' & Hrun & Hfailed).
      exists failed, w'. split; [exact Hrun|].
      destruct failed as [message|].
      * destruct rest as [|next rest'].
        -- cbn [last] in *. destruct Hfailed as [-> _]. cbn [default from_option id].
           exists (execLog w), (fs w). exact Herr.
        -- rewrite last_cons_cons.
           destruct (last (next :: rest')) eqn:Hlast; [exact Hfailed|].
           by apply last_None in Hlast.
      * destruct Hfailed as (c & Hc & Hclean). exists c. split; [by right | done].
    + eexists None, _. split; [reflexivity|].
      exists command. split; [by left|]. exists (execLog w), (fs w). done.
Qed.

(** X6: the export step returns only after one of its commands exited cleanly,
    that command being the last thing it ran; when it throws, the message is
    the failure of the last command, or the fixed message when there was no
    command to run. *)
Theorem runExport_succeeds_on_clean_exit (canonicalRoot : list N)
    (commands : list (list N)) (w : World) :
  let outcome := Wrapper.runExport canonicalRoot commands w in
  match outcome.1 with
  | Returned _ =>
      exists command,
        command ∈ commands /\ Behaviour.cleanRun command canonicalRoot outcome.2
  | Thrown message =>
      match last commands with
      | None => message = lit "All export methods failed" /\ outcome.2 = w
      | Some command =>
          exists earlier files,
            shellError (shell command canonicalRoot earlier files) = Some message
      end
  end.
Proof.
  cbv zeta. unfold Wrapper.runExport.
  destruct (tryCommands_outcome canonicalRoot commands 0 None w)
    as (failed & w' & Hrun & Hfailed).
  erewrite bind_returned by exact Hrun. by destruct failed.
Qed.

(** X7: once a command exits cleanly, no later command is run. *)
Theorem runExport_stops_at_first_success (canonicalRoot command : list N)
    (rest : list (list N)) (w : World) :
  shellError (shell command canonicalRoot (execLog w) (fs w)) = None ->
  Wrapper.runExport canonicalRoot (command :: rest) w
  = (Returned tt,
     setFs (shellFs (shell command canonicalRoot (execLog w) (fs w))) (logExec command w)).
Proof.
  intros Hclean. unfold Wrapper.runExport. cbn [Wrapper.tryCommands].
  erewrite bind_returned.
  2: { erewrite bind_returned by apply attempt_outcome. rewrite Hclean. reflexivity. }
  done.
Qed.

End RunExportFacts.

(** ** The wrapper and the export handler as a whole *)

Section ExportFacts.
Context `{Host}.

Lemma preserves_log_verify (candidates : list (list N)) (outputPath : list N) :
  Behaviour.preserves execLog (Wrapper.verify candidates outputPath).
Proof. unfold Wrapper.verify. effects. Qed.

(** Uses of a frame fact on a known run. *)
Lemma preserved {A B : Type} (observe : World -> B) (m : M A) (w w' : World)
    (o : Outcome A) :
  Behaviour.preserves observe m -> m w = (o, w') -> observe w' = observe w.
Proof. intros Hm Hrun. specialize (Hm w). by rewrite Hrun in Hm. Qed.

Lemma verify_returned (candidates : list (list N)) (outputPath : list N)
    (w w' : World) (result : ExportResult.t) :
  Wrapper.verify candidates outputPath w = (Returned result, w') ->
  ExportResult.success result = true
  /\ is_Some (Fs.entry w' (ExportResult.pdfPath result))
  /\ ExportResult.message result
     = lit "PDF exported successfully: " ++ ExportResult.pdfPath result.
Proof.
  unfold Wrapper.verify. intros Hrun.
  apply bind_inv in Hrun as (found & w1 & _ & Hrun).
  apply bind_inv in Hrun as (actual & w2 & _ & Hrun).
  destruct (truthyOpt actual); [|discriminate].
  apply bind_inv in Hrun as ([] & w3 & Hstat & Hret).
  injection Hret as <- <-. unfold Fs.stat in Hstat.
  destruct (Fs.entry w2 (default [] actual)) eqn:Hentry; [|discriminate].
  injection Hstat as <-. cbn. by rewrite Hentry.
Qed.

(** What a run of the wrapper's [try] block that returns went through. *)
Lemma exportToPDF_body_returned (inputFile outputFile : list N)
    (options : ExportOptions.t) (w w' : World) (result : ExportResult.t) :
  (mdPath ← Wrapper.locate inputFile;
   startDir ← Fs.processCwd;
   let canonicalRoot := Wrapper.canonicalRootOf startDir in
   Wrapper.prepare canonicalRoot;;
   Wrapper.stage canonicalRoot mdPath;;
   projectDir ← Fs.processCwd;
   let outputPath := resolve projectDir [canonicalRoot; outputFile] in
   let desiredOutputFilename := basename outputPath in
   let outputDir := dirname outputPath in
   present ← Fs.existsSync outputDir;
   (if present : bool then mret tt else Fs.mkdirSync outputDir);;
   Wrapper.ensurePlaywright canonicalRoot;;
   Wrapper.ensureTheme canonicalRoot mdPath;;
   Wrapper.runExport canonicalRoot
     (Wrapper.exportCommands canonicalRoot (Wrapper.stagedMdRelPath mdPath)
        desiredOutputFilename options);;
   currentDir ← Fs.processCwd;
   Wrapper.verify
     (Wrapper.possibleOutputPaths canonicalRoot currentDir outputPath outputFile mdPath)
     outputPath) w = (Returned result, w') ->
  let canonicalRoot := Wrapper.canonicalRootOf (cwd w) in
  ExportResult.success result = true
  /\ is_Some (Fs.entry w' (ExportResult.pdfPath result))
  /\ ExportResult.message result
     = lit "PDF exported successfully: " ++ ExportResult.pdfPath result
  /\ cwd w' = canonicalRoot
  /\ exists mdPath command,
       Spec.firstExistingIs w (Wrapper.possiblePaths (cwd w) inputFile) mdPath
       /\ command ∈ Wrapper.exportCommands canonicalRoot (Wrapper.stagedMdRelPath mdPath)
                      (basename (resolve canonicalRoot [canonicalRoot; outputFile])) options
       /\ Behaviour.cleanRun command canonicalRoot w'.
Proof.
  intros Hrun. cbv zeta.
  apply bind_inv in Hrun as (mdPath & w1 & Hlocate & Hrun).
  assert (Hfound : w1 = w
            /\ Spec.firstExistingIs w (Wrapper.possiblePaths (cwd w) inputFile) mdPath).
  { unfold Wrapper.locate in Hlocate.
    erewrite bind_returned in Hlocate by reflexivity.
    destruct (firstExisting_outcome (Wrapper.possiblePaths (cwd w) inputFile) w)
      as (found & Hfirst & Hfound).
    erewrite bind_returned in Hlocate by exact Hfirst.
    destruct found as [p|]; cbn [truthyOpt] in Hlocate; [|discriminate].
    destruct (truthy p); [|discriminate]. by injection Hlocate as <- <-. }
  destruct Hfound as [-> Hfound].
  apply bind_inv in Hrun as (startDir & w1 & Hcwd & Hrun).
  injection Hcwd as <- <-.
  set (root := Wrapper.canonicalRootOf (cwd w)) in *. cbv zeta in Hrun.
  apply bind_inv in Hrun as ([] & w2 & Hprepare & Hrun).
  apply bind_inv in Hrun as ([] & w3 & Hstage & Hrun).
  pose proof (stage_returned_cwd _ _ _ _ Hstage) as Hroot.
  apply bind_inv in Hrun as (projectDir & w3' & Hcwd & Hrun).
  injection Hcwd as <- <-. rewrite Hroot in Hrun.
  set (outputPath := resolve root [root; outputFile]) in *.
  rewrite ensureDir_then in Hrun.
  assert (Hrest : exists w4, cwd w4 = root /\
    (Wrapper.ensurePlaywright root;;
     Wrapper.ensureTheme root mdPath;;
     Wrapper.runExport root
       (Wrapper.exportCommands root (Wrapper.stagedMdRelPath mdPath)
          (basename outputPath) options);;
     currentDir ← Fs.processCwd;
     Wrapper.verify
       (Wrapper.possibleOutputPaths root currentDir outputPath outputFile mdPath)
       outputPath) w4 = (Returned result, w')).
  { destruct (Fs.entry w3 (dirname outputPath)).
    - exists w3. split; [exact Hroot | exact Hrun].
    - apply bind_inv in Hrun as ([] & w4 & Hmade & Hrun).
      exists w4. split; [|exact Hrun].
      by rewrite (preserved cwd _ _ _ _ (preserves_cwd_mkdirSync _) Hmade). }
  clear Hrun. destruct Hrest as (w4 & Hcwd4 & Hrun).
  apply bind_inv in Hrun as ([] & w5 & Hplaywright & Hrun).
  apply (preserved cwd) in Hplaywright; [|apply preserves_cwd_ensurePlaywright].
  apply bind_inv in Hrun as ([] & w6 & Htheme & Hrun).
  apply (preserved cwd) in Htheme; [|apply preserves_cwd_ensureTheme].
  apply bind_inv in Hrun as ([] & w7 & Hexport & Hrun).
  assert (Hclean : exists command,
            command ∈ Wrapper.exportCommands root (Wrapper.stagedMdRelPath mdPath)
                        (basename outputPath) options
            /\ Behaviour.cleanRun command root w7).
  { unfold Wrapper.runExport in Hexport.
    destruct (tryCommands_outcome root
                (Wrapper.exportCommands root (Wrapper.stagedMdRelPath mdPath)
                   (basename outputPath) options) 0 None w6)
      as (failed & w7' & Hloop & Hfailed).
    erewrite bind_returned in Hexport by exact Hloop.
    destruct failed; [discriminate|]. by injection Hexport as <-. }
  apply (preserved cwd) in Hexport; [|apply preserves_cwd_runExport].
  apply bind_inv in Hrun as (currentDir & w7' & Hcwd & Hrun).
  injection Hcwd as <- <-.
  pose proof (verify_returned _ _ _ _ _ Hrun) as (Hsuccess & Hpdf & Hmessage).
  pose proof (preserved cwd _ _ _ _ (preserves_cwd_verify _ _) Hrun) as Hcwd'.
  pose proof (preserved execLog _ _ _ _ (preserves_log_verify _ _) Hrun) as Hlog'.
  split_and!; [done | done | done | congruence |].
  destruct Hclean as (command & Hcommand & earlier & files & Hlog & Hexit).
  exists mdPath, command. split_and!; [done | done |].
  exists earlier, files. split; [congruence | done].
Qed.

Lemma neverThrows_exportToPDF (inputFile outputFile : list N) (options : ExportOptions.t) :
  Behaviour.neverThrows (Wrapper.exportToPDF inputFile outputFile options).
Proof.
  unfold Wrapper.exportToPDF. apply neverThrows_tryCatch. intros e.
  apply neverThrows_ret.
Qed.

(** A run of the wrapper that reports success. *)
Lemma exportToPDF_success (inputFile outputFile : list N) (options : ExportOptions.t)
    (w w' : World) (result : ExportResult.t) :
  Wrapper.exportToPDF inputFile outputFile options w = (Returned result, w') ->
  ExportResult.success result = true ->
  let canonicalRoot := Wrapper.canonicalRootOf (cwd w) in
  is_Some (Fs.entry w' (ExportResult.pdfPath result))
  /\ ExportResult.message result
     = lit "PDF exported successfully: " ++ ExportResult.pdfPath result
  /\ cwd w' = canonicalRoot
  /\ exists mdPath command,
       Spec.firstExistingIs w (Wrapper.possiblePaths (cwd w) inputFile) mdPath
       /\ command ∈ Wrapper.exportCommands canonicalRoot (Wrapper.stagedMdRelPath mdPath)
                      (basename (resolve canonicalRoot [canonicalRoot; outputFile])) options
       /\ Behaviour.cleanRun command canonicalRoot w'.
Proof.
  intros Hrun Hsuccess. unfold Wrapper.exportToPDF in Hrun.
  apply tryCatch_inv in Hrun as [(r & Hr & Hbody) | (e & w1 & _ & Hhandler)].
  - injection Hr as <-. by apply exportToPDF_body_returned in Hbody as (_ & Hrest).
  - injection Hhandler as <- <-. discriminate.
Qed.

(** X8: the wrapper never throws.  It reports success only when the artifact it
    names exists, after a renderer command for the located document -- the
    last command spawned -- exited cleanly; the working directory is then
    the renderer project.  A failure carries no path and a message that opens
    with the fixed prefix. *)
Theorem exportToPDF_reports_success_truthfully (inputFile outputFile : list N)
    (options : ExportOptions.t) (w : World) :
  let canonicalRoot := Wrapper.canonicalRootOf (cwd w) in
  exists result w',
    Wrapper.exportToPDF inputFile outputFile options w = (Returned result, w')
    /\ if ExportResult.success result
       then is_Some (Fs.entry w' (ExportResult.pdfPath result))
            /\ ExportResult.message result
               = lit "PDF exported successfully: " ++ ExportResult.pdfPath result
            /\ cwd w' = canonicalRoot
            /\ exists mdPath command,
                 Spec.firstExistingIs w (Wrapper.possiblePaths (cwd w) inputFile) mdPath
                 /\ command ∈ Wrapper.exportCommands canonicalRoot
                                (Wrapper.stagedMdRelPath mdPath)
                                (basename (resolve canonicalRoot [canonicalRoot; outputFile]))
                                options
                 /\ Behaviour.cleanRun command canonicalRoot w'
       else ExportResult.pdfPath result = []
            /\ Spec.beginsWith (lit "PDF export failed: ") (ExportResult.message result).
Proof.
  cbv zeta.
  destruct (neverThrows_exportToPDF inputFile outputFile options w)
    as (result & w' & Hrun).
  exists result, w'. split; [exact Hrun|].
  destruct (ExportResult.success result) eqn:Hsuccess.
  - by apply (exportToPDF_success inputFile outputFile options w).
  - unfold Wrapper.exportToPDF in Hrun.
    apply tryCatch_inv in Hrun as [(r & Hr & Hbody) | (e & w1 & _ & Hhandler)].
    + injection Hr as <-. apply exportToPDF_body_returned in Hbody as (Htrue & _).
      congruence.
    + injection Hhandler as <- <-. cbn. split; [done|]. by eexists.
Qed.

Lemma classify_shape (errorMessage : list N) :
  let payload := Server.classify errorMessage in
  ExportPayload.success payload = false
  /\ ExportPayload.pdfPath payload = []
  /\ ExportPayload.slideCount payload = 0%nat
  /\ Spec.beginsWith (lit "PDF export failed: ") (ExportPayload.message payload).
Proof.
  cbv zeta. unfold Server.classify. cbv zeta.
  destruct (includes (lit "playwright") _); [|destruct (_ || _)]; cbn;
    (split_and!; [done | done | done | by eexists]).
Qed.

Lemma preserves_fs_resolveInput (input : ExportInput.t) :
  Behaviour.preserves id (Server.resolveInput input).
Proof.
  unfold Server.resolveInput. destruct (_ && _).
  - effects.
  - apply preserves_bind; [by intros w|]. intros w0. cbv zeta. effects.
Qed.

(** X9: the export handler never throws.  A success names an artifact that
    exists and counts at least one slide; a failure carries no path, no slide
    and a message that opens with the fixed prefix. *)
Theorem export_to_pdf_payload_shape (input : ExportInput.t) (w : World) :
  exists payload w',
    Server.export_to_pdf input w = (Returned payload, w')
    /\ if ExportPayload.success payload
       then is_Some (Fs.entry w' (ExportPayload.pdfPath payload))
            /\ (1 <= ExportPayload.slideCount payload)%nat
            /\ ExportPayload.message payload
               = lit "PDF exported successfully! File saved at: "
                   ++ ExportPayload.pdfPath payload
       else ExportPayload.pdfPath payload = []
            /\ ExportPayload.slideCount payload = 0%nat
            /\ Spec.beginsWith (lit "PDF export failed: ") (ExportPayload.message payload).
Proof.
  destruct (export_to_pdf_returns input w) as (payload & w' & Hrun).
  exists payload, w'. split; [exact Hrun|].
  unfold Server.export_to_pdf in Hrun.
  apply tryCatch_inv in Hrun as [(p & Hp & Hbody) | (e & w1 & _ & Hhandler)].
  - injection Hp as <-.
    apply bind_inv in Hbody as (mdPath & w1 & _ & Hbody).
    apply bind_inv in Hbody as (outputPath & w2 & _ & Hbody).
    apply bind_inv in Hbody as (result & w3 & Hexport & Hbody).
    destruct (ExportResult.success result) eqn:Hsuccess; [|discriminate].
    pose proof (exportToPDF_success _ _ _ _ _ _ Hexport Hsuccess) as (Hpdf & _).
    apply bind_inv in Hbody as ([] & w4 & Hret & Hbody). injection Hret as <-.
    rewrite (entry_truthy _ _ Hpdf) in Hbody.
    apply bind_inv in Hbody as (markdown & w5 & Hread & Hbody).
    pose proof (preserved id _ _ _ _ (preserves_readFileSync id mdPath) Hread) as Hw5.
    cbn in Hw5. subst w5. injection Hbody as <- <-. cbn.
    split_and!; [done | | done]. case_bool_decide; lia.
  - injection Hhandler as <- <-. pose proof (classify_shape e) as Hshape.
    cbv zeta in Hshape. destruct Hshape as (-> & Hshape). exact Hshape.
Qed.

(** X10: an export request whose input cannot be resolved is answered without
    touching the world: no directory is created, no process is spawned. *)
Theorem export_without_input_touches_nothing (input : ExportInput.t) (w : World) :
  let resolved := Server.resolveInput input w in
  resolved.2 = w
  /\ match resolved.1 with
     | Thrown message =>
         Server.export_to_pdf input w = (Returned (Server.classify message), w)
     | Returned mdPath => is_Some (Fs.entry w mdPath)
     end.
Proof.
  cbv zeta. pose proof (preserves_fs_resolveInput input w) as Hsame. cbn in Hsame.
  split; [exact Hsame|].
  destruct (Server.resolveInput input w) as [[mdPath|message] w1] eqn:Hresolve;
    cbn [fst snd] in *; subst w1.
  - unfold Server.resolveInput in Hresolve. destruct (_ && _).
    + apply bind_inv in Hresolve as (present & w1 & Hexists & Hresolve).
      rewrite existsSync_spec in Hexists. injection Hexists as <- <-.
      case_bool_decide; [|discriminate]. by injection Hresolve as <-.
    + apply bind_inv in Hresolve as (w0 & w1 & Hget & Hresolve).
      injection Hget as <- <-. cbv zeta in Hresolve.
      destruct (negb _); [discriminate|].
      apply bind_inv in Hresolve as (present & w1 & Hexists & Hresolve).
      rewrite existsSync_spec in Hexists. injection Hexists as <- <-.
      case_bool_decide; [|discriminate]. by injection Hresolve as <-.
  - unfold Server.export_to_pdf. erewrite tryCatch_thrown; [reflexivity|].
    by erewrite bind_thrown by exact Hresolve.
Qed.

End ExportFacts.

Section VerifyFacts.
Context `{Host}.

(** X27: in the Verifying step, when no candidate exists -- as a file or as
    a directory -- the step throws and the wrapper reports the artifact as
    not created; when [actual] is the first candidate that exists, the step
    succeeds with [actual] if it is the requested path, with the requested
    path (now holding a copy of [actual]) if the copy goes through, and still
    with [actual] if the copy fails. *)
Theorem verify_outcome_by_first_entry (w : World) (candidates : list (list N))
    (outputPath : list N) :
  (Spec.noneExists w candidates ->
     Wrapper.verify candidates outputPath w
     = (Thrown (lit "PDF file was not created in any expected location"), w)
     /\ tryCatch (Wrapper.verify candidates outputPath) Wrapper.reportFailure w
        = (Returned
             (ExportResult.mk false []
                (lit "PDF export failed: PDF file was not created in any expected location")),
           w))
  /\ (forall actual,
        Spec.firstExistingIs w candidates actual ->
        (actual = outputPath ->
           Wrapper.verify candidates outputPath w = (Returned (Spec.exported actual), w))
        /\ (actual <> outputPath ->
            forall w', Fs.copyFileSync actual outputPath w = (Returned tt, w') ->
              Wrapper.verify candidates outputPath w
              = (Returned (Spec.exported outputPath), w')
              /\ Fs.entry w' outputPath = Fs.entry w actual)
        /\ (actual <> outputPath ->
            forall e w', Fs.copyFileSync actual outputPath w = (Thrown e, w') ->
              Wrapper.verify candidates outputPath w = (Returned (Spec.exported actual), w))).
Proof.
  split.
  - intros Hnone.
    assert (Wrapper.verify candidates outputPath w
            = (Thrown (lit "PDF file was not created in any expected location"), w)) as Hv.
    { unfold Wrapper.verify.
      rewrite (bind_returned _ _ w w None) by by apply firstExisting_none.
      cbn [truthyOpt andb]. by rewrite (bind_returned _ _ w w None). }
    split; [done|]. by rewrite (tryCatch_thrown _ _ w w _ Hv).
  - intros actual Hfirst.
    pose proof (firstExistingIs_present _ _ _ Hfirst) as Hsome.
    pose proof (entry_truthy _ _ Hsome) as Htruthy.
    unfold Wrapper.verify.
    rewrite (bind_returned _ _ w w (Some actual)) by by apply firstExisting_first.
    cbn [truthyOpt from_option id]. rewrite Htruthy. cbn [andb].
    unfold strictEq. split; [|split].
    + intros ->. rewrite bool_decide_eq_true_2 by done. cbn [negb].
      rewrite (bind_returned _ _ w w (Some outputPath)) by done.
      cbn [truthyOpt from_option id]. rewrite Htruthy.
      by rewrite (bind_returned _ _ w w tt) by by apply stat_present.
    + intros Hdiff w' Hcopy. rewrite bool_decide_eq_false_2 by done. cbn [negb].
      destruct (copyFileSync_returned _ _ _ _ Hcopy) as [Hentry Hthere].
      split; [|done].
      erewrite bind_returned; last first.
      { apply tryCatch_returned. erewrite bind_returned by exact Hcopy. reflexivity. }
      cbn [truthyOpt from_option id]. rewrite (entry_truthy _ _ Hthere).
      by rewrite (bind_returned _ _ w' w' tt) by by apply stat_present.
    + intros Hdiff e w' Hcopy. rewrite bool_decide_eq_false_2 by done. cbn [negb].
      pose proof (copyFileSync_thrown _ _ _ _ _ Hcopy) as ->.
      erewrite bind_returned; last first.
      { erewrite tryCatch_thrown; [reflexivity|].
        erewrite bind_thrown by exact Hcopy. reflexivity. }
      cbn [truthyOpt from_option id]. rewrite Htruthy.
      by rewrite (bind_returned _ _ w w tt) by by apply stat_present.
Qed.

End VerifyFacts.

(** The renderer ignored the requested name and wrote [slides-export.pdf]
    in the project root: the artifact is found there, copied to the
    requested [/out/deck.pdf], and reported at that path. *)
Lemma verify_outcome_by_first_entry_witness :
  Spec.firstExistingIs Examples.renderedWorld Examples.renderedCandidates
    (lit "/proj/slides-export.pdf")
  /\ Wrapper.verify (H := Examples.openHost) Examples.renderedCandidates
       (lit "/out/deck.pdf") Examples.renderedWorld
     = (Returned (Spec.exported (lit "/out/deck.pdf")),
        setFs (<[lit "/out/deck.pdf" := File (lit "%PDF")]> (fs Examples.renderedWorld))
              Examples.renderedWorld).
Proof.
  assert (Spec.firstExistingIs Examples.renderedWorld Examples.renderedCandidates
            (lit "/proj/slides-export.pdf")) as Hfirst.
  { exists [lit "/out/deck.pdf"; lit "/proj/deck.pdf"], [lit "/proj/slides/slides-export.pdf"].
    split; [reflexivity|]. split; [by vm_compute; eexists|].
    intros q Hq. apply elem_of_cons in Hq as [-> | Hq]; [by vm_compute|].
    apply elem_of_cons in Hq as [-> | Hq]; [by vm_compute|]. by apply elem_of_nil in Hq. }
  split; [exact Hfirst|].
  apply (proj1 (proj2 (proj2 (verify_outcome_by_first_entry (H := Examples.openHost)
                                Examples.renderedWorld Examples.renderedCandidates
                                (lit "/out/deck.pdf")) _ Hfirst))).
  - vm_compute. discriminate.
  - vm_compute. reflexivity.
Defined.

Section SpawnFacts.
Context `{Host}.

Lemma exitsCleanly_outcome (command dir : list N) (w : World) :
  Behaviour.exitsCleanly command dir w
  = match shellError (shell command dir (execLog w) (fs w)) with
    | Some _ => false
    | None => true
    end.
Proof. unfold Behaviour.exitsCleanly. by destruct (shellError _). Qed.

(** From the second attempt on, the loop spawns its commands up to the first
    that exits cleanly, and nothing else. *)
Lemma tryCommands_later_world (root : list N) (commands : list (list N)) (i : nat)
    (lastError : option (list N)) (w : World) :
  (Wrapper.tryCommands root commands (S i) lastError w).2
  = Behaviour.untilClean root commands w.
Proof.
  revert i lastError w. induction commands as [|command rest IH]; intros i lastError w;
    [done|].
  cbn [Wrapper.tryCommands Behaviour.untilClean].
  erewrite bind_returned by apply attempt_outcome. rewrite exitsCleanly_outcome.
  destruct (shellError _) as [cmdError|]; [|done].
  rewrite (bool_decide_eq_false_2 (S i = 0%nat)) by done. rewrite andb_false_r.
  erewrite bind_returned by reflexivity. apply IH.
Qed.

(** The repair returns, having spawned the install, and the browser
    download after it unless the install failed. *)
Lemma repair_outcome (root : list N) (w : World) :
  tryCatch
    (Fs.execSync (Wrapper.installCommand (lit "playwright-chromium")) root;;
     Fs.execSync (lit "npx playwright install chromium --with-deps") root)
    (fun _ => mret tt) w
  = (Returned tt, Behaviour.repaired root w).
Proof.
  unfold Behaviour.repaired. cbv zeta. rewrite exitsCleanly_outcome.
  unfold tryCatch, mbind, M_bind. rewrite execSync_outcome. cbv zeta.
  destruct (shellError _); [done|].
  rewrite execSync_outcome. cbv zeta. by destruct (shellError _).
Qed.

(** X11: the export step leaves the world its commands leave when they are
    spawned by a plain loop: the first command; then, exactly when it failed
    with a message that mentions [playwright], the Playwright repair -- its
    install, and the browser download unless the install failed; then the
    other commands in order, up to the first that exits cleanly. *)
Theorem runExport_spawn_sequence (canonicalRoot : list N) (commands : list (list N))
    (w : World) :
  (Wrapper.runExport canonicalRoot commands w).2
  = Behaviour.exportAttempts canonicalRoot commands w.
Proof.
  assert (Hworld : (Wrapper.runExport canonicalRoot commands w).2
                   = (Wrapper.tryCommands canonicalRoot commands 0 None w).2).
  { unfold Wrapper.runExport.
    destruct (tryCommands_outcome canonicalRoot commands 0 None w)
      as (failed & w' & Hrun & _).
    erewrite bind_returned by exact Hrun. rewrite Hrun. by destruct failed. }
  rewrite Hworld. destruct commands as [|first rest]; [done|].
  cbn [Wrapper.tryCommands Behaviour.exportAttempts].
  erewrite bind_returned by apply attempt_outcome.
  destruct (shellError (shell first canonicalRoot (execLog w) (fs w))) as [cmdError|];
    [|done].
  rewrite bool_decide_eq_true_2 by done. rewrite andb_true_r.
  destruct (includes (lit "playwright") cmdError).
  - erewrite bind_returned by apply repair_outcome. apply tryCommands_later_world.
  - erewrite bind_returned by reflexivity. apply tryCommands_later_world.
Qed.

End SpawnFacts.

Section DirectoryFacts.
Context `{Host}.

Lemma stage_cwd (canonicalRoot mdPath : list N) (w : World) :
  cwd (Wrapper.stage canonicalRoot mdPath w).2
  = match (Wrapper.stage canonicalRoot mdPath w).1 with
    | Returned _ => canonicalRoot
    | Thrown _ => cwd w
    end.
Proof.
  unfold Wrapper.stage. cbv zeta. rewrite ensureDir_then.
  set (slidesDir := join [canonicalRoot; lit "slides"]).
  pose proof (stage_copy_outcome canonicalRoot mdPath w) as Hhere. cbv zeta in Hhere.
  destruct (Fs.entry w slidesDir).
  - destruct Hhere as [_ Hhere].
    match goal with |- cwd ?o.2 = _ => destruct o as [[[]|e] w'] end;
      cbn [fst snd] in *; [by destruct Hhere | done].
  - pose proof (mkdirSync_frame slidesDir w) as (Hcwd & _).
    destruct (Fs.mkdirSync slidesDir w) as [[[]|e] w1] eqn:Hmk; cbn [fst snd] in *;
      [|by erewrite bind_thrown by exact Hmk].
    erewrite (bind_returned _ _ w w1 tt) by exact Hmk.
    pose proof (stage_copy_outcome canonicalRoot mdPath w1) as [_ Hmade].
    match goal with |- cwd ?o.2 = _ => destruct o as [[[]|e] w'] end;
      cbn [fst snd] in *; [by destruct Hmade | congruence].
Qed.

Lemma preserves_locate (inputFile : list N) :
  Behaviour.preserves id (Wrapper.locate inputFile).
Proof. unfold Wrapper.locate. effects. Qed.

(** The part of the wrapper that follows the staging step. *)
Lemma preserves_cwd_after_stage (canonicalRoot mdPath outputFile : list N)
    (options : ExportOptions.t) :
  Behaviour.preserves cwd
    (projectDir ← Fs.processCwd;
     let outputPath := resolve projectDir [canonicalRoot; outputFile] in
     let desiredOutputFilename := basename outputPath in
     let outputDir := dirname outputPath in
     present ← Fs.existsSync outputDir;
     (if present : bool then mret tt else Fs.mkdirSync outputDir);;
     Wrapper.ensurePlaywright canonicalRoot;;
     Wrapper.ensureTheme canonicalRoot mdPath;;
     Wrapper.runExport canonicalRoot
       (Wrapper.exportCommands canonicalRoot (Wrapper.stagedMdRelPath mdPath)
          desiredOutputFilename options);;
     currentDir ← Fs.processCwd;
     Wrapper.verify
       (Wrapper.possibleOutputPaths canonicalRoot currentDir outputPath outputFile mdPath)
       outputPath).
Proof.
  effects; cbv zeta; effects. apply preserves_cwd_tryCommands.
Qed.

(** X12: the wrapper changes the working directory of the process to the
    project root when its staging step is reached and returns, and never
    changes it back: whether the export then succeeds or fails, the process
    is left in the project.  In every other case the working directory is
    as it was. *)
Theorem exportToPDF_leaves_process_in_project (inputFile outputFile : list N)
    (options : ExportOptions.t) (w : World) :
  let canonicalRoot := Wrapper.canonicalRootOf (cwd w) in
  let prepared := Wrapper.prepare canonicalRoot w in
  cwd (Wrapper.exportToPDF inputFile outputFile options w).2
  = match (Wrapper.locate inputFile w).1, prepared.1 with
    | Returned mdPath, Returned _ =>
        match (Wrapper.stage canonicalRoot mdPath prepared.2).1 with
        | Returned _ => canonicalRoot
        | Thrown _ => cwd w
        end
    | _, _ => cwd w
    end.
Proof.
  cbv zeta. set (root := Wrapper.canonicalRootOf (cwd w)).
  assert (Hcatch : forall body : M ExportResult.t,
            cwd (tryCatch body Wrapper.reportFailure w).2 = cwd (body w).2).
  { intros body. unfold tryCatch. by destruct (body w) as [[]]. }
  unfold Wrapper.exportToPDF. rewrite Hcatch. clear Hcatch.
  pose proof (preserves_locate inputFile w) as Hlocate. unfold id in Hlocate.
  destruct (Wrapper.locate inputFile w) as [[mdPath|e] w0] eqn:Hfound;
    cbn [fst snd] in *; subst w0.
  2: { by erewrite bind_thrown by exact Hfound. }
  erewrite bind_returned by exact Hfound.
  erewrite bind_returned by reflexivity. cbv zeta. fold root.
  pose proof (preserves_cwd_prepare root w) as Hprepared.
  destruct (Wrapper.prepare root w) as [[[]|e] w2] eqn:Hprepare; cbn [fst snd] in *.
  2: { by erewrite bind_thrown by exact Hprepare. }
  erewrite bind_returned by exact Hprepare.
  pose proof (stage_cwd root mdPath w2) as Hstaged.
  destruct (Wrapper.stage root mdPath w2) as [[[]|e] w3] eqn:Hstage; cbn [fst snd] in *.
  2: { erewrite bind_thrown by exact Hstage. cbn [snd]. congruence. }
  erewrite bind_returned by exact Hstage.
  transitivity (cwd w3); [|exact Hstaged].
  exact (preserves_cwd_after_stage root mdPath outputFile options w3).
Qed.

End DirectoryFacts.

Section ReclassifyFacts.
Context `{Host}.

(** X13: a failure the wrapper reports reaches the caller of the handler as a
    failure, classified from the wrapper's message.  That message already
    opens with the failure prefix, so unless one of the two advice texts
    replaces it, the caller reads the prefix twice. *)
Theorem wrapper_failure_is_reclassified (input : ExportInput.t) (w w1 w2 w3 : World)
    (mdPath outputPath : list N) (result : ExportResult.t) :
  Server.resolveInput input w = (Returned mdPath, w1) ->
  Server.resolveOutput input mdPath w1 = (Returned outputPath, w2) ->
  Wrapper.exportToPDF mdPath outputPath (Server.exportOptions input) w2
  = (Returned result, w3) ->
  ExportResult.success result = false ->
  Server.export_to_pdf input w
  = (Returned (Server.classify (ExportResult.message result)), w3)
  /\ exists reason,
       ExportResult.message result = lit "PDF export failed: " ++ reason
       /\ (includes (lit "playwright") (toLowerCase (ExportResult.message result)) = false ->
           includes (lit "ENOENT") (ExportResult.message result) = false ->
           includes (lit "command not found") (ExportResult.message result) = false ->
           ExportPayload.message (Server.classify (ExportResult.message result))
           = lit "PDF export failed: PDF export failed: " ++ reason).
Proof.
  intros Hinput Houtput Hexport Hfailed. split.
  - unfold Server.export_to_pdf. erewrite tryCatch_thrown; [reflexivity|].
    erewrite bind_returned by exact Hinput.
    erewrite bind_returned by exact Houtput.
    erewrite bind_returned by exact Hexport.
    rewrite Hfailed. by erewrite bind_thrown by reflexivity.
  - unfold Wrapper.exportToPDF in Hexport.
    apply tryCatch_inv in Hexport as [(r & Hr & Hbody) | (e & w' & _ & Hhandler)].
    + injection Hr as <-. apply exportToPDF_body_returned in Hbody as (Htrue & _).
      congruence.
    + injection Hhandler as <- <-. exists e. split; [done|].
      cbn [ExportResult.message]. intros Hplaywright Henoent Hcommand.
      rewrite classify_plain by done. reflexivity.
Qed.

End ReclassifyFacts.

(** ** The export commands and their flags *)

Section ReplaceFacts.

(** A pattern that matches at the head of [s ++ t] matches at the head of
    [s], or [s] is a proper prefix of the pattern. *)
Lemma startsWith_app_inv (p s t : list N) :
  startsWith p (s ++ t) = true ->
  startsWith p s = true \/ ((length s < length p)%nat /\ s = take (length s) p).
Proof.
  revert s. induction p as [|a p IH]; intros s; [by left|].
  destruct s as [|b s]; cbn [startsWith app length take].
  - intros _. right. split; [lia | done].
  - intros [Hab Hrest]%andb_prop. apply N.eqb_eq in Hab as ->.
    destruct (IH s Hrest) as [Hs | [Hlen Hs]].
    + left. by rewrite N.eqb_refl.
    + right. split; [lia | by rewrite <- Hs].
Qed.

Lemma includes_one_cons (c d : N) (s : list N) :
  includes [c] (d :: s) = (c =? d) || includes [c] s.
Proof. cbn [includes startsWith]. by rewrite andb_true_r. Qed.

Lemma includes_one_app (c : N) (s t : list N) :
  includes [c] (s ++ t) = includes [c] s || includes [c] t.
Proof.
  induction s as [|d s IH]; [by destruct t|].
  cbn [app]. rewrite !includes_one_cons, IH. by rewrite orb_assoc.
Qed.

(** A replacement text without a dollar sign is inserted as it is. *)
Lemma substitute_plain (matched before after template : list N) :
  includes (lit "$") template = false ->
  substitute matched before after template = template.
Proof.
  induction template as [|c template IH]; [done|].
  change (lit "$") with [36]. rewrite includes_one_cons.
  intros [Hc Hrest]%orb_false_elim. cbn [substitute].
  rewrite N.eqb_sym, Hc. f_equal. by apply IH.
Qed.

(** Then the text before the match plays no part. *)
Lemma replaceFrom_plain (p r before s : list N) :
  includes (lit "$") r = false -> replaceFrom p r before s = replaceFirst p r s.
Proof.
  intros Hplain. unfold replaceFirst. generalize (@nil N) as before'.
  revert before. induction s as [|c s IH]; intros before before'; cbn [replaceFrom].
  - by rewrite !substitute_plain.
  - rewrite !substitute_plain by done. destruct (startsWith p (c :: s)); [done|].
    f_equal. apply IH.
Qed.

Lemma replaceFirst_cons (p r : list N) (c : N) (s : list N) :
  includes (lit "$") r = false -> startsWith p (c :: s) = false ->
  replaceFirst p r (c :: s) = c :: replaceFirst p r s.
Proof.
  intros Hplain Hno. unfold replaceFirst at 1. cbn [replaceFrom]. rewrite Hno.
  f_equal. by apply replaceFrom_plain.
Qed.

Lemma exportQuote_proper_prefix (s : list N) :
  (length (s ++ dq) < length Behaviour.exportQuote)%nat ->
  s ++ dq <> take (length (s ++ dq)) Behaviour.exportQuote.
Proof.
  intros Hlen Heq.
  assert (Hin : 34 ∈ take (length (s ++ dq)) Behaviour.exportQuote).
  { rewrite <- Heq. apply elem_of_app. right. by left. }
  assert (Hsub : take (length (s ++ dq)) Behaviour.exportQuote
                 = take (length (s ++ dq)) (lit " export ")).
  { unfold Behaviour.exportQuote. rewrite take_app_le; [done|].
    change (length Behaviour.exportQuote) with 9%nat in Hlen.
    change (length (lit " export ")) with 8%nat.
    lia. }
  rewrite Hsub in Hin. apply elem_of_take in Hin as (i & Hi & _).
  change (lit " export ") with [32; 101; 120; 112; 111; 114; 116; 32] in Hi.
  do 8 (destruct i as [|i]; [discriminate|]). discriminate.
Qed.

(** Replacing the first occurrence passes over a directory name that holds
    none, its closing quote included. *)
Lemma replaceFirst_through_root (r root rest : list N) :
  includes (lit "$") r = false ->
  includes Behaviour.exportQuote (root ++ dq) = false ->
  replaceFirst Behaviour.exportQuote r (root ++ dq ++ rest)
  = root ++ replaceFirst Behaviour.exportQuote r (dq ++ rest).
Proof.
  intros Hplain. induction root as [|c root IH]; [done|]. cbn [app includes].
  intros [Hhere Hlater]%orb_false_elim.
  rewrite replaceFirst_cons; [by rewrite IH | done |].
  destruct (startsWith Behaviour.exportQuote (c :: root ++ dq ++ rest)) eqn:Hmatch; [|done].
  change (c :: root ++ dq ++ rest) with ((c :: root) ++ dq ++ rest) in Hmatch.
  rewrite app_assoc in Hmatch.
  apply startsWith_app_inv in Hmatch as [Hmatch | [Hlen Hprefix]].
  - cbn [app] in Hmatch. congruence.
  - by apply exportQuote_proper_prefix in Hprefix.
Qed.

(** The two runners: nothing before the word [export] matches. *)
Lemma replaceFirst_npx (r rest : list N) :
  includes (lit "$") r = false ->
  replaceFirst Behaviour.exportQuote r (dq ++ lit " && npx slidev export " ++ dq ++ rest)
  = dq ++ lit " && npx slidev" ++ r ++ rest.
Proof.
  intros Hplain.
  transitivity (dq ++ lit " && npx slidev"
                  ++ substitute Behaviour.exportQuote (dq ++ lit " && npx slidev") rest r
                  ++ rest); [reflexivity|].
  by rewrite substitute_plain.
Qed.

Lemma replaceFirst_node (r rest : list N) :
  includes (lit "$") r = false ->
  replaceFirst Behaviour.exportQuote r
    (dq ++ lit " && node node_modules/@slidev/cli/bin/slidev.mjs export " ++ dq ++ rest)
  = dq ++ lit " && node node_modules/@slidev/cli/bin/slidev.mjs" ++ r ++ rest.
Proof.
  intros Hplain.
  transitivity (dq ++ lit " && node node_modules/@slidev/cli/bin/slidev.mjs"
                  ++ substitute Behaviour.exportQuote
                       (dq ++ lit " && node node_modules/@slidev/cli/bin/slidev.mjs") rest r
                  ++ rest); [reflexivity|].
  by rewrite substitute_plain.
Qed.

(** The flags hold a dollar sign only if the range does. *)
Lemma flags_plain (options : ExportOptions.t) :
  includes (lit "$") (default [] (ExportOptions.range options)) = false ->
  includes (lit "$")
    (lit " export " ++ joinWith (lit " ") (Wrapper.optionFlags options) ++ lit " " ++ dq)
  = false.
Proof.
  change (lit "$") with [36]. intros Hrange. unfold Wrapper.optionFlags.
  destruct (ExportOptions.withClicks options), (ExportOptions.dark options),
    (truthyOpt (ExportOptions.range options));
    cbn [app joinWith]; rewrite ?includes_one_app, ?Hrange; reflexivity.
Qed.

End ReplaceFacts.

Section CommandFacts.

(** X14: unless the project directory itself holds the text the flags are
    put behind, or the requested range holds a dollar sign (which the
    replacement of line 232 would expand), both export commands carry the
    flags between [export] and the quoted document. *)
Theorem exportCommands_carry_flags (canonicalRoot stagedRel desiredOutputFilename : list N)
    (options : ExportOptions.t) :
  includes (lit " export " ++ dq) (canonicalRoot ++ dq) = false ->
  includes (lit "$") (default [] (ExportOptions.range options)) = false ->
  Wrapper.exportCommands canonicalRoot stagedRel desiredOutputFilename options
  = map (Behaviour.exportCommandOf canonicalRoot stagedRel desiredOutputFilename
           (joinWith (lit " ") (Wrapper.optionFlags options)))
        [lit "npx slidev"; lit "node node_modules/@slidev/cli/bin/slidev.mjs"].
Proof.
  intros Hroot Hrange. apply flags_plain in Hrange.
  unfold Wrapper.exportCommands. cbv zeta.
  set (flags := joinWith (lit " ") (Wrapper.optionFlags options)) in *.
  unfold Behaviour.exportCommandOf.
  destruct (truthy flags) eqn:Hflags.
  - cbn [map]. fold Behaviour.exportQuote in *. f_equal; [|f_equal].
    + transitivity (lit "cd " ++ dq
        ++ replaceFrom Behaviour.exportQuote (lit " export " ++ flags ++ lit " " ++ dq)
             (lit "cd " ++ dq)
             (canonicalRoot ++ dq ++ lit " && npx slidev export " ++ dq ++ stagedRel ++ dq
                ++ lit " --output " ++ dq ++ desiredOutputFilename ++ dq));
        [reflexivity|].
      rewrite replaceFrom_plain, replaceFirst_through_root, replaceFirst_npx by done.
      rewrite <- !app_assoc. reflexivity.
    + transitivity (lit "cd " ++ dq
        ++ replaceFrom Behaviour.exportQuote (lit " export " ++ flags ++ lit " " ++ dq)
             (lit "cd " ++ dq)
             (canonicalRoot ++ dq
                ++ lit " && node node_modules/@slidev/cli/bin/slidev.mjs export " ++ dq
                ++ stagedRel ++ dq
                ++ lit " --output " ++ dq ++ desiredOutputFilename ++ dq));
        [reflexivity|].
      rewrite replaceFrom_plain, replaceFirst_through_root, replaceFirst_node by done.
      rewrite <- !app_assoc. reflexivity.
  - cbn [map app]. reflexivity.
Qed.

(** A range that holds [$&] is not carried as it is: the replacement puts
    the matched text in its place. *)
Example exportCommands_expand_dollar_patterns :
  Wrapper.exportCommands (lit "/proj") (lit "d.md") (lit "d.pdf")
    (ExportOptions.mk false (Some (lit "$&")) false)
  = [ lit "cd " ++ dq ++ lit "/proj" ++ dq ++ lit " && npx slidev export --range " ++ dq
        ++ lit " export " ++ dq ++ dq ++ lit " " ++ dq ++ lit "d.md" ++ dq
        ++ lit " --output " ++ dq ++ lit "d.pdf" ++ dq;
      lit "cd " ++ dq ++ lit "/proj" ++ dq
        ++ lit " && node node_modules/@slidev/cli/bin/slidev.mjs export --range " ++ dq
        ++ lit " export " ++ dq ++ dq ++ lit " " ++ dq ++ lit "d.md" ++ dq
        ++ lit " --output " ++ dq ++ lit "d.pdf" ++ dq ].
Proof. vm_compute. reflexivity. Qed.

End CommandFacts.

(** ** Build and export together *)

Section RoundTripFacts.
Context `{Host}.

(** X15: after a build that returned, an export request that names no input file
    -- giving no name, or the name of the deck -- resolves to the file the
    build reported, and that file holds the document of the build. *)
Theorem export_resolves_built_deck (input : BuildInput.t) (w w' : World)
    (payload : BuildPayload.t) (name outputPath : option (list N))
    (withClicks : option bool) (range : option (list N)) (dark : option bool) :
  BuildInput.slides input <> [] -> BuildInput.name input <> [] ->
  Server.build_complete_presentation input w = (Returned payload, w') ->
  name = None \/ name = Some (BuildInput.name input) ->
  Server.resolveInput (ExportInput.mk None name outputPath withClicks range dark) w'
  = (Returned (BuildPayload.filePath payload), w')
  /\ Fs.readFileSync (BuildPayload.filePath payload) w'
     = (Returned (Builder.buildMarkdown input), w').
Proof.
  intros Hslides Hname Hbuild Hrequest.
  pose proof (build_writes_markdown input w w' payload Hslides Hbuild) as Hbuilt.
  cbv zeta in Hbuilt. destruct Hbuilt as (_ & _ & Hpath & Hfile).
  pose proof (build_sets_name input w) as Hset. rewrite Hbuild in Hset. cbn in Hset.
  split.
  - unfold Server.resolveInput. cbn [ExportInput.inputPath truthyOpt andb ExportInput.name].
    erewrite bind_returned by reflexivity. cbv zeta.
    assert (Hchosen : (if truthyOpt name then default [] name else presentationName w')
                      = BuildInput.name input).
    { destruct Hrequest as [-> | ->]; cbn [truthyOpt]; [done|].
      destruct (BuildInput.name input); [done|]. done. }
    rewrite Hchosen. destruct (BuildInput.name input) as [|c rest] eqn:Hn; [done|].
    cbn [truthy negb]. rewrite <- Hn in *.
    erewrite bind_returned by (apply existsSync_present; by rewrite Hfile).
    by rewrite Hpath.
  - rewrite Hpath. unfold Fs.readFileSync. by rewrite Hfile.
Qed.


End RoundTripFacts.

Section NameFacts.
Context `{Host}.

Lemma preserves_name_mkdirSync (p : list N) :
  Behaviour.preserves presentationName (Fs.mkdirSync p).
Proof. intros w. apply mkdirSync_frame. Qed.

Lemma preserves_name_copyFileSync (src dst : list N) :
  Behaviour.preserves presentationName (Fs.copyFileSync src dst).
Proof. intros w. apply copyFileSync_frame. Qed.

Lemma preserves_name_execSync (command dir : list N) :
  Behaviour.preserves presentationName (Fs.execSync command dir).
Proof. intros w. apply execSync_frame. Qed.

Lemma preserves_name_chdir (dir : list N) :
  Behaviour.preserves presentationName (Fs.chdir dir).
Proof. intros w. unfold Fs.chdir. by destruct (Fs.entry w dir) as [[]|]. Qed.

Lemma preserves_name_getWorld : Behaviour.preserves presentationName getWorld.
Proof. by intros w. Qed.

#[local] Hint Resolve preserves_name_mkdirSync preserves_name_copyFileSync preserves_name_execSync
  preserves_name_chdir preserves_name_getWorld : effects.

Lemma preserves_name_tryCommands (root : list N) (commands : list (list N)) (i : nat)
    (lastError : option (list N)) :
  Behaviour.preserves presentationName (Wrapper.tryCommands root commands i lastError).
Proof.
  revert i lastError. induction commands as [|command rest IH]; intros i lastError;
    cbn [Wrapper.tryCommands]; [apply preserves_ret|].
  apply preserves_bind; [effects|]. intros [cmdError|]; [|apply preserves_ret].
  apply preserves_bind; [effects | intros _; apply IH].
Qed.

Lemma preserves_name_exportToPDF (inputFile outputFile : list N)
    (options : ExportOptions.t) :
  Behaviour.preserves presentationName (Wrapper.exportToPDF inputFile outputFile options).
Proof.
  unfold Wrapper.exportToPDF, Wrapper.locate, Wrapper.prepare, Wrapper.ensurePackage,
    Wrapper.stage, Wrapper.ensurePlaywright, Wrapper.ensureTheme, Wrapper.runExport,
    Wrapper.verify, Wrapper.reportFailure.
  effects. all: try apply preserves_name_tryCommands.
Qed.

(** X17: only a build sets the remembered deck name: an export, whatever its
    outcome, leaves it as it was. *)
Theorem export_keeps_presentation_name (input : ExportInput.t) :
  Behaviour.preserves presentationName (Server.export_to_pdf input).
Proof.
  unfold Server.export_to_pdf, Server.resolveInput, Server.resolveOutput.
  apply preserves_tryCatch; [|intros e; apply preserves_ret].
  apply preserves_bind.
  { destruct (_ && _); effects. }
  intros mdPath. apply preserves_bind; [destruct (_ || _); effects|].
  intros outputPath. apply preserves_bind; [apply preserves_name_exportToPDF|].
  intros result. effects.
Qed.

Lemma writeFileSync_frame (p content : list N) (w : World) :
  cwd (Fs.writeFileSync p content w).2 = cwd w
  /\ execLog (Fs.writeFileSync p content w).2 = execLog w.
Proof.
  unfold Fs.writeFileSync. destruct (Fs.parentFault w p); [done|].
  destruct (Fs.entry w p) as [[]|]; [| done |]; by destruct (Fs.mayWrite p).
Qed.

Lemma preserves_entry_writeFileSync (p content other : list N) :
  other <> p -> Behaviour.preserves (fun w => Fs.entry w other) (Fs.writeFileSync p content).
Proof.
  intros Hother w. unfold Fs.writeFileSync. destruct (Fs.parentFault w p); [done|].
  destruct (Fs.entry w p) as [[]|]; [| done |];
    (destruct (Fs.mayWrite p); [|done]; cbn [snd]; by apply entry_insert_ne).
Qed.

(** The build handler with the deck name read back from the world. *)
Lemma build_steps (input : BuildInput.t) (w : World) :
  let filePath := join [Server.presentationsDir; BuildInput.name input ++ lit ".md"] in
  Server.build_complete_presentation input w
  = (if bool_decide (length (BuildInput.slides input) = 0%nat)
     then mret (BuildPayload.mk Server.noSlidesMessage 0 [] false)
     else
       present ← Fs.existsSync Server.presentationsDir;
       (if present : bool then mret tt else Fs.mkdirSync Server.presentationsDir);;
       Fs.writeFileSync filePath (Builder.buildMarkdown input);;
       mret (BuildPayload.mk
               (lit "Complete presentation '" ++ BuildInput.title input ++ lit "' with "
                  ++ decimal (length (BuildInput.slides input))
                  ++ lit " slides created and saved successfully!")
               (length (BuildInput.slides input)) filePath true))
      (setPresentationName (BuildInput.name input) w).
Proof.
  cbv zeta. unfold Server.build_complete_presentation.
  erewrite bind_returned by reflexivity.
  case_bool_decide; [done|]. rewrite !ensureDir_then.
  destruct (Fs.entry _ Server.presentationsDir) as [node|].
  - by erewrite bind_returned by reflexivity.
  - pose proof (mkdirSync_name Server.presentationsDir
                  (setPresentationName (BuildInput.name input) w)) as Hname.
    unfold mbind, M_bind, getWorld.
    destruct (Fs.mkdirSync Server.presentationsDir _) as [[[]|e] w1]; [|done].
    cbn in Hname. by rewrite Hname.
Qed.

(** X18: a build spawns no process and keeps the working directory.  Apart
    from the file of the deck, it leaves every entry of the file system as
    it was, but for the directories it makes where none was: the decks
    directory and ancestors of it. *)
Theorem build_touches_only_its_file (input : BuildInput.t) (w : World) :
  let w' := (Server.build_complete_presentation input w).2 in
  execLog w' = execLog w
  /\ cwd w' = cwd w
  /\ forall other,
       other <> join [Server.presentationsDir; BuildInput.name input ++ lit ".md"] ->
       Fs.entry w' other = Fs.entry w other
       \/ (Fs.entry w other = None /\ Fs.entry w' other = Some Dir
           /\ Behaviour.ancestorOrSelf other Server.presentationsDir).
Proof.
  cbv zeta. rewrite build_steps. cbv zeta.
  set (w0 := setPresentationName (BuildInput.name input) w).
  change (execLog w) with (execLog w0). change (cwd w) with (cwd w0).
  split_and!.
  - match goal with |- execLog (?m ?w1).2 = _ =>
      enough (Hframe : Behaviour.preserves execLog m) by exact (Hframe w1) end.
    destruct (bool_decide _); effects. intros w1. apply writeFileSync_frame.
  - match goal with |- cwd (?m ?w1).2 = _ =>
      enough (Hframe : Behaviour.preserves cwd m) by exact (Hframe w1) end.
    destruct (bool_decide _); effects. intros w1. apply writeFileSync_frame.
  - intros other Hfile. change (Fs.entry w other) with (Fs.entry w0 other).
    destruct (bool_decide _); [by left|]. rewrite ensureDir_then.
    match goal with |- context [Fs.writeFileSync ?p ?c ≫= ?k] =>
      assert (Hwrite : Behaviour.preserves (fun w2 => Fs.entry w2 other)
                         (Fs.writeFileSync p c ≫= k))
        by (effects; by apply preserves_entry_writeFileSync)
    end.
    destruct (Fs.entry w0 Server.presentationsDir) as [node|]; [left; exact (Hwrite w0)|].
    pose proof (mkdirSync_entries Server.presentationsDir other w0) as Hmade.
    cbv zeta in Hmade.
    destruct (Fs.mkdirSync Server.presentationsDir w0) as [[[]|e] w1] eqn:Hmk;
      cbn [snd] in Hmade; [|by erewrite (bind_thrown _ _ w0 w1 e) by exact Hmk].
    erewrite (bind_returned _ _ w0 w1 tt) by exact Hmk.
    pose proof (Hwrite w1) as Hkept. cbn beta in Hkept. by rewrite Hkept.
Qed.

End NameFacts.

(** ** The guidance tool *)

Section GuidanceFacts.
Variable lowerCase : list N -> list N.

Lemma normalizePresentationType_range (raw : option (list N)) :
  GuidanceTool.normalizePresentationType lowerCase raw
    ∈ [lit "technical"; lit "business"; lit "academic"].
Proof.
  unfold GuidanceTool.normalizePresentationType. cbv zeta.
  repeat match goal with |- context [if ?b then _ else _] => destruct b end;
    set_solver.
Qed.

(** X19: whatever the request, the guidance tool answers with one of the three
    presentation types and a guidance whose outline is defined: the business
    outline and themes for [business], the technical ones otherwise.  The
    outline uses known layouts only, the recommendation known themes only. *)
Theorem get_slidev_guidance_well_formed (presentationType : option (list N)) :
  let (normalizedType, guidance) :=
    GuidanceTool.get_slidev_guidance lowerCase presentationType in
  normalizedType ∈ [lit "technical"; lit "business"; lit "academic"]
  /\ guidance
     = (if bool_decide (normalizedType = lit "business")
        then Knowledge.generateSlidevGuidance (Some (lit "business"))
        else Knowledge.generateSlidevGuidance None)
  /\ (exists slides,
        Guidance.structure guidance = Some slides
        /\ length slides = 6%nat
        /\ forall slide, slide ∈ slides -> ExampleSlide.layout slide ∈ Knowledge.layouts)
  /\ forall theme, theme ∈ Guidance.recommendedThemes guidance -> theme ∈ Knowledge.themes.
Proof.
  unfold GuidanceTool.get_slidev_guidance. cbv zeta.
  pose proof (normalizePresentationType_range presentationType) as Hrange.
  split; [exact Hrange|].
  set (normalizedType := GuidanceTool.normalizePresentationType lowerCase presentationType)
    in *.
  clearbody normalizedType.
  repeat (apply elem_of_cons in Hrange as [-> | Hrange]); [| | | by apply elem_of_nil in Hrange].
  all: split; [reflexivity|].
  all: split; [eexists; split; [reflexivity|]; split; [reflexivity|] |].
  all: try (intros slide Hslide; cbn in Hslide;
            repeat (apply elem_of_cons in Hslide as [-> | Hslide]);
            [.. | by apply elem_of_nil in Hslide];
            apply (bool_decide_unpack _); vm_compute; exact I).
  all: intros theme Htheme; cbn in Htheme;
       repeat (apply elem_of_cons in Htheme as [-> | Htheme]);
       [.. | by apply elem_of_nil in Htheme];
       apply (bool_decide_unpack _); vm_compute; exact I.
Qed.

(** X20: a type the normaliser produced is left as it is by a second pass,
    provided lowering leaves the three type names alone. *)
Theorem normalizePresentationType_idempotent (raw : option (list N)) :
  (forall word, word ∈ [lit "technical"; lit "business"; lit "academic"] ->
     lowerCase word = word) ->
  GuidanceTool.normalizePresentationType lowerCase
    (Some (GuidanceTool.normalizePresentationType lowerCase raw))
  = GuidanceTool.normalizePresentationType lowerCase raw.
Proof.
  intros Hfixed. pose proof (normalizePresentationType_range raw) as Hrange.
  set (normalizedType := GuidanceTool.normalizePresentationType lowerCase raw) in *.
  clearbody normalizedType.
  assert (Hstep : forall word,
            word ∈ [lit "technical"; lit "business"; lit "academic"] ->
            GuidanceTool.normalizePresentationType lowerCase (Some word)
            = GuidanceTool.normalizePresentationType id (Some word)).
  { intros word Hword. unfold GuidanceTool.normalizePresentationType.
    cbn [default from_option id]. rewrite app_nil_r. by rewrite (Hfixed word Hword). }
  rewrite (Hstep _ Hrange).
  repeat (apply elem_of_cons in Hrange as [-> | Hrange]);
    [reflexivity | reflexivity | reflexivity | by apply elem_of_nil in Hrange].
Qed.

End GuidanceFacts.

(** X21: read with a key that is neither [business] nor a name every object
    inherits, the guidance is the default one; with an inherited name the
    outline is undefined. *)
Theorem generateSlidevGuidance_falls_back (presentationType : list N) :
  presentationType <> lit "business" ->
  let guidance := Knowledge.generateSlidevGuidance (Some presentationType) in
  (presentationType ∉ Knowledge.objectPrototypeKeys ->
     guidance = Knowledge.generateSlidevGuidance None)
  /\ (presentationType ∈ Knowledge.objectPrototypeKeys ->
      Guidance.structure guidance = None).
Proof.
  intros Hbusiness. cbv zeta. unfold Knowledge.generateSlidevGuidance.
  cbn [default from_option id]. unfold Knowledge.exampleStructures, strictEq.
  rewrite (bool_decide_eq_false_2 (presentationType = lit "business")) by done.
  split.
  - intros Hown. rewrite (bool_decide_eq_false_2 (_ ∈ _)) by done.
    by case_bool_decide.
  - intros Hinherited. rewrite (bool_decide_eq_true_2 (_ ∈ _)) by done.
    case_bool_decide as Htechnical; [|done].
    subst presentationType. exfalso. apply (bool_decide_pack _) in Hinherited.
    vm_compute in Hinherited. exact Hinherited.
Qed.

(** The type [academic] has no outline of its own. *)
Lemma generateSlidevGuidance_falls_back_witness :
  lit "academic" <> lit "business"
  /\ (lit "academic" ∉ Knowledge.objectPrototypeKeys)
  /\ Knowledge.generateSlidevGuidance (Some (lit "academic"))
     = Knowledge.generateSlidevGuidance None.
Proof.
  assert (Hne : lit "academic" <> lit "business") by discriminate.
  assert (Hown : lit "academic" ∉ Knowledge.objectPrototypeKeys).
  { apply (bool_decide_unpack _). vm_compute. exact I. }
  split; [exact Hne|]. split; [exact Hown|].
  exact (proj1 (generateSlidevGuidance_falls_back (lit "academic") Hne) Hown).
Defined.

(** With the lowering of ASCII capitals, on a free-form request. *)
Lemma normalizePresentationType_idempotent_witness :
  (forall word, word ∈ [lit "technical"; lit "business"; lit "academic"] ->
     toLowerCase word = word)
  /\ GuidanceTool.normalizePresentationType toLowerCase
       (Some (GuidanceTool.normalizePresentationType toLowerCase
                (Some (lit "Quarterly Sales Review"))))
     = lit "business".
Proof.
  assert (Hfixed : forall word, word ∈ [lit "technical"; lit "business"; lit "academic"] ->
                     toLowerCase word = word).
  { intros word Hword.
    repeat (apply elem_of_cons in Hword as [-> | Hword]);
      [reflexivity | reflexivity | reflexivity | by apply elem_of_nil in Hword]. }
  split; [exact Hfixed|].
  rewrite (normalizePresentationType_idempotent toLowerCase
             (Some (lit "Quarterly Sales Review")) Hfixed).
  reflexivity.
Defined.

(** ** The command line of the wrapper, and the staged name *)

Section SplitFacts.

(** Without the separator there is one piece; after the first separator,
    the second piece runs up to the next one. *)
Lemma split_without_separator (separator : N) (s : list N) :
  separator ∉ s -> Cli.split separator s = [s].
Proof.
  induction s as [|c s IH]; [done|]. intros Hnot.
  apply not_elem_of_cons in Hnot as [Hne Hnot]. cbn [Cli.split].
  rewrite (proj2 (N.eqb_neq c separator)) by congruence. by rewrite IH.
Qed.

Lemma split_second_piece (separator : N) (name value : list N) :
  separator ∉ name -> separator ∉ value ->
  Cli.split separator (name ++ [separator] ++ value) !! 1%nat = Some value.
Proof.
  intros Hname Hvalue. induction name as [|c name IH].
  - cbn [app Cli.split]. rewrite N.eqb_refl. by rewrite split_without_separator.
  - apply not_elem_of_cons in Hname as [Hne Hname]. cbn [app Cli.split].
    rewrite (proj2 (N.eqb_neq c separator)) by congruence.
    specialize (IH Hname). cbn [app] in IH.
    by destruct (Cli.split separator (name ++ separator :: value)).
Qed.

End SplitFacts.

Section CliFacts.
Context `{Host}.

(** X22: the range reaches the exporter only when it is written behind an
    equals sign in the argument that opens with [--range]: given as the next
    argument, as the usage line shows it, it is dropped. *)
Theorem rangeOption_reads_equals_form (before after : list (list N)) (flag : list N) :
  Forall (fun arg => startsWith (lit "--range") arg = false) before ->
  startsWith (lit "--range") flag = true ->
  (61 ∉ flag -> Cli.rangeOption (before ++ flag :: after) = None)
  /\ (forall name spec,
        flag = name ++ [61] ++ spec -> 61 ∉ name -> 61 ∉ spec ->
        Cli.rangeOption (before ++ flag :: after) = Some spec).
Proof.
  intros Hbefore Hflag.
  assert (Hfind : find (fun arg => startsWith (lit "--range") arg) (before ++ flag :: after)
                  = Some flag).
  { induction Hbefore as [|arg before Harg _ IH]; cbn [app find].
    - by rewrite Hflag.
    - by rewrite Harg. }
  unfold Cli.rangeOption. rewrite Hfind. split.
  - intros Hnone. by rewrite split_without_separator.
  - intros name spec -> Hname Hspec. by apply split_second_piece.
Qed.

Lemma main_outcome (argv : list (list N)) (w : World) :
  if truthyOpt (argv !! 2%nat) && truthyOpt (argv !! 3%nat)
  then exists result w',
         Wrapper.exportToPDF (default [] (argv !! 2%nat)) (default [] (argv !! 3%nat))
           (Cli.parseOptions (drop 4 argv)) w = (Returned result, w')
         /\ Cli.main argv w
            = (Returned (if ExportResult.success result then 0 else 1), w')
  else Cli.main argv w = (Returned 1, w).
Proof.
  unfold Cli.main. cbv zeta.
  destruct (truthyOpt (argv !! 2%nat)); [|done].
  destruct (truthyOpt (argv !! 3%nat)); [|done]. cbn [negb orb andb].
  destruct (neverThrows_exportToPDF (default [] (argv !! 2%nat))
              (default [] (argv !! 3%nat)) (Cli.parseOptions (drop 4 argv)) w)
    as (result & w' & Hrun).
  exists result, w'. split; [exact Hrun|].
  erewrite tryCatch_returned; [reflexivity|].
  by erewrite bind_returned by exact Hrun.
Qed.

(** X23: run as a program, the wrapper exits with status 0 or 1.  Without both
    file arguments it exits with 1 and does nothing; status 0 means that the
    export reported an artifact, and that this artifact exists. *)
Theorem main_exit_status (argv : list (list N)) (w : World) :
  exists status w',
    Cli.main argv w = (Returned status, w')
    /\ (status = 0 \/ status = 1)
    /\ (truthyOpt (argv !! 2%nat) && truthyOpt (argv !! 3%nat) = false ->
        status = 1 /\ w' = w)
    /\ (status = 0 ->
        exists inputFile outputFile result,
          argv !! 2%nat = Some inputFile /\ argv !! 3%nat = Some outputFile
          /\ Wrapper.exportToPDF inputFile outputFile (Cli.parseOptions (drop 4 argv)) w
             = (Returned result, w')
          /\ ExportResult.success result = true
          /\ is_Some (Fs.entry w' (ExportResult.pdfPath result))).
Proof.
  pose proof (main_outcome argv w) as Hmain.
  destruct (truthyOpt (argv !! 2%nat) && truthyOpt (argv !! 3%nat)) eqn:Hargs.
  - destruct Hmain as (result & w' & Hrun & Hmain).
    eexists _, w'. split; [exact Hmain|].
    apply andb_prop in Hargs as [Hin Hout].
    destruct (argv !! 2%nat) as [inputFile|]; [|done].
    destruct (argv !! 3%nat) as [outputFile|]; [|done].
    cbn [default from_option id] in Hrun.
    destruct (ExportResult.success result) eqn:Hsuccess.
    + split; [by left|]. split; [done|]. intros _.
      exists inputFile, outputFile, result.
      pose proof (exportToPDF_success _ _ _ _ _ _ Hrun Hsuccess) as (Hpdf & _).
      split_and!; [done | done | exact Hrun | done | exact Hpdf].
    + split; [by right|]. split; [done|]. done.
  - exists 1, w. split; [exact Hmain|]. split; [by right|]. split; [done|]. done.
Qed.

End CliFacts.

Section HashFacts.
Context `{Host}.

Lemma hex_length (bytes : list N) : length (hex bytes) = (2 * length bytes)%nat.
Proof. induction bytes as [|b bytes IH]; cbn [hex length]; lia. Qed.

Lemma bigEndian_length (width : nat) (x : N) : length (Sha1.bigEndian width x) = width.
Proof. induction width as [|k IH]; cbn [Sha1.bigEndian length]; [done | by rewrite IH]. Qed.

Lemma bigEndian_bytes (width : nat) (x : N) :
  Forall (fun b => b < 256) (Sha1.bigEndian width x).
Proof.
  induction width as [|k IH]; cbn [Sha1.bigEndian]; constructor; [|done].
  change 255 with (N.ones 8). rewrite N.land_ones. by apply N.mod_lt.
Qed.

Lemma hexDigit_is_hex (n : N) : n < 16 -> Behaviour.isHexDigit (hexDigit n) = true.
Proof.
  intros Hn. unfold hexDigit, Behaviour.isHexDigit.
  destruct (n <? 10) eqn:Hlow.
  - apply N.ltb_lt in Hlow. apply orb_true_iff. left. apply andb_true_iff.
    split; apply N.leb_le; lia.
  - apply N.ltb_ge in Hlow. apply orb_true_iff. right. apply andb_true_iff.
    split; apply N.leb_le; lia.
Qed.

Lemma hex_digits (bytes : list N) :
  Forall (fun b => b < 256) bytes -> forallb Behaviour.isHexDigit (hex bytes) = true.
Proof.
  induction 1 as [|b bytes Hb _ IH]; [done|]. cbn [hex forallb].
  rewrite IH, !hexDigit_is_hex; [done | |].
  - change 15 with (N.ones 4). rewrite N.land_ones. by apply N.mod_lt.
  - rewrite N.shiftr_div_pow2. change (2 ^ 4) with 16.
    apply N.Div0.div_lt_upper_bound. lia.
Qed.

Lemma forallb_take {A : Type} (f : A -> bool) (n : nat) (l : list A) :
  forallb f l = true -> forallb f (take n l) = true.
Proof.
  revert n. induction l as [|a l IH]; intros [|n]; cbn; try done.
  intros [-> Hl]%andb_prop. by apply IH.
Qed.

(** X24: the name a document is staged under is its base name without [.md], a
    dash, eight lower-case hexadecimal digits, and [.md]. *)
Theorem stagedMdName_shape (mdPath : list N) :
  exists hash,
    Wrapper.stagedMdName mdPath
    = stripMdExt (basename mdPath) ++ lit "-" ++ hash ++ lit ".md"
    /\ length hash = 8%nat
    /\ forallb Behaviour.isHexDigit hash = true.
Proof.
  exists (Wrapper.mdHash mdPath).
  assert (Hbytes : Forall (fun b => b < 256) (Sha1.digest (utf8 mdPath))).
  { unfold Sha1.digest. cbv zeta. repeat (apply Forall_app; split); apply bigEndian_bytes. }
  assert (Hlength : length (Sha1.sha1Hex mdPath) = 40%nat).
  { unfold Sha1.sha1Hex. rewrite hex_length. unfold Sha1.digest. cbv zeta.
    by rewrite !length_app, !bigEndian_length. }
  split; [done|]. split.
  - unfold Wrapper.mdHash. rewrite length_take. lia.
  - unfold Wrapper.mdHash. apply forallb_take. by apply hex_digits.
Qed.

End HashFacts.

(** ** The theme, from the builder to the exporter *)

Section ThemeFacts.

Lemma captureRun_clean (s : list N) (k : nat) :
  (0 < k <= Wrapper.captureRun s)%nat -> Behaviour.cleanCapture (take k s).
Proof.
  revert k. induction s as [|c s IH]; intros k; cbn [Wrapper.captureRun]; [lia|].
  destruct (Wrapper.isQuoteOrNewline c) eqn:Hc; [lia|]. intros Hk.
  destruct k as [|k]; [lia|]. cbn [take]. split; [done|]. constructor; [done|].
  destruct k as [|k]; [by rewrite take_0|]. apply IH. lia.
Qed.

Lemma longestCapture_some (r : nat) (s captured : list N) :
  Wrapper.longestCapture r s = Some captured ->
  exists k, (0 < k <= r)%nat /\ captured = take k s
            /\ includes (lit "---") (drop k s) = true.
Proof.
  induction r as [|r IH]; cbn [Wrapper.longestCapture]; [discriminate|].
  destruct (includes (lit "---") (drop (S r) s)) eqn:Hrest.
  - intros [= <-]. exists (S r). split; [lia | done].
  - intros Hlater. destruct (IH Hlater) as (k & Hk & Hcaptured & Hdelimiter).
    exists k. split; [lia | done].
Qed.

Lemma includes_drop (p s : list N) (k : nat) :
  includes p (drop k s) = true -> includes p s = true.
Proof.
  revert s. induction k as [|k IH]; intros s; [by rewrite drop_0|].
  destruct s as [|c s]; [done|]. cbn [drop]. intros Hin.
  cbn [includes]. rewrite (IH s Hin). apply orb_true_r.
Qed.

Lemma includes_cons (p : list N) (c : N) (s : list N) :
  includes p s = true -> includes p (c :: s) = true.
Proof. intros Hin. cbn [includes]. rewrite Hin. apply orb_true_r. Qed.

Lemma captureAt_some (s captured : list N) :
  Wrapper.captureAt s = Some captured ->
  Behaviour.cleanCapture captured /\ includes (lit "---") s = true.
Proof.
  unfold Wrapper.captureAt.
  assert (Hrun : forall t, Wrapper.longestCapture (Wrapper.captureRun t) t = Some captured ->
                   Behaviour.cleanCapture captured /\ includes (lit "---") t = true).
  { intros t Hsome. apply longestCapture_some in Hsome as (k & Hk & -> & Hdelimiter).
    split; [by apply captureRun_clean | by eapply includes_drop]. }
  destruct s as [|c s]; [by apply Hrun|].
  destruct (decide (c = 34)) as [->|Hc].
  - intros Hsome. destruct (Hrun s Hsome) as [Hclean Hin].
    split; [done | by apply includes_cons].
  - intros Hsome. apply Hrun.
    destruct c as [|p]; [done|]. do 6 (destruct p as [p|p|]; try done).
Qed.

Lemma afterSpaces_some (m : nat) (s captured : list N) :
  Wrapper.afterSpaces m s = Some captured ->
  Behaviour.cleanCapture captured /\ includes (lit "---") s = true.
Proof.
  induction m as [|m IH]; cbn [Wrapper.afterSpaces];
    destruct (Wrapper.captureAt (drop _ s)) as [found|] eqn:Hat.
  - intros [= <-]. apply captureAt_some in Hat as [Hclean Hin].
    split; [done | by eapply includes_drop].
  - discriminate.
  - intros [= <-]. apply captureAt_some in Hat as [Hclean Hin].
    split; [done | by eapply includes_drop].
  - exact IH.
Qed.

Lemma themeAt_some (prev : N) (s captured : list N) :
  Wrapper.themeAt prev s = Some captured ->
  Behaviour.cleanCapture captured /\ startsWith (lit "theme") s = true
  /\ includes (lit "---") s = true.
Proof.
  unfold Wrapper.themeAt.
  destruct (negb (Wrapper.isWordChar prev) && startsWith (lit "theme") s) eqn:Hhead;
    [|discriminate].
  apply andb_prop in Hhead as [_ Hword]. cbv zeta.
  destruct (drop (Wrapper.spaceRun (drop 5 s)) (drop 5 s)) as [|c value] eqn:Hcolon;
    [discriminate|].
  destruct (decide (c = 58)) as [->|Hc].
  - intros Hsome. apply afterSpaces_some in Hsome as [Hclean Hin].
    split; [done|]. split; [done|].
    eapply includes_drop. eapply includes_drop. rewrite Hcolon. by apply includes_cons.
  - intros Hsome. exfalso. destruct c as [|p]; [done|].
    do 6 (destruct p as [p|p|]; try done).
Qed.

Lemma lazyTheme_some (prev : N) (s captured : list N) :
  Wrapper.lazyTheme prev s = Some captured ->
  Behaviour.cleanCapture captured /\ includes (lit "theme") s = true.
Proof.
  revert prev. induction s as [|c s IH]; intros prev; cbn [Wrapper.lazyTheme];
    destruct (Wrapper.themeAt prev _) as [found|] eqn:Hat.
  - intros [= <-]. by apply themeAt_some in Hat as (? & ? & ?).
  - discriminate.
  - intros [= <-]. apply themeAt_some in Hat as (Hclean & Hword & _).
    split; [done|]. cbn [includes]. by rewrite Hword.
  - intros Hlater. destruct (IH _ Hlater) as [Hclean Hin].
    split; [done | by apply includes_cons].
Qed.

Lemma matchFrom_some (lineStart : bool) (s captured : list N) :
  Wrapper.matchFrom lineStart s = Some captured ->
  Behaviour.cleanCapture captured /\ includes (lit "---") s = true
  /\ includes (lit "theme") s = true.
Proof.
  revert lineStart. induction s as [|c s IH]; intros lineStart; cbn [Wrapper.matchFrom].
  - destruct (lineStart && startsWith (lit "---") []); discriminate.
  - destruct (lineStart && startsWith (lit "---") (c :: s)) eqn:Hhead.
    + apply andb_prop in Hhead as [_ Hdashes].
      destruct (Wrapper.lazyTheme 45 (drop 3 (c :: s))) as [found|] eqn:Hlazy.
      * intros [= <-]. apply lazyTheme_some in Hlazy as [Hclean Hin].
        split; [done|]. split; [|by eapply includes_drop].
        cbn [includes]. by rewrite Hdashes.
      * intros Hlater. destruct (IH _ Hlater) as (Hclean & Hd & Ht).
        split; [done|]. split; by apply includes_cons.
    + intros Hlater. destruct (IH _ Hlater) as (Hclean & Hd & Ht).
      split; [done|]. split; by apply includes_cons.
Qed.

(** X25: a theme read from a document is never empty and holds neither a double
    quote nor a newline; the document holds a delimiter and the word
    [theme]. *)
Theorem matchTheme_capture_is_clean (mdText captured : list N) :
  Wrapper.matchTheme mdText = Some captured ->
  captured <> []
  /\ Forall (fun c => c <> 34 /\ c <> 10) captured
  /\ Spec.contains (lit "---") mdText
  /\ Spec.contains (lit "theme") mdText.
Proof.
  intros Hmatch. apply matchFrom_some in Hmatch as ([Hnonempty Hclean] & Hd & Ht).
  split; [done|]. split; [|split; by apply includes_true].
  eapply Forall_impl; [exact Hclean|]. intros c Hc. unfold Wrapper.isQuoteOrNewline in Hc.
  apply orb_false_elim in Hc as [Hq Hn]. by split; apply N.eqb_neq.
Qed.

End ThemeFacts.

Section ThemeRoundTrip.

(** A pattern free of newlines that matches at the head of a text followed
    by a newline matches at the head of the text. *)
Lemma startsWith_before_newline (p s rest : list N) :
  10 ∉ p -> startsWith p (s ++ nl ++ rest) = true -> startsWith p s = true.
Proof.
  revert s. induction p as [|a p IH]; intros s Hp; [done|].
  apply not_elem_of_cons in Hp as [Ha Hp].
  destruct s as [|c s]; cbn [app startsWith nl].
  - intros [Heq _]%andb_prop. apply N.eqb_eq in Heq. congruence.
  - intros [-> Hrest]%andb_prop. cbn [andb]. by apply IH.
Qed.

Lemma themeAt_none (prev : N) (s : list N) :
  startsWith (lit "theme") s = false -> Wrapper.themeAt prev s = None.
Proof. intros Hno. unfold Wrapper.themeAt. by rewrite Hno, andb_false_r. Qed.

(** The lazy run passes over a line that does not hold the word. *)
Lemma lazyTheme_through_line (prev : N) (line rest : list N) :
  includes (lit "theme") line = false ->
  Wrapper.lazyTheme prev (line ++ nl ++ rest) = Wrapper.lazyTheme 10 rest.
Proof.
  revert prev. induction line as [|c line IH]; intros prev Hline.
  - cbn [app nl Wrapper.lazyTheme]. by rewrite themeAt_none.
  - cbn [includes] in Hline. apply orb_false_elim in Hline as [Hhere Hlater].
    cbn [app Wrapper.lazyTheme]. rewrite themeAt_none; [by apply IH|].
    destruct (startsWith (lit "theme") (c :: line ++ nl ++ rest)) eqn:Hmatch; [|done].
    change (c :: line ++ nl ++ rest) with ((c :: line) ++ nl ++ rest) in Hmatch.
    apply startsWith_before_newline in Hmatch; [congruence|].
    apply (bool_decide_unpack _). vm_compute. exact I.
Qed.

Lemma spaceRun_trimStart (s rest : list N) :
  Spec.blank s = false ->
  drop (Wrapper.spaceRun (s ++ rest)) (s ++ rest) = trimStart s ++ rest.
Proof.
  induction s as [|c s IH]; [done|]. cbn [app Wrapper.spaceRun trimStart Spec.blank forallb].
  destruct (isWhiteSpace c); [|done]. cbn [andb drop]. exact IH.
Qed.

Lemma trimStart_head (s : list N) :
  Spec.blank s = false ->
  exists c rest, trimStart s = c :: rest /\ isWhiteSpace c = false.
Proof.
  induction s as [|c s IH]; [done|]. cbn [trimStart Spec.blank forallb].
  destruct (isWhiteSpace c) eqn:Hc; [exact IH | by exists c, s].
Qed.

Lemma trimStart_suffix (s : list N) : exists skipped, s = skipped ++ trimStart s.
Proof.
  induction s as [|c s [skipped IH]]; [by exists []|]. cbn [trimStart].
  destruct (isWhiteSpace c); [|by exists []].
  exists (c :: skipped). cbn [app]. by rewrite <- IH.
Qed.

Lemma trimStart_idempotent (s : list N) : trimStart (trimStart s) = trimStart s.
Proof.
  induction s as [|c s IH]; [done|]. cbn [trimStart].
  destruct (isWhiteSpace c) eqn:Hc; [done|]. cbn [trimStart]. by rewrite Hc.
Qed.

Lemma captureRun_clean_line (line rest : list N) :
  Forall (fun c => Wrapper.isQuoteOrNewline c = false) line ->
  Wrapper.captureRun (line ++ nl ++ rest) = length line.
Proof.
  induction 1 as [|c line Hc _ IH]; [done|].
  cbn [app Wrapper.captureRun length]. by rewrite Hc, IH.
Qed.

Lemma afterSpaces_first (m : nat) (s captured : list N) :
  Wrapper.captureAt (drop m s) = Some captured -> Wrapper.afterSpaces m s = Some captured.
Proof. intros Hat. destruct m; cbn [Wrapper.afterSpaces]; by rewrite Hat. Qed.

(** The value of a [theme:] line is read back up to its white space. *)
Lemma themeAt_theme_line (theme rest : list N) :
  Spec.blank theme = false ->
  Forall (fun c => Wrapper.isQuoteOrNewline c = false) theme ->
  includes (lit "---") rest = true ->
  Wrapper.themeAt 10 (lit "theme: " ++ theme ++ nl ++ rest) = Some (trimStart theme).
Proof.
  intros Hblank Hclean Hdelimiter.
  transitivity (Wrapper.afterSpaces (S (Wrapper.spaceRun (theme ++ nl ++ rest)))
                  (32 :: theme ++ nl ++ rest)); [reflexivity|].
  apply afterSpaces_first. cbn [drop]. rewrite spaceRun_trimStart by done.
  destruct (trimStart_head theme Hblank) as (c & tail & Hhead & Hc).
  destruct (trimStart_suffix theme) as (skipped & Hsplit).
  assert (Hkept : Forall (fun c => Wrapper.isQuoteOrNewline c = false) (trimStart theme)).
  { rewrite Hsplit in Hclean. by apply Forall_app in Hclean as [_ Hkept]. }
  unfold Wrapper.captureAt.
  assert (Hquote : c <> 34).
  { intros ->. rewrite Hhead in Hkept. by apply Forall_cons in Hkept as [Hq _]. }
  assert (Hsame : match trimStart theme ++ nl ++ rest with
                  | 34 :: r => r
                  | _ => trimStart theme ++ nl ++ rest
                  end = trimStart theme ++ nl ++ rest).
  { rewrite Hhead. cbn [app]. destruct c as [|p]; [done|].
    do 6 (destruct p as [p|p|]; try done). }
  rewrite Hsame, captureRun_clean_line by done.
  rewrite Hhead. cbn [length Wrapper.longestCapture]. rewrite <- Hhead.
  assert (Hlen : S (length tail) = length (trimStart theme)) by (by rewrite Hhead).
  rewrite Hlen, drop_app_length, take_app_length.
  cbn [includes app nl]. by rewrite Hdelimiter, orb_true_r.
Qed.

Lemma firstSlideHeader_themed (input : BuildInput.t) (slide : Slide.t) (theme : list N) :
  BuildInput.theme input = Some theme -> Spec.blank theme = false ->
  exists rest,
    Builder.firstSlideHeader input slide
    = lit "---" ++ nl ++ lit "layout: "
        ++ Builder.resolveLayout (Slide.layout slide) (lit "cover") ++ nl
        ++ lit "theme: " ++ theme ++ nl ++ rest ++ lit "---" ++ nl.
Proof.
  intros Htheme Hblank. unfold Builder.firstSlideHeader, Builder.themeValue. cbv zeta.
  rewrite Htheme, trim_length_blank, Hblank. cbn [negb truthyOpt default from_option id].
  assert (Htruthy : truthy theme = true) by (by destruct theme).
  rewrite Htruthy.
  exists (lit "title: " ++ dq ++ BuildInput.title input ++ dq ++ nl
          ++ if truthyOpt (BuildInput.author input)
             then lit "author: " ++ dq ++ default [] (BuildInput.author input) ++ dq ++ nl
             else []).
  destruct (truthyOpt (BuildInput.author input));
    repeat (rewrite <- app_assoc || rewrite <- app_comm_cons); [reflexivity|].
  by rewrite app_nil_l.
Qed.

(** X26: the theme given to the builder is the theme the exporter reads back
    from the built document, white space around it aside; unless that is
    [none], its package is the one the exporter ensures. *)
Theorem built_theme_reaches_exporter (input : BuildInput.t) (first : Slide.t)
    (later : list Slide.t) (theme : list N) :
  BuildInput.slides input = first :: later ->
  BuildInput.theme input = Some theme ->
  Spec.blank theme = false ->
  Forall (fun c => c <> 34 /\ c <> 10) theme ->
  includes (lit "theme") (Builder.resolveLayout (Slide.layout first) (lit "cover")) = false ->
  Wrapper.matchTheme (Builder.buildMarkdown input) = Some (trimStart theme)
  /\ Wrapper.themePackage (Builder.buildMarkdown input)
     = if strictEq (toLowerCase (trim theme)) (lit "none") then None
       else Some (Wrapper.derivePkgName (trim theme)).
Proof.
  intros Hslides Htheme Hblank Hclean Hlayout.
  assert (Hclean' : Forall (fun c => Wrapper.isQuoteOrNewline c = false) theme).
  { eapply Forall_impl; [exact Hclean|]. intros c [Hq Hn]. unfold Wrapper.isQuoteOrNewline.
    apply orb_false_intro; by apply N.eqb_neq. }
  assert (Hmatch : Wrapper.matchTheme (Builder.buildMarkdown input) = Some (trimStart theme)).
  { rewrite buildMarkdown_blocks, Hslides. cbn [imap concat].
    rewrite slideBlock_parts. cbn [Builder.blockHeader].
    destruct (firstSlideHeader_themed input first theme Htheme Hblank) as (rest & ->).
    repeat (rewrite <- app_assoc || rewrite <- app_comm_cons).
    set (tail := rest ++ _).
    set (layout := Builder.resolveLayout (Slide.layout first) (lit "cover")) in *.
    assert (Hdelimiter : includes (lit "---") tail = true).
    { apply includes_true. subst tail. by eexists rest, _. }
    clearbody tail layout.
    assert (Hlazy : Wrapper.lazyTheme 45
                      (nl ++ lit "layout: " ++ layout ++ nl ++ lit "theme: " ++ theme
                          ++ nl ++ tail)
                    = Some (trimStart theme)).
    { transitivity (Wrapper.lazyTheme 32
                      (layout ++ nl ++ lit "theme: " ++ theme ++ nl ++ tail));
        [reflexivity|].
      rewrite lazyTheme_through_line by done.
      pose proof (themeAt_theme_line theme tail Hblank Hclean' Hdelimiter) as Hat.
      destruct (lit "theme: " ++ theme ++ nl ++ tail) eqn:Hdoc; cbn [Wrapper.lazyTheme];
        by rewrite Hat. }
    unfold Wrapper.matchTheme.
    change (Wrapper.matchFrom true
              (lit "---" ++ nl ++ lit "layout: " ++ layout ++ nl ++ lit "theme: " ++ theme
                 ++ nl ++ tail))
      with (match Wrapper.lazyTheme 45
                    (nl ++ lit "layout: " ++ layout ++ nl ++ lit "theme: " ++ theme
                        ++ nl ++ tail)
            with
            | Some captured => Some captured
            | None =>
                Wrapper.matchFrom (Wrapper.isLineTerminator 45)
                  (45 :: 45 :: nl ++ lit "layout: " ++ layout ++ nl ++ lit "theme: "
                      ++ theme ++ nl ++ tail)
            end).
    by rewrite Hlazy. }
  split; [exact Hmatch|].
  unfold Wrapper.themePackage. rewrite Hmatch. cbv zeta.
  assert (Htrim : trim (trimStart theme) = trim theme).
  { unfold trim. by rewrite trimStart_idempotent. }
  rewrite Htrim.
  assert (Htruthy : truthy (trim theme) = true).
  { destruct (trim theme) eqn:Hempty; [|done]. apply trim_nil in Hempty. congruence. }
  rewrite Htruthy. cbn [andb]. by destruct (strictEq _ _).
Qed.

End ThemeRoundTrip.

(** ** Worked cases *)

(** On a host whose commands all succeed, the export step runs the first
    command and nothing else. *)
Lemma runExport_stops_at_first_success_witness :
  Wrapper.runExport (H := Examples.openHost) (lit "/proj")
    (Cases.renderedCommands Cases.plainOptions) Examples.renderedWorld
  = (Returned tt,
     logExec (lit "cd " ++ dq ++ lit "/proj" ++ dq ++ lit " && npx slidev export " ++ dq
                ++ lit "slides/deck-ba22524d.md" ++ dq ++ lit " --output " ++ dq
                ++ lit "deck.pdf" ++ dq)
             Examples.renderedWorld).
Proof.
  exact (runExport_stops_at_first_success (H := Examples.openHost) (lit "/proj") _ _
           Examples.renderedWorld eq_refl).
Defined.

(** Both commands for [/proj], with [--with-clicks] and a range. *)
Lemma exportCommands_carry_flags_witness :
  includes (lit " export " ++ dq) (lit "/proj" ++ dq) = false
  /\ Cases.renderedCommands Cases.clickRange
     = [ lit "cd " ++ dq ++ lit "/proj" ++ dq
           ++ lit " && npx slidev export --with-clicks --range " ++ dq ++ lit "1-3" ++ dq
           ++ lit " " ++ dq ++ lit "slides/deck-ba22524d.md" ++ dq ++ lit " --output " ++ dq
           ++ lit "deck.pdf" ++ dq;
         lit "cd " ++ dq ++ lit "/proj" ++ dq
           ++ lit " && node node_modules/@slidev/cli/bin/slidev.mjs export --with-clicks --range "
           ++ dq ++ lit "1-3" ++ dq
           ++ lit " " ++ dq ++ lit "slides/deck-ba22524d.md" ++ dq ++ lit " --output " ++ dq
           ++ lit "deck.pdf" ++ dq ].
Proof.
  split; [reflexivity|].
  exact (exportCommands_carry_flags (lit "/proj")
           (lit "slides/deck-ba22524d.md") (lit "deck.pdf") Cases.clickRange eq_refl
           eq_refl).
Defined.

(** The deck of the specification, built on an empty file system and then
    exported without naming an input. *)
Lemma export_resolves_built_deck_witness :
  let built :=
    Server.build_complete_presentation (H := Examples.openHost) Examples.specDeck
      Examples.emptyWorld in
  Server.resolveInput (H := Examples.openHost) Examples.exportLastBuilt built.2
  = (Returned (lit "/home/u/.local/share/precursor/slides/t1.md"), built.2)
  /\ Fs.readFileSync (lit "/home/u/.local/share/precursor/slides/t1.md") built.2
     = (Returned (Builder.buildMarkdown Examples.specDeck), built.2).
Proof.
  cbv zeta.
  assert (Hslides : BuildInput.slides Examples.specDeck <> []) by discriminate.
  assert (Hname : BuildInput.name Examples.specDeck <> []) by discriminate.
  exact (export_resolves_built_deck (H := Examples.openHost) Examples.specDeck
           Examples.emptyWorld _
           (BuildPayload.mk
              (lit "Complete presentation 'Demo' with 2 slides created and saved successfully!")
              2 (lit "/home/u/.local/share/precursor/slides/t1.md") true)
           None None None None None Hslides Hname eq_refl (or_introl eq_refl)).
Defined.

(** [--range=1-3] sets the range; [--range 1,3-5], as the usage line writes
    it, does not. *)
Lemma rangeOption_reads_equals_form_witness :
  Cli.rangeOption [lit "--dark"; lit "--range=1-3"] = Some (lit "1-3")
  /\ Cli.rangeOption [lit "--dark"; lit "--range"; lit "1,3-5"] = None.
Proof.
  assert (Hbefore : Forall (fun arg => startsWith (lit "--range") arg = false) [lit "--dark"]).
  { by constructor. }
  split.
  - apply (proj2 (rangeOption_reads_equals_form [lit "--dark"] [] (lit "--range=1-3")
                    Hbefore eq_refl) (lit "--range") (lit "1-3") eq_refl).
    + apply (bool_decide_unpack _). vm_compute. exact I.
    + apply (bool_decide_unpack _). vm_compute. exact I.
  - apply (proj1 (rangeOption_reads_equals_form [lit "--dark"] [lit "1,3-5"] (lit "--range")
                    Hbefore eq_refl)).
    apply (bool_decide_unpack _). vm_compute. exact I.
Defined.

(** The theme of a built deck. *)
Lemma matchTheme_capture_is_clean_witness :
  Wrapper.matchTheme (Builder.buildMarkdown (Examples.themedDeck (lit "seriph")))
  = Some (lit "seriph")
  /\ Spec.contains (lit "theme")
       (Builder.buildMarkdown (Examples.themedDeck (lit "seriph"))).
Proof.
  assert (Hmatch : Wrapper.matchTheme
                     (Builder.buildMarkdown (Examples.themedDeck (lit "seriph")))
                   = Some (lit "seriph")) by (vm_compute; reflexivity).
  split; [exact Hmatch|].
  exact (proj2 (proj2 (proj2 (matchTheme_capture_is_clean _ _ Hmatch)))).
Defined.

(** A theme given with white space around it. *)
Lemma built_theme_reaches_exporter_witness :
  Wrapper.themePackage (Builder.buildMarkdown (Examples.themedDeck (lit " seriph ")))
  = Some (lit "@slidev/theme-seriph").
Proof.
  assert (Hclean : Forall (fun c => c <> 34 /\ c <> 10) (lit " seriph ")).
  { repeat constructor; discriminate. }
  exact (proj2 (built_theme_reaches_exporter (Examples.themedDeck (lit " seriph ")) _ _
                  (lit " seriph ") eq_refl eq_refl eq_refl Hclean eq_refl)).
Defined.

(** On a host that refuses every write, the export of a saved deck fails
    in the preparing step, and the handler's message carries the prefix
    twice. *)
Lemma wrapper_failure_is_reclassified_witness :
  (Server.export_to_pdf (H := Examples.readOnlyHost) (Examples.exportOf (lit "/tmp/deck.md"))
     Examples.savedWorld).1
  = Returned
      (ExportPayload.mk
         (lit "PDF export failed: PDF export failed: EACCES: permission denied, mkdir '/home/u/.local/share/precursor/slidev_project'")
         [] 0 false).
Proof.
  pose proof (wrapper_failure_is_reclassified (H := Examples.readOnlyHost)
                (Examples.exportOf (lit "/tmp/deck.md")) Examples.savedWorld
                Examples.savedWorld Examples.savedWorld Examples.savedWorld
                (lit "/tmp/deck.md") (lit "/tmp/deck.pdf")
                (ExportResult.mk false []
                   (lit "PDF export failed: EACCES: permission denied, mkdir '/home/u/.local/share/precursor/slidev_project'"))
                eq_refl eq_refl eq_refl eq_refl) as [Hrun _].
  rewrite Hrun. reflexivity.
Defined.
